(** * generate.py of the OSDC site generator, embedded in Rocq

    The program reads per-person JSON records, enriches them from two
    external sources behind an on-disk cache, validates project URLs,
    aggregates posts and renders HTML.  This file embeds the functions of
    [generate.py] that carry the behaviour (record loader, cache, the two
    enrichers, project validator, post aggregator, README transform) and
    proves properties of them.

    Conventions of the embedding:
    - a Python [str] is a [string]; its characters are the code points
      below 256;
    - a JSON value (and the Python object [json.load] builds from it) is a
      [value]: [None], a [bool], an [int], a [float] (with the infinities
      and NaN, which [json.load] accepts), a [str], a [list] or a [dict]
      with [str] keys; a [dict] is an association list in insertion order,
      as Python dicts are;
    - [json.load] builds one object for every [NaN] it reads; where Python
      takes identical objects for equal (the items of lists and the keys
      of dicts), a NaN is equal to a NaN;
    - a Python exception is a [Raise e] result; code that logs, sleeps or
      calls the network runs in the monad [W], which records these events;
    - the external collaborators ([forem.fetch], [github.get_user_info],
      [markdown.markdown], the formatting of non-string values in
      f-strings) are fields of the record [externals]. *)

From Stdlib Require Import String Ascii List ZArith QArith Bool Arith Lia Sorted.
From Stdlib Require Import SpecFloat DecimalString Lqa.
Import ListNotations.
Close Scope Q_scope.
Open Scope list_scope.
Open Scope string_scope.

Set Warnings "-register-all".

(** ** Python values, exceptions and the builtins the program uses *)

Module Py.

Inductive value : Type :=
| VNone
| VBool (b : bool)
| VInt (n : Z)
| VFloat (f : spec_float)
| VStr (s : string)
| VList (l : list value)
| VDict (d : list (string * value)).

Definition dict : Type := list (string * value).

Inductive exn : Type :=
| KeyError (key : value)
| TypeError
| AttributeError
| JsonError (msg : string)       (* class JsonError(Exception) of generate.py *)
| Exception (msg : string)
| SystemExit (msg : string)      (* exit(msg) *)
| ExternalError (msg : string).  (* raised inside json, pathlib or the network *)

Inductive result (A : Type) : Type :=
| Ok (a : A)
| Raise (e : exn).

Arguments Ok {A} a.
Arguments Raise {A} e.

Definition bind {A B : Type} (m : result A) (f : A -> result B) : result B :=
  match m with
  | Ok a => f a
  | Raise e => Raise e
  end.

(** [bool(v)]: the truth value of an object. *)
Definition truthy (v : value) : bool :=
  match v with
  | VNone => false
  | VBool b => b
  | VInt n => negb (Z.eqb n 0)
  | VFloat f => match f with S754_zero _ => false | _ => true end
  | VStr s => negb (String.eqb s "")
  | VList l => match l with [] => false | _ => true end
  | VDict d => match d with [] => false | _ => true end
  end.

(** *** dict *)

Fixpoint dict_get (k : string) (d : dict) : option value :=
  match d with
  | [] => None
  | (k', v) :: d' => if String.eqb k k' then Some v else dict_get k d'
  end.

Definition dict_has (k : string) (d : dict) : bool :=
  match dict_get k d with Some _ => true | None => false end.

(** [d[k] = v]: an existing key keeps its place, a new key goes last. *)
Fixpoint dict_set (k : string) (v : value) (d : dict) : dict :=
  match d with
  | [] => [(k, v)]
  | (k', v') :: d' =>
      if String.eqb k k' then (k, v) :: d' else (k', v') :: dict_set k v d'
  end.

(** *** str *)

Definition newline : ascii := "010"%char.

Definition lower_char (c : ascii) : ascii :=
  let n := nat_of_ascii c in
  if (((65 <=? n) && (n <=? 90)) || ((192 <=? n) && (n <=? 222) && negb (n =? 215)))%nat
  then ascii_of_nat (n + 32) else c.

(** [s.lower()] *)
Fixpoint lower (s : string) : string :=
  match s with
  | EmptyString => EmptyString
  | String c s' => String (lower_char c) (lower s')
  end.

(** [sub in s] for two strings. *)
Fixpoint contains (sub s : string) : bool :=
  if String.prefix sub s then true
  else match s with
       | EmptyString => false
       | String _ s' => contains sub s'
       end.

(** [s.endswith(p)] *)
Definition endswith (s p : string) : bool :=
  (String.length p <=? String.length s)%nat &&
  String.eqb (substring (String.length s - String.length p) (String.length p) s) p.

(** [s[:-n]] for a positive [n]. *)
Definition slice_to_minus (n : nat) (s : string) : string :=
  substring 0 (String.length s - n) s.

(** *** the operators [in], [[]], [[]=] and iteration, for a [str] key *)

Definition is_str (k : string) (v : value) : bool :=
  match v with VStr s => String.eqb s k | _ => false end.

Fixpoint chars (s : string) : list value :=
  match s with
  | EmptyString => []
  | String c s' => VStr (String c EmptyString) :: chars s'
  end.

(** [k in c] *)
Definition py_in (k : string) (c : value) : result bool :=
  match c with
  | VDict d => Ok (dict_has k d)
  | VList l => Ok (existsb (is_str k) l)
  | VStr s => Ok (contains k s)
  | _ => Raise TypeError
  end.

(** [c[k]] *)
Definition getitem (c : value) (k : string) : result value :=
  match c with
  | VDict d => match dict_get k d with Some v => Ok v | None => Raise (KeyError (VStr k)) end
  | _ => Raise TypeError
  end.

(** [c[k] = v]; the embedding returns the updated object. *)
Definition setitem (c : value) (k : string) (v : value) : result value :=
  match c with
  | VDict d => Ok (VDict (dict_set k v d))
  | _ => Raise TypeError
  end.

(** [for x in c]: the elements the loop visits. *)
Definition py_iter (c : value) : result (list value) :=
  match c with
  | VList l => Ok l
  | VDict d => Ok (map (fun kv => VStr (fst kv)) d)
  | VStr s => Ok (chars s)
  | _ => Raise TypeError
  end.

(** The subject of [re.search] and of an f-string with quotes: the records
    hold a [str] there.  [re.search] refuses every other object with
    [TypeError]. *)
Definition as_str (v : value) : result string :=
  match v with
  | VStr s => Ok s
  | _ => Raise TypeError
  end.

(** [v.lower()] *)
Definition lower_method (v : value) : result string :=
  match v with
  | VStr s => Ok (lower s)
  | _ => Raise AttributeError
  end.

(** *** numbers and comparison

    Python compares [bool], [int] and [float] by their exact values; a
    finite float is the rational [m * 2^e].  Every comparison with NaN is
    false. *)

Inductive number : Type :=
| Nan
| Inf (negative : bool)
| Fin (q : Q).

Definition float_number (f : spec_float) : number :=
  match f with
  | S754_zero _ => Fin 0
  | S754_infinity s => Inf s
  | S754_nan => Nan
  | S754_finite s m e =>
      Fin (Qmult (inject_Z (if s then Z.neg m else Z.pos m)) (Qpower 2 e))
  end.

Definition as_number (v : value) : option number :=
  match v with
  | VBool b => Some (Fin (if b then 1 else 0))
  | VInt n => Some (Fin (inject_Z n))
  | VFloat f => Some (float_number f)
  | _ => None
  end.

Definition number_compare (a b : number) : option comparison :=
  match a, b with
  | Nan, _ | _, Nan => None
  | Inf s, Inf t =>
      Some (match s, t with
            | true, false => Lt
            | false, true => Gt
            | _, _ => Eq
            end)
  | Inf s, Fin _ => Some (if s then Lt else Gt)
  | Fin _, Inf t => Some (if t then Gt else Lt)
  | Fin p, Fin q => Some (Qcompare p q)
  end.

Definition number_ltb (a b : number) : bool :=
  match number_compare a b with Some Lt => true | _ => false end.

Definition number_leb (a b : number) : bool :=
  match number_compare a b with Some Lt | Some Eq => true | _ => false end.

Definition number_eqb (a b : number) : bool :=
  match number_compare a b with Some Eq => true | _ => false end.

(** [a is b or a == b], as Python compares the items of two lists, the
    values of two dicts and a key with the keys of a dict.  The objects of
    the program come from [json.load], for which two NaN are one object. *)
Fixpoint py_same (a b : value) {struct a} : bool :=
  match a, b with
  | VNone, VNone => true
  | VStr s, VStr t => String.eqb s t
  | VList la, VList lb =>
      (fix same_items (la lb : list value) {struct la} : bool :=
         match la, lb with
         | [], [] => true
         | x :: la', y :: lb' => py_same x y && same_items la' lb'
         | _, _ => false
         end) la lb
  | VDict da, VDict db =>
      Nat.eqb (List.length da) (List.length db) &&
      (fix same_values (da : list (string * value)) {struct da} : bool :=
         match da with
         | [] => true
         | (k, v) :: da' =>
             match dict_get k db with
             | Some w => py_same v w
             | None => false
             end && same_values da'
         end) da
  | _, _ =>
      match as_number a, as_number b with
      | Some Nan, Some Nan => true
      | Some m, Some n => number_eqb m n
      | _, _ => false
      end
  end.

(** [a < b]: strings by code points, numbers by value, lists by their
    first items that differ, or else by length; every other pair is
    refused. *)
Fixpoint py_lt (a b : value) {struct a} : result bool :=
  match a, b with
  | VStr s, VStr t => Ok (String.ltb s t)
  | VList la, VList lb =>
      (fix lt_items (la lb : list value) {struct la} : result bool :=
         match la, lb with
         | x :: la', y :: lb' => if py_same x y then lt_items la' lb' else py_lt x y
         | [], _ :: _ => Ok true
         | _, [] => Ok false
         end) la lb
  | _, _ =>
      match as_number a, as_number b with
      | Some m, Some n => Ok (number_ltb m n)
      | _, _ => Raise TypeError
      end
  end.

(** [a >= b] *)
Fixpoint py_ge (a b : value) {struct a} : result bool :=
  match a, b with
  | VStr s, VStr t => Ok (String.leb t s)
  | VList la, VList lb =>
      (fix ge_items (la lb : list value) {struct la} : result bool :=
         match la, lb with
         | x :: la', y :: lb' => if py_same x y then ge_items la' lb' else py_ge x y
         | [], _ :: _ => Ok false
         | _, [] => Ok true
         end) la lb
  | _, _ =>
      match as_number a, as_number b with
      | Some m, Some n => Ok (number_leb n m)
      | _, _ => Raise TypeError
      end
  end.

(** [a == b]: as [py_same], but a NaN is equal to nothing. *)
Definition py_eq (a b : value) : bool :=
  match as_number a, as_number b with
  | Some m, Some n => number_eqb m n
  | _, _ => py_same a b
  end.

(** *** dict with keys that are not all [str]: the caches

    [json.load] gives a cache [str] keys; the enrichers add the keys they
    find in the records, of whatever type.  A key must be hashable ([None],
    a number or a [str]); it finds the entry of a key that is identical or
    equal to it, so [1], [1.0] and [True] are one key. *)

Definition cache : Type := list (value * value).

Definition hashable (k : value) : bool :=
  match k with
  | VList _ | VDict _ => false
  | _ => true
  end.

Fixpoint cache_get (k : value) (c : cache) : option value :=
  match c with
  | [] => None
  | (k', v) :: c' => if py_same k k' then Some v else cache_get k c'
  end.

Definition cache_has (k : value) (c : cache) : bool :=
  match cache_get k c with Some _ => true | None => false end.

(** [c[k] = v]: an existing key keeps its place (and the key object), a
    new key goes last. *)
Fixpoint cache_set (k : value) (v : value) (c : cache) : cache :=
  match c with
  | [] => [(k, v)]
  | (k', v') :: c' =>
      if py_same k k' then (k', v) :: c' else (k', v') :: cache_set k v c'
  end.

(** [k in c] *)
Definition cache_in (k : value) (c : cache) : result bool :=
  if hashable k then Ok (cache_has k c) else Raise TypeError.

(** [c[k]] *)
Definition cache_getitem (c : cache) (k : value) : result value :=
  if hashable k then
    match cache_get k c with Some v => Ok v | None => Raise (KeyError k) end
  else Raise TypeError.

(** [c[k] = v]; the embedding returns the updated cache. *)
Definition cache_setitem (c : cache) (k : value) (v : value) : result cache :=
  if hashable k then Ok (cache_set k v c) else Raise TypeError.

(** The object that [json.load] builds from the text of a cache file. *)
Definition loaded (d : dict) : cache :=
  map (fun kv => (VStr (fst kv), snd kv)) d.

End Py.

Export Py.

Declare Scope result_scope.
Delimit Scope result_scope with result.
Notation "x <- m ;; k" := (Py.bind m (fun x => k))
  (at level 61, m at next level, right associativity) : result_scope.
Open Scope result_scope.

(** ** The regular expressions of the program

    The patterns of [generate.py] use literal characters, [.], the anchors
    [^] and [$], the greedy group [([^/]+)] and the lazy group [(.*?)].
    [match_here] is a backtracking matcher for exactly these, with the
    priorities of Python's [re]: a greedy group tries its longest extent
    first, a lazy one its shortest. *)

Module Re.

Inductive item : Type :=
| Bol              (* ^ *)
| Eol              (* $ *)
| Chr (c : ascii)  (* a literal character *)
| Any              (* . : any character but a newline *)
| NotSlashPlus     (* ([^/]+) *)
| LazyAny.         (* (.*?) *)

Definition regex : Type := list item.

(** The pattern text an item stands for; [pattern] prints a whole regex. *)
Definition item_text (i : item) : string :=
  match i with
  | Bol => "^"
  | Eol => "$"
  | Chr c => String c EmptyString
  | Any => "."
  | NotSlashPlus => "([^/]+)"
  | LazyAny => "(.*?)"
  end.

Definition pattern (r : regex) : string :=
  fold_right (fun i acc => item_text i ++ acc) "" r.

Fixpoint lit (s : string) : regex :=
  match s with
  | EmptyString => []
  | String c s' => Chr c :: lit s'
  end.

(** A successful match: the captured groups and the text after the match. *)
Definition found : Type := (list string * string)%type.

Definition add_group (g : string) (r : option found) : option found :=
  match r with
  | Some (gs, rest) => Some (g :: gs, rest)
  | None => None
  end.

(** [$] without MULTILINE: the end of the text, or just before a newline
    that ends it. *)
Definition at_end (s : string) : bool :=
  String.eqb s "" || String.eqb s (String newline "").

(** [([^/]+)] followed by the continuation [k]: take characters while they
    are not a slash, then give back one at a time until [k] succeeds. *)
Fixpoint greedy_not_slash (k : string -> option found) (acc s : string)
  : option found :=
  let stop := if String.eqb acc "" then None else add_group acc (k s) in
  match s with
  | String d s' =>
      if Ascii.eqb d "/" then stop
      else match greedy_not_slash k (acc ++ String d "") s' with
           | Some r => Some r
           | None => stop
           end
  | EmptyString => stop
  end.

(** [(.*?)] followed by [k]: try [k] first, else take one more character
    that is not a newline. [start] tells whether the group begins at the
    start of the text. *)
Fixpoint lazy_any (k : bool -> string -> option found) (start : bool)
  (acc s : string) : option found :=
  match add_group acc (k start s) with
  | Some r => Some r
  | None =>
      match s with
      | String d s' =>
          if Ascii.eqb d newline then None
          else lazy_any k false (acc ++ String d "") s'
      | EmptyString => None
      end
  end.

Fixpoint match_here (p : regex) (start : bool) (s : string) {struct p}
  : option found :=
  match p with
  | [] => Some ([], s)
  | Bol :: p' => if start then match_here p' start s else None
  | Eol :: p' => if at_end s then match_here p' start s else None
  | Chr c :: p' =>
      match s with
      | String d s' => if Ascii.eqb c d then match_here p' false s' else None
      | EmptyString => None
      end
  | Any :: p' =>
      match s with
      | String d s' => if Ascii.eqb d newline then None else match_here p' false s'
      | EmptyString => None
      end
  | NotSlashPlus :: p' => greedy_not_slash (fun t => match_here p' false t) "" s
  | LazyAny :: p' => lazy_any (fun st t => match_here p' st t) start "" s
  end.

Fixpoint search_from (p : regex) (start : bool) (s : string) : option (list string) :=
  match match_here p start s with
  | Some (gs, _) => Some gs
  | None =>
      match s with
      | String _ s' => search_from p false s'
      | EmptyString => None
      end
  end.

(** [re.search(p, s)]: the groups of the leftmost match, if any. *)
Definition search (p : regex) (s : string) : option (list string) :=
  search_from p true s.

(** [match.group(n)] for [n >= 1]. *)
Definition group (n : nat) (gs : list string) : string := nth (n - 1) gs "".

(** [re.sub(p, repl, s)] and [re.sub(p, repl, s, count)] with [count >= 1],
    for a replacement text without group references and a pattern that
    cannot match the empty string (the patterns of the program start with a
    literal character).
    [skip] counts the characters of a match that are still to be dropped;
    [left] is the number of replacements still allowed ([None]: no bound). *)
Fixpoint sub_from (p : regex) (repl : string) (left : option nat)
  (start : bool) (skip : nat) (s : string) : string :=
  match s with
  | EmptyString => EmptyString
  | String c s' =>
      match skip with
      | S n => sub_from p repl left false n s'
      | O =>
          let allowed := match left with Some O => false | _ => true end in
          match (if allowed then match_here p start s else None) with
          | Some (_, rest) =>
              let used := String.length s - String.length rest in
              let left' := option_map pred left in
              match used with
              | O => String c (sub_from p repl left false 0 s')
              | S n => repl ++ sub_from p repl left' false n s'
              end
          | None => String c (sub_from p repl left false 0 s')
          end
      end
  end.

Definition sub (p : regex) (repl s : string) : string :=
  sub_from p repl None true 0 s.

Definition sub_count (p : regex) (repl s : string) (count : nat) : string :=
  sub_from p repl (Some count) true 0 s.

End Re.

(** ** Effects: the event log

    [W A] is a computation that may raise and that logs what it does to
    the outside world, in order.  The log is kept when the computation
    raises. *)

Inductive event : Type :=
| LogInfo (msg : string)      (* logging.info(msg) *)
| LogError (msg : string)     (* logging.error(msg) *)
| ForemFetch (url : value)    (* forem.fetch(url) *)
| GetUserInfo (id : value)    (* github.get_user_info(id) *)
| Sleep.                      (* time.sleep(0.2) *)

Definition W (A : Type) : Type := (list event * result A)%type.

Definition ret {A : Type} (a : A) : W A := ([], Ok a).

Definition raise {A : Type} (e : exn) : W A := ([], Raise e).

Definition lift {A : Type} (r : result A) : W A := ([], r).

Definition emit (ev : event) : W unit := ([ev], Ok tt).

Definition bindW {A B : Type} (m : W A) (f : A -> W B) : W B :=
  match m with
  | (t, Ok a) => let (t', r) := f a in (t ++ t', r)%list
  | (t, Raise e) => (t, Raise e)
  end.

Declare Scope w_scope.
Delimit Scope w_scope with W.
Notation "x <~ m ;; k" := (bindW m (fun x => k))
  (at level 61, m at next level, right associativity) : w_scope.
Notation "' p <~ m ;; k" := (bindW m (fun x => let 'p := x in k))
  (at level 61, p pattern, m at next level, right associativity) : w_scope.
Notation "m ;;; k" := (bindW m (fun _ => k))
  (at level 61, right associativity) : w_scope.
Open Scope w_scope.

(** [for x in l: body]: the loop carries the state [s] (here, the cache)
    from one element to the next and changes the elements in place; it
    returns the last state and the elements as the loop leaves them. *)
Fixpoint for_each {S A B : Type} (body : S -> A -> W (S * B)) (s : S) (l : list A)
  : W (S * list B) :=
  match l with
  | [] => ret (s, [])
  | x :: rest =>
      '(s1, x') <~ body s x ;;
      '(s2, rest') <~ for_each body s1 rest ;;
      ret (s2, x' :: rest')
  end.

(** The collaborators of [generate.py]: the modules [forem] and [github]
    of the repository, the Markdown library and Python's formatting of
    values.  Their code is not part of [generate.py]; the embedding takes
    them as parameters.  During one run the answer of [forem.fetch] and of
    [github.get_user_info] is taken to depend on the key alone. *)
Record externals : Type := {
  (* forem.fetch(url): the article details, or an exception *)
  forem_fetch : value -> result value;
  (* github.get_user_info(id): the profile, a falsy value when the user
     is not found, or an exception *)
  github_get_user_info : value -> result value;
  (* markdown.markdown(text, extensions=...) *)
  markdown_markdown : string -> list string -> string;
  (* how an f-string prints a value that is not a str *)
  format_value : value -> string;
  (* str(cache_dir) *)
  cache_dir : string
}.

(** The cache files on disk: the content of [cache_dir/<name>.json], if the
    file exists. *)
Definition files : Type := string -> option dict.

(** What [load_cache] finds: the content of the file, or an empty mapping
    when there is no file yet. *)
Definition cached (fs : files) (name : string) : dict :=
  match fs name with
  | Some cache => cache
  | None => []
  end.

(** The double quote character. *)
Definition dq : string := String "034"%char "".

(** ** The functions of generate.py *)

Section Generate.

Variable X : externals.

(** [f"{v}"] *)
Definition fmt (v : value) : string :=
  match v with
  | VStr s => s
  | _ => format_value X v
  end.

(** [json.load] of the cache file, or an empty dict when there is no file
    yet. *)
Definition load_cache (fs : files) (name : string) : W cache :=
  emit (LogInfo ("load_cache(" ++ cache_dir X ++ "/" ++ name ++ ".json)")) ;;;
  ret (loaded (cached fs name)).

(** The text that [json.dump] writes for a key: a [str] as it is, the other
    keys as JSON prints them. *)
Definition json_key (k : value) : string :=
  match k with
  | VStr s => s
  | VBool true => "true"
  | VBool false => "false"
  | VNone => "null"
  | VInt n => NilZero.string_of_int (Z.to_int n)
  | VFloat S754_nan => "NaN"
  | VFloat (S754_infinity false) => "Infinity"
  | VFloat (S754_infinity true) => "-Infinity"
  | _ => format_value X k            (* float.__repr__ *)
  end.

(** What [json.load] makes of the text that [json.dump] writes for
    [cache]: every key is a [str]; of two entries whose keys have the same
    text, the first gives the place and the last the value. *)
Definition dumped (c : cache) : dict :=
  fold_left (fun d kv => dict_set (json_key (fst kv)) (snd kv) d) c [].

(** The file of [name] holds [cache] afterwards; the write is taken to
    succeed. *)
Definition save_cache (fs : files) (name : string) (c : cache) : files :=
  fun n => if String.eqb n name then Some (dumped c) else fs n.

(** *** update_devto_posts *)

(** The body of the inner loop, for one [page]. *)
Definition devto_page (c : cache) (page : value) : W (cache * value) :=
  url <~ lift (getitem page "url") ;;
  has <~ lift (cache_in url c) ;;
  c' <~ (if negb has then
           details <~ (emit (ForemFetch url) ;;; lift (forem_fetch X url)) ;;
           c1 <~ lift (cache_setitem c url details) ;;
           emit Sleep ;;;
           ret c1
         else ret c) ;;
  details <~ lift (cache_getitem c' url) ;;
  page' <~ lift (setitem page "details" details) ;;
  ret (c', page').

Definition devto_pages : cache -> list value -> W (cache * list value) :=
  for_each devto_page.

(** The pages are changed in place: the record's list holds them after the
    loop. *)
Definition with_items (person : value) (key : string) (old : value)
  (items : list value) : value :=
  match old, person with
  | VList _, VDict d => VDict (dict_set key (VList items) d)
  | _, _ => person
  end.

(** The body of the outer loop, for one [person]. *)
Definition devto_person (c : cache) (person : value) : W (cache * value) :=
  has <~ lift (py_in "posts" person) ;;
  if negb has then ret (c, person)
  else
    posts <~ lift (getitem person "posts") ;;
    pages <~ lift (py_iter posts) ;;
    '(c', pages') <~ devto_pages c pages ;;
    ret (c', with_items person "posts" posts pages').

Definition devto_people : cache -> list value -> W (cache * list value) :=
  for_each devto_person.

(** Returns the cache files and the records as the call leaves them. *)
Definition update_devto_posts (fs : files) (people : list value)
  : W (files * list value) :=
  c <~ load_cache fs "forem" ;;
  '(c', people') <~ devto_people c people ;;
  ret (save_cache fs "forem" c', people').

(** *** check_project and check_projects *)

(* '^https://github.com/([^/]+)/([^/]+)$' *)
Definition re_github_repo : Re.regex :=
  ([Re.Bol] ++ Re.lit "https://github" ++ [Re.Any] ++ Re.lit "com/"
   ++ [Re.NotSlashPlus; Re.Chr "/"; Re.NotSlashPlus; Re.Eol])%list.

(* '^https://foss.heptapod.net/([^/]+)/([^/]+)$' *)
Definition re_heptapod_repo : Re.regex :=
  ([Re.Bol] ++ Re.lit "https://foss" ++ [Re.Any] ++ Re.lit "heptapod"
   ++ [Re.Any] ++ Re.lit "net/"
   ++ [Re.NotSlashPlus; Re.Chr "/"; Re.NotSlashPlus; Re.Eol])%list.

(* '^https://github.com/([^/]+)$' *)
Definition re_github_organization : Re.regex :=
  ([Re.Bol] ++ Re.lit "https://github" ++ [Re.Any] ++ Re.lit "com/"
   ++ [Re.NotSlashPlus; Re.Eol])%list.

(** What follows the first and the last group in these patterns. *)
Definition k_slash (t : string) : option Re.found :=
  Re.match_here [Re.Chr "/"; Re.NotSlashPlus; Re.Eol] false t.

Definition k_eol (t : string) : option Re.found :=
  Re.match_here [Re.Eol] false t.

Definition check_project (url : string) : value * value :=
  match Re.search re_github_repo url with
  | Some m => (VStr "github_repo", VStr (Re.group 2 m))
  | None =>
  match Re.search re_heptapod_repo url with
  | Some m => (VStr "heptapod_repo", VStr (Re.group 2 m))
  | None =>
  match Re.search re_github_organization url with
  | Some m => (VStr "github_organization", VStr (Re.group 1 m))
  | None => (VNone, VNone)
  end end end.

(* f"Invalid project '{url}' by {person['name']} github='{person['github']}'" *)
Definition invalid_message (url : string) (name github : value) : string :=
  "Invalid project '" ++ url ++ "' by " ++ fmt name
  ++ " github='" ++ fmt github ++ "'".

Definition invalid_project (url : string) (person : value) : result string :=
  name <- getitem person "name" ;;
  github <- getitem person "github" ;;
  Ok (invalid_message url name github).

(** The body of the inner loop: the project entry of one [url]. *)
Definition check_url (person : value) (url_v : value) : W value :=
  url <~ lift (as_str url_v) ;;
  let '(url_type, name) := check_project url in
  if negb (truthy url_type) then
    msg <~ lift (invalid_project url person) ;;
    emit (LogError msg) ;;;
    msg' <~ lift (invalid_project url person) ;;
    raise (SystemExit msg')
  else ret (VDict [("url", VStr url); ("name", name)]).

Fixpoint check_urls (person : value) (urls : list value) : W (list value) :=
  match urls with
  | [] => ret []
  | url :: rest =>
      entry <~ check_url person url ;;
      entries <~ check_urls person rest ;;
      ret (entry :: entries)
  end.

(** The body of the outer loop: the record as the loop leaves it, and its
    project entries. *)
Definition check_person (person : value) : W (value * list value) :=
  has <~ lift (py_in "projects" person) ;;
  if negb has then ret (person, [])
  else
    declared <~ lift (getitem person "projects") ;;
    urls <~ lift (py_iter declared) ;;
    projects <~ check_urls person urls ;;
    person' <~ lift (setitem person "projects" (VList projects)) ;;
    ret (person', projects).

(** Returns the records as the call leaves them, and [all_projects]. *)
Fixpoint check_projects (people : list value) : W (list value * list value) :=
  match people with
  | [] => ret ([], [])
  | person :: rest =>
      '(person', projects) <~ check_person person ;;
      '(rest', all_projects) <~ check_projects rest ;;
      ret (person' :: rest', (projects ++ all_projects)%list)
  end.

(** *** update_github_data *)

Definition github_person (c : cache) (person : value) : W (cache * value) :=
  github_id <~ lift (getitem person "github") ;;
  let attach (c' : cache) : W (cache * value) :=
    gh <~ lift (cache_getitem c' github_id) ;;
    person' <~ lift (setitem person "gh" gh) ;;
    ret (c', person') in
  has <~ lift (cache_in github_id c) ;;
  if negb has then
    github_data <~ (emit (GetUserInfo github_id) ;;;
                    lift (github_get_user_info X github_id)) ;;
    if negb (truthy github_data) then ret (c, person)   (* continue *)
    else
      c1 <~ lift (cache_setitem c github_id github_data) ;;
      emit Sleep ;;;
      attach c1
  else attach c.

Definition github_people : cache -> list value -> W (cache * list value) :=
  for_each github_person.

Definition update_github_data (fs : files) (people : list value)
  : W (files * list value) :=
  c <~ load_cache fs "github_people" ;;
  '(c', people') <~ github_people c people ;;
  ret (save_cache fs "github_people" c', people').

End Generate.

(** *** read_json_files

    [folder] is the directory as [os.listdir] lists it: each file name with
    what [json.load] returns for that file ([Raise] when the file cannot be
    opened or parsed). *)
Fixpoint read_json_files (folder : list (string * result value))
  : result (list value) :=
  match folder with
  | [] => Ok []
  | (filename, content) :: rest =>
      if String.eqb filename ".gitkeep" then read_json_files rest
      else if negb (endswith filename ".json") then
        Raise (JsonError "file does not end with .json")
      else if negb (String.eqb filename (lower filename)) then
        Raise (Exception ("filename " ++ filename ++ " should be all lower-case"))
      else
        person <- content ;;
        has <- py_in "github" person ;;
        if negb has then
          Raise (Exception ("github field is missing from " ++ filename))
        else
          github <- getitem person "github" ;;
          lowered <- lower_method github ;;
          if negb (String.eqb lowered (slice_to_minus 5 filename)) then
            (* [github] is a str here: [.lower()] has just succeeded *)
            s <- as_str github ;;
            Raise (Exception ("value of github fields '" ++ s
                              ++ "' is not the same as the filename '"
                              ++ filename ++ "'"))
          else
            people <- read_json_files rest ;;
            Ok (person :: people)
  end.

(** *** collect_posts *)

(** The body of the inner loop: what is appended to [posts] for one [post].
    In Python [author] refers to the record itself, and the details object
    is the cached one, which the posts of one URL share.  The embedding
    stores the record as it is when the loop starts and gives each post its
    own details; it differs from the code in nothing but the [author] of
    posts that share a URL and the posts seen through an [author]. *)
Definition collect_post (person post : value) : result value :=
  details <- getitem post "details" ;;
  if truthy details then
    setitem details "author" person
  else
    url <- getitem post "url" ;;
    title <- getitem post "title" ;;
    published_at <- getitem post "published_at" ;;
    Ok (VDict [("url", url); ("title", title); ("description", VStr "");
               ("author", person); ("published_at", published_at)]).

Fixpoint collect_person_posts (person : value) (posts : list value)
  : result (list value) :=
  match posts with
  | [] => Ok []
  | post :: rest =>
      entry <- collect_post person post ;;
      entries <- collect_person_posts person rest ;;
      Ok (entry :: entries)
  end.

Definition collect_person (person : value) : result (list value) :=
  has <- py_in "posts" person ;;
  if has then
    posts <- getitem person "posts" ;;
    items <- py_iter posts ;;
    collect_person_posts person items
  else Ok [].

(** The list [posts] when the loops are over, before it is sorted. *)
Fixpoint collected (people : list value) : result (list value) :=
  match people with
  | [] => Ok []
  | person :: rest =>
      entries <- collect_person person ;;
      more <- collected rest ;;
      Ok (entries ++ more)%list
  end.

(** [list.sort(key=..., reverse=...)].  CPython computes the key of every
    element first, and sorts the (key, element) pairs with a stable sort
    that only uses [<]; for [reverse=True] it reverses the list, sorts it
    the same way and reverses the result.  When [<] orders the keys (no
    comparison raises, no key is NaN), a stable sort has one possible
    result, and the embedding returns it, as an insertion sort.  On other
    keys the result of CPython depends on the comparisons that its merge
    sort happens to make; for a list of two elements, the one comparison
    is that of the embedding. *)
Fixpoint keyed (key : value -> result value) (l : list value)
  : result (list (value * value)) :=
  match l with
  | [] => Ok []
  | x :: l' =>
      k <- key x ;;
      kl <- keyed key l' ;;
      Ok ((k, x) :: kl)
  end.

(** Puts [x], which stood before the elements of the sorted [l], before the
    first element of [l] that is not below it. *)
Fixpoint insert (x : value * value) (l : list (value * value))
  : result (list (value * value)) :=
  match l with
  | [] => Ok [x]
  | y :: l' =>
      below <- py_lt (fst y) (fst x) ;;
      if (below : bool) then
        r <- insert x l' ;;
        Ok (y :: r)
      else Ok (x :: l)
  end.

Fixpoint stable_sort (l : list (value * value)) : result (list (value * value)) :=
  match l with
  | [] => Ok []
  | x :: l' =>
      sorted <- stable_sort l' ;;
      insert x sorted
  end.

Definition list_sort (key : value -> result value) (reverse : bool)
  (l : list value) : result (list value) :=
  kl <- keyed key l ;;
  sorted <- (if reverse then
               r <- stable_sort (rev kl) ;;
               Ok (rev r)
             else stable_sort kl) ;;
  Ok (map snd sorted).

Definition published_at (post : value) : result value :=
  getitem post "published_at".

Definition collect_posts (people : list value) : result (list value) :=
  posts <- collected people ;;
  list_sort published_at true posts.

(** *** generate_html: the README content *)

(* r'<h1>(.*?)</h1>' *)
Definition re_h1 : Re.regex :=
  (Re.lit "<h1>" ++ [Re.LazyAny] ++ Re.lit "</h1>")%list.

(* r'<h2>' *)
Definition re_h2 : Re.regex := Re.lit "<h2>".

Definition h2_title : string := "<h2 class=" ++ dq ++ "title" ++ dq ++ ">".

(** The value of [content] that [generate_html] hands to the index
    template, for the [text] it has read from README.md. *)
Definition generate_html_content (X : externals) (text : string) : string :=
  let content := markdown_markdown X text ["tables"] in
  let content := Re.sub re_h1 "" content in
  let content := Re.sub re_h2 h2_title content in
  content.

(** ** What the specification says, for comparison *)

Module Spec.

(** The characters of [s] before its first slash, and the rest of [s] from
    that slash on. *)
Fixpoint segment (s : string) : string :=
  match s with
  | EmptyString => EmptyString
  | String c s' => if Ascii.eqb c "/" then EmptyString else String c (segment s')
  end.

Fixpoint after_segment (s : string) : string :=
  match s with
  | EmptyString => EmptyString
  | String c s' => if Ascii.eqb c "/" then s else after_segment s'
  end.

Fixpoint strip_prefix (p s : string) : option string :=
  match p with
  | EmptyString => Some s
  | String c p' =>
      match s with
      | String d s' => if Ascii.eqb c d then strip_prefix p' s' else None
      | EmptyString => None
      end
  end.

(** [<host>/<owner>/<repo>]: the repo, where owner and repo are non-empty
    and hold no slash. *)
Definition owner_repo (host url : string) : option string :=
  match strip_prefix ("https://" ++ host ++ "/") url with
  | Some path =>
      match after_segment path with
      | String _ repo =>
          if negb (String.eqb (segment path) "") && negb (String.eqb repo "")
             && String.eqb (segment repo) repo
          then Some repo else None
      | EmptyString => None
      end
  | None => None
  end.

(** [<host>/<owner>]: the owner, non-empty and without a slash. *)
Definition owner_only (host url : string) : option string :=
  match strip_prefix ("https://" ++ host ++ "/") url with
  | Some path =>
      if negb (String.eqb path "") && String.eqb (segment path) path
      then Some path else None
  | None => None
  end.

(** Section 6 of the specification: the three shapes, in order. *)
Definition classify (url : string) : value * value :=
  match owner_repo "github.com" url with
  | Some repo => (VStr "github_repo", VStr repo)
  | None =>
  match owner_repo "foss.heptapod.net" url with
  | Some repo => (VStr "heptapod_repo", VStr repo)
  | None =>
  match owner_only "github.com" url with
  | Some owner => (VStr "github_organization", VStr owner)
  | None => (VNone, VNone)
  end end end.

(** "remove the first top-level heading entirely": one replacement. *)
Definition remove_first_h1 (content : string) : string :=
  Re.sub_count re_h1 "" content 1.

(** "add a fixed CSS class to every second-level heading" *)
Definition tag_h2 (content : string) : string :=
  Re.sub re_h2 h2_title content.

Definition readme_transform (X : externals) (text : string) : string :=
  tag_h2 (remove_first_h1 (markdown_markdown X text ["tables"])).

End Spec.


(** ** Notions used in the statements *)

(** [p1['published_at'] >= p2['published_at']] holds. *)
Definition ge_published (p1 p2 : value) : Prop :=
  exists k1 k2,
    published_at p1 = Ok k1 /\ published_at p2 = Ok k2 /\ py_ge k1 k2 = Ok true.

(** [a == b] for two sort keys. *)
Definition key_eqb (a b : value) : bool := py_eq a b.

(** A sort key that [<] orders: a [str], or a number other than NaN. *)
Definition ordered_key (k : value) : Prop :=
  (exists s, k = VStr s) \/ (exists n, as_number k = Some n /\ n <> Nan).

(** The key of the pair of a sort is one that [<] orders. *)
Definition ordered_pair (kp : value * value) : Prop := ordered_key (fst kp).

(** Every post of the list has a publish timestamp that [<] orders. *)
Definition ordered_posts (posts : list value) : Prop :=
  Forall (fun p => exists k, published_at p = Ok k /\ ordered_key k) posts.

(** The claim on the order, as the specification words it: every post is
    followed by one whose timestamp is not above its own. *)
Definition sorted_descending (people : list value) : Prop :=
  forall posts before after p1 p2,
    collect_posts people = Ok posts ->
    posts = (before ++ p1 :: p2 :: after)%list ->
    ge_published p1 p2.

(** The post [p] carries the publish timestamp [k]. *)
Definition published_eq (k : value) (p : value) : bool :=
  match published_at p with
  | Ok k' => key_eqb k k'
  | Raise _ => false
  end.

(** The order in which a sort keeps the pairs, ascending: the next element
    is not below the one before it. *)
Definition not_below (a b : value * value) : Prop :=
  py_lt (fst b) (fst a) = Ok false.

(** The pair of a sort holds the key of its element. *)
Definition keyed_by (key : value -> result value) (kp : value * value) : Prop :=
  key (snd kp) = Ok (fst kp).

(** The claim on ties, as the specification words it: the posts of one
    timestamp come out in the reverse of their input order. *)
Definition ties_reversed (people : list value) : Prop :=
  forall entries posts,
    collected people = Ok entries ->
    collect_posts people = Ok posts ->
    forall k, filter (published_eq k) posts = rev (filter (published_eq k) entries).

(** The cache [c] holds every entry of [c0]. *)
Definition extends (c0 c : cache) : Prop :=
  forall k v, cache_get k c0 = Some v -> cache_get k c = Some v.

(** The file content [d] holds every entry of [d0]. *)
Definition file_extends (d0 d : dict) : Prop :=
  forall k v, dict_get k d0 = Some v -> dict_get k d = Some v.

(** A log of an enrichment loop that started from the cache [c0]: every
    external call is for a key that [c0] lacks, and a pause only comes
    directly after such a call. *)
Inductive fetch_log (call : value -> event) (c0 : cache) : list event -> Prop :=
| fetch_none : fetch_log call c0 []
| fetch_call (k : value) (tr : list event) :
    cache_has k c0 = false -> fetch_log call c0 tr ->
    fetch_log call c0 (call k :: tr)
| fetch_pause (k : value) (tr : list event) :
    cache_has k c0 = false -> fetch_log call c0 tr ->
    fetch_log call c0 (call k :: Sleep :: tr).

(** The object [obj] has the key [field]. *)
Definition carries (field : string) (obj : value) : Prop :=
  py_in field obj = Ok true.

(** What [obj] holds under [field] is the entry of [c0] for the object's
    [key], when [c0] has one. *)
Definition from_cache (c0 : cache) (key field : string) (obj : value) : Prop :=
  forall k v,
    getitem obj key = Ok k -> cache_get k c0 = Some v ->
    getitem obj field = Ok v.

(** What the inner loop of [update_devto_posts] leaves of a page. *)
Definition page_enriched (c0 : cache) (page : value) : Prop :=
  carries "details" page /\ from_cache c0 "url" "details" page.

(** Every post of the record [person] satisfies [P], when the record has
    posts. *)
Definition posts_all (P : value -> Prop) (person : value) : Prop :=
  forall posts pages,
    getitem person "posts" = Ok posts -> py_iter posts = Ok pages -> Forall P pages.

(** The record [person] is what the loader has read from the directory
    entry [entry]: the file is [<id>.json] and the lowercased identifier of
    the record is [id]. *)
Definition loaded_from (entry : string * result value) (person : value) : Prop :=
  snd entry = Ok person /\
  exists id github,
    fst entry = id ++ ".json" /\
    getitem person "github" = Ok (VStr github) /\
    lower github = id.

(** The record [person] of the file [filename] has no identifier, or one
    that is not the stem of the file name. *)
Definition mismatched (filename : string) (person : value) : Prop :=
  py_in "github" person = Ok false \/
  exists github,
    getitem person "github" = Ok (VStr github) /\
    forall id, filename = id ++ ".json" -> lower github <> id.

(** The directory entries that the loader does not skip. *)
Definition listed (folder : list (string * result value)) : list (string * result value) :=
  filter (fun entry => negb (String.eqb (fst entry) ".gitkeep")) folder.

(** The file name passes the format checks of the loader. *)
Definition well_named (filename : string) : Prop :=
  filename <> ".gitkeep" /\ endswith filename ".json" = true /\ filename = lower filename.

(** HTML as a sequence of tokens, to state what the README transform does:
    text, a tag other than the two the transform looks for, a top-level
    heading written on one line, and the opening tag of a second-level
    heading. *)
Inductive token : Type :=
| Text (s : string)
| Tag (name : string)        (* <name> *)
| Heading1 (text : string)   (* <h1>text</h1>, on one line *)
| Heading2.                  (* <h2> *)

Fixpoint has_char (c : ascii) (s : string) : bool :=
  match s with
  | EmptyString => false
  | String d s' => Ascii.eqb c d || has_char c s'
  end.

(** Text holds no [<], a tag name neither [<] nor [>]; what stands between
    the tags of a top-level heading is anything on one line, inline markup
    included, up to the first closing tag. *)
Definition token_ok (t : token) : bool :=
  match t with
  | Text s => negb (has_char "<" s)
  | Tag name =>
      negb (has_char "<" name) && negb (has_char ">" name)
      && negb (String.eqb name "h1") && negb (String.eqb name "h2")
  | Heading1 text => negb (contains "</h1>" text) && negb (has_char newline text)
  | Heading2 => true
  end.

Definition render_token (t : token) : string :=
  match t with
  | Text s => s
  | Tag name => "<" ++ name ++ ">"
  | Heading1 text => "<h1>" ++ text ++ "</h1>"
  | Heading2 => "<h2>"
  end.

Definition render (l : list token) : string :=
  fold_right (fun t acc => render_token t ++ acc) "" l.

(** What the transform makes of a token. *)
Definition transformed_token (t : token) : string :=
  match t with
  | Heading1 _ => ""
  | Heading2 => h2_title
  | _ => render_token t
  end.

Definition transformed (l : list token) : string :=
  fold_right (fun t acc => transformed_token t ++ acc) "" l.

Definition is_heading1 (t : token) : bool :=
  match t with Heading1 _ => true | _ => false end.

(** The claim on the README transform, as the specification words it: the
    content is the HTML without its first top-level heading, with the class
    on every second-level heading. *)
Definition first_heading_removed (X : externals) (text : string) : Prop :=
  generate_html_content X text = Spec.readme_transform X text.

From Stdlib Require Import Permutation RelationClasses.

(** ** What [check_project] accepts, written without regular expressions *)

Module Shape.

(** [url] without its start [host], where a dot of [host] stands for any
    character but a newline and every other character for itself. *)
Fixpoint strip_host (host url : string) : option string :=
  match host with
  | EmptyString => Some url
  | String c host' =>
      match url with
      | String d url' =>
          if (if Ascii.eqb c "." then negb (Ascii.eqb d newline) else Ascii.eqb c d)
          then strip_host host' url' else None
      | EmptyString => None
      end
  end.

(** The pattern items that the text [host] of a pattern stands for. *)
Fixpoint host_items (host : string) : Re.regex :=
  match host with
  | EmptyString => []
  | String c host' =>
      (if Ascii.eqb c "." then Re.Any else Re.Chr c) :: host_items host'
  end.

(** [<host><owner>/<repo>]: the repo; owner and repo are not empty and
    hold no slash. *)
Definition owner_repo (host url : string) : option string :=
  match strip_host host url with
  | Some path =>
      match Spec.after_segment path with
      | String _ repo =>
          if negb (String.eqb (Spec.segment path) "") && negb (String.eqb repo "")
             && String.eqb (Spec.segment repo) repo
          then Some repo else None
      | EmptyString => None
      end
  | None => None
  end.

(** [<host><owner>]: the owner, not empty and without a slash. *)
Definition owner_only (host url : string) : option string :=
  match strip_host host url with
  | Some path =>
      if negb (String.eqb path "") && String.eqb (Spec.segment path) path
      then Some path else None
  | None => None
  end.

Definition github : string := "https://github.com/".
Definition heptapod : string := "https://foss.heptapod.net/".

Definition classify (url : string) : value * value :=
  match owner_repo github url with
  | Some repo => (VStr "github_repo", VStr repo)
  | None =>
  match owner_repo heptapod url with
  | Some repo => (VStr "heptapod_repo", VStr repo)
  | None =>
  match owner_only github url with
  | Some owner => (VStr "github_organization", VStr owner)
  | None => (VNone, VNone)
  end end end.

End Shape.

(** The project type tags of [check_project]. *)
Definition project_types : list value :=
  [VStr "github_repo"; VStr "heptapod_repo"; VStr "github_organization"].

(** ** Notions used in the further statements *)

(** The entry that [check_projects] makes of a declared URL that
    [check_project] recognizes. *)
Definition project_entry (url_v : value) : option value :=
  match url_v with
  | VStr url =>
      if truthy (fst (check_project url))
      then Some (VDict [("url", VStr url); ("name", snd (check_project url))])
      else None
  | _ => None
  end.

(** The record [person'] is the record [person] after a successful
    [check_projects]: unchanged when it declares no projects, else with
    the entries of its URLs, in order, in the place of the URLs. *)
Definition checked (person person' : value) : Prop :=
  (py_in "projects" person = Ok false /\ person' = person) \/
  exists declared urls entries,
    getitem person "projects" = Ok declared /\
    py_iter declared = Ok urls /\
    Forall2 (fun u e => project_entry u = Some e) urls entries /\
    setitem person "projects" (VList entries) = Ok person'.

(** The list under [projects], for a record that has one. *)
Definition projects_of (person : value) : list value :=
  match getitem person "projects" with
  | Ok (VList l) => l
  | _ => []
  end.

(** The keys that a log asks [forem.fetch] for, in order. *)
Definition fetched_urls (tr : list event) : list value :=
  flat_map (fun ev => match ev with ForemFetch url => [url] | _ => [] end) tr.

(** The object [b] holds under every key but [k] what [a] holds. *)
Definition same_but (k : string) (a b : value) : Prop :=
  forall k', k' <> k -> getitem b k' = getitem a k'.

(** The posts of the record [person'] are those of [person], one for one,
    each related to its post by [R]. *)
Definition posts_related (R : value -> value -> Prop) (person person' : value) : Prop :=
  forall posts pages,
    getitem person "posts" = Ok posts -> py_iter posts = Ok pages ->
    exists posts' pages',
      getitem person' "posts" = Ok posts' /\ py_iter posts' = Ok pages' /\
      Forall2 R pages pages'.

(** The posts of the record [person'] are those of [person], one for one,
    changed in nothing but their [details]. *)
Definition posts_enriched (person person' : value) : Prop :=
  forall posts pages,
    getitem person "posts" = Ok posts -> py_iter posts = Ok pages ->
    exists posts' pages',
      getitem person' "posts" = Ok posts' /\ py_iter posts' = Ok pages' /\
      Forall2 (same_but "details") pages pages'.

(** The object [obj'] is [obj] with [v] under [field], when [obj] holds the
    string [key] under [keyfield]. *)
Definition attached (keyfield field key : string) (v : value) (obj obj' : value) : Prop :=
  getitem obj keyfield = Ok (VStr key) -> setitem obj field v = Ok obj'.

(** The page [page'] is [page] with [details] set, and nothing else
    changed. *)
Definition details_set (page page' : value) : Prop :=
  carries "details" page' /\ same_but "details" page page'.

(** Every entry of [c] is an entry of [c0] or satisfies [P]. *)
Definition grown_by (P : value -> value -> Prop) (c0 c : cache) : Prop :=
  forall k v, In (k, v) c -> In (k, v) c0 \/ P k v.

(** The page [page'] is [page] with the entry of [c] for its URL as
    [details]. *)
Definition page_of_cache (c : cache) (page page' : value) : Prop :=
  exists d url v,
    page = VDict d /\ dict_get "url" d = Some url /\ hashable url = true /\
    cache_get url c = Some v /\ page' = VDict (dict_set "details" v d).

(** The record [person'] is [person] with its pages enriched from [c]. *)
Definition person_of_cache (c : cache) (person person' : value) : Prop :=
  (py_in "posts" person = Ok false /\ person' = person) \/
  exists posts pages pages',
    getitem person "posts" = Ok posts /\ py_iter posts = Ok pages /\
    Forall2 (page_of_cache c) pages pages' /\
    person' = with_items person "posts" posts pages'.

(** The record [person'] is [person] with the entry of [c] for its
    identifier as [gh], or [person] itself, which it can only be when [c0]
    has no such entry. *)
Definition gh_of_cache (c0 c : cache) (person person' : value) : Prop :=
  exists d id,
    person = VDict d /\ dict_get "github" d = Some id /\
    ((exists v, cache_get id c = Some v /\ person' = VDict (dict_set "gh" v d)) \/
     (cache_get id c0 = None /\ person' = person)).

(** The object holds a [str] under [key]. *)
Definition str_field (key : string) (obj : value) : Prop :=
  exists s, getitem obj key = Ok (VStr s).

(** Every URL of the posts of the record is a [str]. *)
Definition str_urls (person : value) : Prop :=
  posts_all (str_field "url") person.

(** Every key of the cache is a [str], and no key comes twice. *)
Definition str_keys (c : cache) : Prop :=
  exists d, c = loaded d /\ NoDup (map fst d).

(** What a body of a loop over the cache does for the keys it fetches:
    they were not in the cache, no key comes twice, and they are in the
    cache afterwards. *)
Definition fetches_once {A B : Type} (body : cache -> A -> W (cache * B)) : Prop :=
  forall c a tr r,
    body c a = (tr, r) ->
    NoDup (fetched_urls tr) /\
    (forall u, In u (fetched_urls tr) -> cache_has u c = false) /\
    match r with
    | Ok (c', _) =>
        extends c c' /\
        forall u, In u (fetched_urls tr) -> cache_has u c' = true
    | Raise _ => True
    end.

(** The claim on a post without [details], as it is worded: the call fails
    with the key-lookup error. *)
Definition missing_details_key_error (people : list value) : Prop :=
  forall person posts d,
    In person people ->
    getitem person "posts" = Ok (VList posts) ->
    In (VDict d) posts ->
    dict_get "details" d = None ->
    collect_posts people = Raise (KeyError (VStr "details")).

(** [f'{person["github"].lower()}.html']: the file name of the page that
    [generate_html] renders for a record, in the directory [p]. *)
Definition person_page (person : value) : result string :=
  github <- getitem person "github" ;;
  lowered <- lower_method github ;;
  Ok (lowered ++ ".html").

(** The file names of the pages of [people], in the order of the loop of
    [generate_html] (the rendering itself is not embedded). *)
Fixpoint person_pages (people : list value) : result (list string) :=
  match people with
  | [] => Ok []
  | person :: rest =>
      name <- person_page person ;;
      names <- person_pages rest ;;
      Ok (name :: names)
  end.

(** The page name that belongs to a file of the directory. *)
Definition page_of_file (entry : string * result value) : string :=
  slice_to_minus 5 (fst entry) ++ ".html".

(** A post that [collect_posts] can take: its [details] are a non-empty
    dict with a [published_at] string, or a falsy value beside the [url],
    the [title] and a [published_at] string of the post itself. *)
Definition post_ready (post : value) : Prop :=
  exists d details,
    post = VDict d /\ dict_get "details" d = Some details /\
    ((exists dd ts,
        details = VDict dd /\ dd <> [] /\ dict_get "published_at" dd = Some (VStr ts)) \/
     (exists url title ts,
        truthy details = false /\ dict_get "url" d = Some url /\
        dict_get "title" d = Some title /\ dict_get "published_at" d = Some (VStr ts))).

(** A record that [collect_posts] can take: a dict without [posts], or
    with a list of posts it can take. *)
Definition person_ready (person : value) : Prop :=
  exists d,
    person = VDict d /\
    match dict_get "posts" d with
    | None => True
    | Some posts => exists pages, posts = VList pages /\ Forall post_ready pages
    end.

(** The sort key of the post is a string. *)
Definition published_str (post : value) : Prop :=
  exists ts, published_at post = Ok (VStr ts).

(** The key of the pair of a sort is a string. *)
Definition str_key (kp : value * value) : Prop :=
  exists ts, fst kp = VStr ts.

(** The number of posts of a record. *)
Definition posts_count (person : value) : nat :=
  match getitem person "posts" with
  | Ok posts => match py_iter posts with
                | Ok pages => length pages
                | Raise _ => 0
                end
  | Raise _ => 0
  end.

(** *** main

    [main] up to the call of [generate_html].  The two directories are
    given as [read_json_files] takes them, [fs] holds the cache files;
    creating the cache directory is taken to succeed.  Each call that
    changes the records in place hands them on to the next one. *)

(* lambda person: person['name'] *)
Definition person_name (person : value) : result value :=
  getitem person "name".

(** The run up to [check_projects]: the cache files as the enrichers leave
    them, the records and [projects]. *)
Definition main_people (X : externals) (fs : files)
  (mentors_dir participants_dir : list (string * result value))
  : W (files * (list value * list value * list value)) :=
  emit (LogInfo "Starting to generate site") ;;;
  mentors <~ lift (read_json_files mentors_dir) ;;
  participants <~ lift (read_json_files participants_dir) ;;
  '(fs1, mentors1) <~ update_devto_posts X fs mentors ;;
  '(fs2, participants1) <~ update_devto_posts X fs1 participants ;;
  '(fs3, mentors2) <~ update_github_data X fs2 mentors1 ;;
  '(fs4, participants2) <~ update_github_data X fs3 participants1 ;;
  '(mentors3, projects) <~ check_projects X mentors2 ;;
  '(participants3, more) <~ check_projects X participants2 ;;
  ret (fs4, (mentors3, participants3, (projects ++ more)%list)).

(** The keys of a list in the order in which [list.sort(key=...)] leaves
    its elements. *)
Definition sorted_keys (key : value -> result value) (l : list value)
  : result (list value) :=
  kl <- keyed key l ;;
  sorted <- stable_sort kl ;;
  Ok (map fst sorted).

(** What [main] has made when it calls [generate_html]: [posts],
    [projects] and the order of the participants, given by their names
    (the key of [participants.sort]), with the cache files.  The records
    themselves are not returned: [collect_posts] has written each record
    into the details of its posts, so that records and details refer to
    each other, which a [value] does not hold. *)
Definition main_data (X : externals) (fs : files)
  (mentors_dir participants_dir : list (string * result value))
  : W (files * (list value * list value * list value)) :=
  '(fs', (mentors, participants, projects)) <~ main_people X fs mentors_dir participants_dir ;;
  posts <~ lift (collect_posts (mentors ++ participants)) ;;
  names <~ lift (sorted_keys person_name participants) ;;
  ret (fs', (posts, projects, names)).

(** The key [k1] is not above the key [k2]. *)
Definition le_keys (k1 k2 : value) : Prop := py_ge k2 k1 = Ok true.

(** The log holds no call of [forem.fetch]. *)
Definition no_fetch (tr : list event) : Prop := fetched_urls tr = [].

(** The log [tr] fetches no URL twice and none that the cache [c] holds. *)
Definition only_new (c : cache) (tr : list event) : Prop :=
  NoDup (fetched_urls tr) /\
  forall u, In u (fetched_urls tr) -> cache_has u c = false.

(** The step [m] of a run that started with the article cache [c] fetches
    only what is new, and what it has fetched or found is in the cache
    [after a] that it leaves. *)
Definition once_from {A : Type} (c : cache) (after : A -> cache) (m : W A) : Prop :=
  only_new c (fst m) /\
  match snd m with
  | Ok a =>
      forall u, cache_has u c = true \/ In u (fetched_urls (fst m)) ->
                cache_has u (after a) = true
  | Raise _ => True
  end.
(** ** Example data *)

Module Examples.

Definition nl : string := String newline "".

(** A README with two top-level headings, the first one with emphasis, and
    a second-level heading between them, and the HTML that Markdown makes
    of it. *)
Definition readme_two_titles : string :=
  "# *A*" ++ nl ++ nl ++ "## B" ++ nl ++ nl ++ "# C" ++ nl.

Definition html_two_titles : string :=
  "<h1><em>A</em></h1>" ++ nl ++ "<h2>B</h2>" ++ nl ++ "<h1>C</h1>".

Definition two_titles : list token :=
  [Heading1 "<em>A</em>"; Text nl; Heading2; Text "B"; Tag "/h2"; Text nl;
   Heading1 "C"].

Definition ext : externals := {|
  forem_fetch := fun url =>
    Ok (VDict [("title", VStr "fetched"); ("published_at", VStr "2023-01-03")]);
  github_get_user_info := fun id =>
    if py_same id (VStr "ghost") then Ok VNone else Ok (VDict [("login", id)]);
  markdown_markdown := fun text _ =>
    if String.eqb text readme_two_titles then html_two_titles else text;
  format_value := fun _ => "?";
  cache_dir := "cache"
|}.

(** A URL on another host than the two of the specification. *)
Definition wildcard_url : string := "https://foss-heptapod.net/alice/tool".

Definition wildcard_people : list value :=
  [VDict [("github", VStr "alice"); ("name", VStr "Alice");
          ("projects", VList [VStr wildcard_url])]].

Definition post (url title published : string) (details : value) : value :=
  VDict [("url", VStr url); ("title", VStr title);
         ("published_at", VStr published); ("details", details)].

Definition article (title published : string) : value :=
  VDict [("title", VStr title); ("published_at", VStr published)].

(** Two records; the first and the third post were published on the same
    day, the second one a day later. *)
Definition tie_people : list value :=
  [VDict [("github", VStr "alice"); ("name", VStr "Alice");
          ("posts", VList [post "https://dev.to/a1" "First" "2023-01-01" VNone;
                           post "https://dev.to/a2" "Second" "2023-01-02"
                                (article "Second" "2023-01-02")])];
   VDict [("github", VStr "bob"); ("name", VStr "Bob");
          ("posts", VList [post "https://dev.to/b1" "Third" "2023-01-01" VNone])]].

(** A record whose posts carry the timestamps NaN and 1 (in the file:
    [{"published_at": NaN, ...}], which [json.load] accepts). *)
Definition nan_people : list value :=
  [VDict [("github", VStr "alice"); ("name", VStr "Alice");
          ("posts",
           VList [VDict [("url", VStr "https://dev.to/a1"); ("title", VStr "First");
                         ("published_at", VFloat S754_nan); ("details", VNone)];
                  VDict [("url", VStr "https://dev.to/a2"); ("title", VStr "Second");
                         ("published_at", VInt 1); ("details", VNone)]])]].

(** A record whose first post has a string as [details] and whose second
    post has no [details]. *)
Definition str_details_people : list value :=
  [VDict [("github", VStr "alice"); ("name", VStr "Alice");
          ("posts",
           VList [VDict [("url", VStr "https://dev.to/a1"); ("title", VStr "First");
                         ("published_at", VStr "2023-01-01"); ("details", VStr "none")];
                  VDict [("url", VStr "https://dev.to/a2"); ("title", VStr "Second");
                         ("published_at", VStr "2023-01-02")]])]].

(** The records of [tie_people] as the loader returns them, before any
    enrichment: posts carry no [details] yet. *)
Definition raw_post (url title published : string) : value :=
  VDict [("url", VStr url); ("title", VStr title); ("published_at", VStr published)].

Definition raw_people : list value :=
  [VDict [("github", VStr "alice"); ("name", VStr "Alice");
          ("posts", VList [raw_post "https://dev.to/a1" "First" "2023-01-01";
                           raw_post "https://dev.to/a2" "Second" "2023-01-02"])];
   VDict [("github", VStr "ghost"); ("name", VStr "Ghost")];
   VDict [("github", VStr "bob"); ("name", VStr "Bob");
          ("posts", VList [raw_post "https://dev.to/b1" "Third" "2023-01-01"])]].

(** Cache files that know one article and one profile. *)
Definition warm_files : files := fun name =>
  if String.eqb name "forem" then
    Some [("https://dev.to/a1", article "First" "2023-01-01")]
  else if String.eqb name "github_people" then
    Some [("alice", VDict [("login", VStr "alice")])]
  else None.

(** What the loops of [collect_posts] gather from [tie_people], and the
    list it returns. *)
Definition alice : value := nth 0 tie_people VNone.
Definition bob : value := nth 1 tie_people VNone.

Definition fallback (url title published : string) (author : value) : value :=
  VDict [("url", VStr url); ("title", VStr title); ("description", VStr "");
         ("author", author); ("published_at", VStr published)].

Definition tie_entries : list value :=
  [fallback "https://dev.to/a1" "First" "2023-01-01" alice;
   VDict [("title", VStr "Second"); ("published_at", VStr "2023-01-02");
          ("author", alice)];
   fallback "https://dev.to/b1" "Third" "2023-01-01" bob].

Definition tie_posts : list value :=
  [VDict [("title", VStr "Second"); ("published_at", VStr "2023-01-02");
          ("author", alice)];
   fallback "https://dev.to/a1" "First" "2023-01-01" alice;
   fallback "https://dev.to/b1" "Third" "2023-01-01" bob].

(** A directory with the placeholder and two records. *)
Definition folder : list (string * result value) :=
  [(".gitkeep", Raise (ExternalError "not JSON"));
   ("alice.json", Ok (VDict [("github", VStr "Alice"); ("name", VStr "Alice")]));
   ("bob.json", Ok (VDict [("github", VStr "bob"); ("name", VStr "Bob")]))].

(** A directory with a file that is not a JSON file. *)
Definition folder_with_notes : list (string * result value) :=
  [("notes.txt", Ok (VDict [("github", VStr "notes")]))].

(** Three records; the second one declares a URL that is not a project. *)
Definition invalid_people : list value :=
  [VDict [("github", VStr "alice"); ("name", VStr "Alice");
          ("projects", VList [VStr "https://github.com/alice/tool"])];
   VDict [("github", VStr "bob"); ("name", VStr "Bob");
          ("projects", VList [VStr "https://github.com/bob/tool";
                              VStr "https://example.com/not-a-repo";
                              VStr "https://github.com/bob"])];
   VDict [("github", VStr "carol"); ("name", VStr "Carol");
          ("projects", VList [VStr "https://also.invalid/"])]].

End Examples.


(** ** More example data *)

Module More.

(** A run of each enricher on [raw_people] with the cache files
    [warm_files]: the files it saves and the records it returns. *)
Definition devto_run : W (files * list value) :=
  update_devto_posts Examples.ext Examples.warm_files Examples.raw_people.

Definition devto_files : files :=
  match snd devto_run with
  | Ok (fs', _) => fs'
  | Raise _ => Examples.warm_files
  end.

Definition devto_records : list value :=
  match snd devto_run with
  | Ok (_, people') => people'
  | Raise _ => []
  end.

Definition github_run : W (files * list value) :=
  update_github_data Examples.ext Examples.warm_files Examples.raw_people.

Definition github_files : files :=
  match snd github_run with
  | Ok (fs', _) => fs'
  | Raise _ => Examples.warm_files
  end.

Definition github_records : list value :=
  match snd github_run with
  | Ok (_, people') => people'
  | Raise _ => []
  end.

End More.

(** ** A run of main *)

Module Run.

(** One mentor and two participants; the participants have both posted the
    article of the mentor. *)
Definition mentors_dir : list (string * result value) :=
  [(".gitkeep", Raise (ExternalError "not JSON"));
   ("alice.json",
    Ok (VDict [("github", VStr "Alice"); ("name", VStr "Alice");
               ("posts", VList [Examples.raw_post "https://dev.to/a2" "Second" "2023-01-02"]);
               ("projects", VList [VStr "https://github.com/alice/tool"])]))].

Definition participants_dir : list (string * result value) :=
  [("zed.json",
    Ok (VDict [("github", VStr "zed"); ("name", VStr "Zed");
               ("posts", VList [Examples.raw_post "https://dev.to/a2" "Second" "2023-01-02";
                                Examples.raw_post "https://dev.to/z1" "Zed" "2023-01-05"])]));
   ("bob.json",
    Ok (VDict [("github", VStr "bob"); ("name", VStr "Bob");
               ("posts", VList [Examples.raw_post "https://dev.to/a2" "Second" "2023-01-02"]);
               ("projects", VList [VStr "https://github.com/bob"])]))].

Definition people_run : W (files * (list value * list value * list value)) :=
  main_people Examples.ext Examples.warm_files mentors_dir participants_dir.

Definition run : W (files * (list value * list value * list value)) :=
  main_data Examples.ext Examples.warm_files mentors_dir participants_dir.

Definition out_files : files :=
  match snd run with
  | Ok (fs', _) => fs'
  | Raise _ => Examples.warm_files
  end.

(** The records when the checks are done. *)
Definition mentors : list value :=
  match snd people_run with
  | Ok (_, (mentors, _, _)) => mentors
  | Raise _ => []
  end.

Definition participants : list value :=
  match snd people_run with
  | Ok (_, (_, participants, _)) => participants
  | Raise _ => []
  end.

Definition posts : list value :=
  match snd run with
  | Ok (_, (posts, _, _)) => posts
  | Raise _ => []
  end.

Definition projects : list value :=
  match snd run with
  | Ok (_, (_, projects, _)) => projects
  | Raise _ => []
  end.

(** The names of the participants in the order of the sorted list. *)
Definition names : list value :=
  match snd run with
  | Ok (_, (_, _, names)) => names
  | Raise _ => []
  end.

End Run.
(** ** Properties *)

(** *** Strings and regular expressions *)

Lemma append_nil_r (s : string) : s ++ "" = s.
Proof. induction s; simpl; congruence. Qed.

Lemma append_assoc (a b c : string) : (a ++ b) ++ c = a ++ (b ++ c).
Proof. induction a; simpl; congruence. Qed.

Lemma append_eq_nil (a b : string) : a ++ b = "" -> a = "" /\ b = "".
Proof. destruct a; simpl; [auto | discriminate]. Qed.

Lemma after_segment_head (s : string) :
  Spec.after_segment s = "" \/ exists r, Spec.after_segment s = String "/" r.
Proof.
  induction s as [| c s IH]; simpl; [now left |].
  destruct (Ascii.eqb c "/") eqn:E; [| exact IH].
  right. apply Ascii.eqb_eq in E. subst c. now exists s.
Qed.

Lemma after_segment_nil (s : string) :
  Spec.after_segment s = "" <-> Spec.segment s = s.
Proof.
  induction s as [| c s IH]; simpl; [tauto |].
  destruct (Ascii.eqb c "/"); split; intro H; try discriminate.
  - f_equal. now apply IH.
  - apply IH. congruence.
Qed.

Section Greedy.
Variable k : string -> option Re.found.
Hypothesis k_stops : forall c t,
  Ascii.eqb c "/" = false -> k (Spec.after_segment t) = None -> k (String c t) = None.

Lemma add_group_None g (r : option Re.found) : Re.add_group g r = None <-> r = None.
Proof. destruct r as [[gs rest] |]; simpl; split; congruence. Qed.

Lemma greedy_segment (s acc : string) :
  Re.greedy_not_slash k acc s =
  if String.eqb (acc ++ Spec.segment s) "" then None
  else Re.add_group (acc ++ Spec.segment s) (k (Spec.after_segment s)).
Proof.
  revert acc. induction s as [| d s IH]; intro acc; simpl.
  - now rewrite append_nil_r.
  - destruct (Ascii.eqb d "/") eqn:E.
    + now rewrite append_nil_r.
    + rewrite IH, append_assoc. simpl.
      destruct (String.eqb (acc ++ String d (Spec.segment s)) "") eqn:N.
      { apply String.eqb_eq, append_eq_nil in N. destruct N; discriminate. }
      destruct (Re.add_group _ (k (Spec.after_segment s))) eqn:R; [reflexivity |].
      apply add_group_None in R.
      destruct (String.eqb acc ""); [reflexivity |].
      apply add_group_None. now apply k_stops.
Qed.
End Greedy.

Lemma at_end_after_segment (s : string) :
  Re.at_end (Spec.after_segment s) = String.eqb (Spec.after_segment s) "".
Proof.
  unfold Re.at_end. destruct (after_segment_head s) as [-> | [r ->]]; reflexivity.
Qed.

Lemma contains_slash_not_end c t :
  Spec.after_segment t <> "" -> Re.at_end (String c t) = false.
Proof.
  intro H. unfold Re.at_end. simpl.
  destruct t as [| d t]; [now elim H |].
  destruct (Ascii.eqb c newline); reflexivity.
Qed.

Lemma k_eol_stops c t :
  Ascii.eqb c "/" = false -> k_eol (Spec.after_segment t) = None -> k_eol (String c t) = None.
Proof.
  intros _ H. unfold k_eol in *. cbn [Re.match_here] in *.
  rewrite at_end_after_segment in H.
  destruct (String.eqb (Spec.after_segment t) "") eqn:E; [discriminate |].
  apply String.eqb_neq in E. now rewrite contains_slash_not_end.
Qed.

Lemma k_slash_stops c t :
  Ascii.eqb c "/" = false -> k_slash (Spec.after_segment t) = None -> k_slash (String c t) = None.
Proof.
  intros E _. unfold k_slash. cbn [Re.match_here].
  rewrite Ascii.eqb_sym, E. reflexivity.
Qed.

(** The end of the repo patterns, [([^/]+)/([^/]+)$], on a path. *)
Lemma match_owner_repo (path : string) :
  Re.match_here [Re.NotSlashPlus; Re.Chr "/"; Re.NotSlashPlus; Re.Eol] false path =
  match Spec.after_segment path with
  | String _ repo =>
      if negb (String.eqb (Spec.segment path) "") && negb (String.eqb repo "")
         && String.eqb (Spec.segment repo) repo
      then Some ([Spec.segment path; repo], "") else None
  | EmptyString => None
  end.
Proof.
  cbn [Re.match_here].
  change (fun t => Re.match_here [Re.Chr "/"; Re.NotSlashPlus; Re.Eol] false t) with k_slash.
  rewrite (greedy_segment k_slash k_slash_stops). simpl append.
  destruct (String.eqb (Spec.segment path) "") eqn:E1; simpl.
  { destruct (Spec.after_segment path); reflexivity. }
  destruct (after_segment_head path) as [-> | [r ->]]; [reflexivity |].
  unfold k_slash. cbn [Re.match_here]. rewrite Ascii.eqb_refl.
  change (fun t => Re.match_here [Re.Eol] false t) with k_eol.
  rewrite (greedy_segment k_eol k_eol_stops). simpl append.
  unfold k_eol. cbn [Re.match_here]. rewrite at_end_after_segment.
  destruct (String.eqb r "") eqn:E2.
  { apply String.eqb_eq in E2. subst r. reflexivity. }
  simpl.
  destruct (String.eqb (Spec.segment r) r) eqn:E3.
  - apply String.eqb_eq in E3.
    assert (A : Spec.after_segment r = "") by now apply after_segment_nil.
    rewrite A, E3, E2. reflexivity.
  - assert (A : Spec.after_segment r <> "").
    { intro A. apply after_segment_nil in A. rewrite A, String.eqb_refl in E3. discriminate. }
    apply String.eqb_neq in A. rewrite A.
    destruct (String.eqb (Spec.segment r) ""); reflexivity.
Qed.

(** The end of the organization pattern, [([^/]+)$], on a path. *)
Lemma match_owner (path : string) :
  Re.match_here [Re.NotSlashPlus; Re.Eol] false path =
  if negb (String.eqb path "") && String.eqb (Spec.segment path) path
  then Some ([path], "") else None.
Proof.
  cbn [Re.match_here].
  change (fun t => Re.match_here [Re.Eol] false t) with k_eol.
  rewrite (greedy_segment k_eol k_eol_stops). simpl append.
  unfold k_eol. cbn [Re.match_here]. rewrite at_end_after_segment.
  destruct (String.eqb (Spec.segment path) path) eqn:E3.
  - apply String.eqb_eq in E3.
    assert (A : Spec.after_segment path = "") by now apply after_segment_nil.
    rewrite A, E3. simpl. destruct (String.eqb path ""); reflexivity.
  - assert (A : Spec.after_segment path <> "").
    { intro A. apply after_segment_nil in A. rewrite A, String.eqb_refl in E3. discriminate. }
    apply String.eqb_neq in A. rewrite A. rewrite andb_false_r.
    destruct (String.eqb (Spec.segment path) ""); reflexivity.
Qed.

Lemma search_from_bol (p : Re.regex) (s : string) :
  Re.search_from (Re.Bol :: p) false s = None.
Proof. induction s as [| c s IH]; simpl; auto. Qed.

(** A pattern that starts with [^] is tried at the start of the text only. *)
Lemma search_bol (p : Re.regex) (s : string) :
  Re.search (Re.Bol :: p) s =
  match Re.match_here p true s with
  | Some (gs, _) => Some gs
  | None => None
  end.
Proof.
  unfold Re.search. destruct s as [| c s]; cbn [Re.search_from Re.match_here].
  - destruct (Re.match_here p true "") as [[gs r] |]; reflexivity.
  - destruct (Re.match_here p true (String c s)) as [[gs r] |]; [reflexivity |].
    apply search_from_bol.
Qed.

Lemma strip_prefix_Some (p s r : string) :
  Spec.strip_prefix p s = Some r -> s = p ++ r.
Proof.
  revert s. induction p as [| c p IH]; intros s H; simpl in *.
  - congruence.
  - destruct s as [| d s]; [discriminate |].
    destruct (Ascii.eqb c d) eqn:E; [| discriminate].
    apply Ascii.eqb_eq in E. subst d. f_equal. now apply IH.
Qed.

Lemma match_chr c p st s :
  Re.match_here (Re.Chr c :: p) st (String c s) = Re.match_here p false s.
Proof. cbn [Re.match_here]. now rewrite Ascii.eqb_refl. Qed.

Lemma match_chr_other c d p st s :
  Ascii.eqb c d = false -> Re.match_here (Re.Chr c :: p) st (String d s) = None.
Proof. intro E. cbn [Re.match_here]. now rewrite E. Qed.

Lemma match_any d p st s :
  Ascii.eqb d newline = false ->
  Re.match_here (Re.Any :: p) st (String d s) = Re.match_here p false s.
Proof. intro E. cbn [Re.match_here]. now rewrite E. Qed.

Ltac match_literal :=
  repeat first
    [ rewrite match_chr
    | rewrite match_any by reflexivity
    | rewrite match_chr_other by reflexivity ].

(** The patterns of [check_project], as [generate.py] writes them. *)
Example check_project_patterns :
  map Re.pattern [re_github_repo; re_heptapod_repo; re_github_organization]
  = ["^https://github.com/([^/]+)/([^/]+)$";
     "^https://foss.heptapod.net/([^/]+)/([^/]+)$";
     "^https://github.com/([^/]+)$"].
Proof. reflexivity. Qed.

Lemma check_project_github (path : string) :
  check_project ("https://github.com/" ++ path) =
  Spec.classify ("https://github.com/" ++ path).
Proof.
  unfold check_project, Spec.classify, Spec.owner_repo, Spec.owner_only.
  unfold re_github_repo, re_heptapod_repo, re_github_organization.
  cbn [app Re.lit]. rewrite !search_bol.
  cbn -[Re.match_here Spec.segment Spec.after_segment String.eqb].
  match_literal.
  rewrite match_owner_repo, match_owner.
  destruct (Spec.after_segment path) as [| c repo].
  - destruct (negb (String.eqb path "") && String.eqb (Spec.segment path) path); reflexivity.
  - destruct (negb (String.eqb (Spec.segment path) "") && negb (String.eqb repo "")
              && String.eqb (Spec.segment repo) repo); [reflexivity |].
    destruct (negb (String.eqb path "") && String.eqb (Spec.segment path) path); reflexivity.
Qed.

Lemma check_project_heptapod (path : string) :
  check_project ("https://foss.heptapod.net/" ++ path) =
  Spec.classify ("https://foss.heptapod.net/" ++ path).
Proof.
  unfold check_project, Spec.classify, Spec.owner_repo, Spec.owner_only.
  unfold re_github_repo, re_heptapod_repo, re_github_organization.
  cbn [app Re.lit]. rewrite !search_bol.
  cbn -[Re.match_here Spec.segment Spec.after_segment String.eqb].
  match_literal.
  rewrite match_owner_repo.
  destruct (Spec.after_segment path) as [| c repo]; [reflexivity |].
  destruct (negb (String.eqb (Spec.segment path) "") && negb (String.eqb repo "")
            && String.eqb (Spec.segment repo) repo); reflexivity.
Qed.

(** Every URL of one of the three shapes of the specification is classified
    as the specification says. *)
Theorem check_project_recognized (url : string) :
  Spec.classify url <> (VNone, VNone) -> check_project url = Spec.classify url.
Proof.
  intro H.
  destruct (Spec.strip_prefix "https://github.com/" url) as [path |] eqn:G.
  { apply strip_prefix_Some in G. subst url. apply check_project_github. }
  destruct (Spec.strip_prefix "https://foss.heptapod.net/" url) as [path |] eqn:F.
  { apply strip_prefix_Some in F. subst url. apply check_project_heptapod. }
  exfalso. apply H. unfold Spec.classify, Spec.owner_repo, Spec.owner_only.
  change ("https://" ++ "github.com" ++ "/") with "https://github.com/".
  change ("https://" ++ "foss.heptapod.net" ++ "/") with "https://foss.heptapod.net/".
  now rewrite G, F.
Qed.

(** The three shapes, as the claim words them. *)
Lemma no_slash_segment s : Spec.segment s = s -> Spec.after_segment s = "".
Proof. apply after_segment_nil. Qed.

Lemma segment_append owner rest :
  Spec.segment owner = owner ->
  Spec.segment (owner ++ String "/" rest) = owner /\
  Spec.after_segment (owner ++ String "/" rest) = String "/" rest.
Proof.
  induction owner as [| c o IH]; simpl; [auto |].
  destruct (Ascii.eqb c "/"); [discriminate |].
  intro H. injection H as H. destruct (IH H) as [A B]. now rewrite A, B.
Qed.

Theorem check_project_shapes (owner repo : string) :
  owner <> "" -> repo <> "" -> Spec.segment owner = owner -> Spec.segment repo = repo ->
  check_project ("https://github.com/" ++ owner ++ "/" ++ repo)
    = (VStr "github_repo", VStr repo) /\
  check_project ("https://foss.heptapod.net/" ++ owner ++ "/" ++ repo)
    = (VStr "heptapod_repo", VStr repo) /\
  check_project ("https://github.com/" ++ owner)
    = (VStr "github_organization", VStr owner).
Proof.
  intros No Nr So Sr.
  apply String.eqb_neq in No, Nr.
  destruct (segment_append owner repo So) as [A B].
  assert (R : (Spec.owner_repo "github.com" ("https://github.com/" ++ owner ++ "/" ++ repo) = Some repo)
            /\ (Spec.owner_repo "foss.heptapod.net" ("https://foss.heptapod.net/" ++ owner ++ "/" ++ repo) = Some repo)).
  { unfold Spec.owner_repo. simpl Spec.strip_prefix.
    cbn -[Spec.segment Spec.after_segment String.eqb].
    rewrite A, B, No, Nr, Sr, String.eqb_refl. now split. }
  destruct R as [R1 R2].
  rewrite check_project_github, check_project_heptapod, check_project_github.
  repeat split.
  - unfold Spec.classify. now rewrite R1.
  - unfold Spec.classify. rewrite R2.
    unfold Spec.owner_repo. reflexivity.
  - unfold Spec.classify, Spec.owner_repo, Spec.owner_only.
    cbn -[Spec.segment Spec.after_segment String.eqb].
    rewrite (no_slash_segment _ So), No, So, String.eqb_refl. reflexivity.
Qed.

Lemma check_project_recognized_witness :
  check_project "https://github.com/alice" = (VStr "github_organization", VStr "alice").
Proof.
  rewrite (check_project_recognized "https://github.com/alice"); [reflexivity |].
  discriminate.
Defined.

Lemma check_project_shapes_witness :
  check_project "https://foss.heptapod.net/alice/tool" = (VStr "heptapod_repo", VStr "tool").
Proof.
  refine (proj1 (proj2 (check_project_shapes "alice" "tool" _ _ eq_refl eq_refl)));
    discriminate.
Defined.

(** URLs that are not projects. *)
Example check_project_unrecognized :
  map check_project
    ["https://example.com/not-a-repo"; "https://github.com/alice/";
     "https://github.com/a/b/c"; "http://github.com/alice/tool"; "https://github.com/"]
  = repeat (VNone, VNone) 5.
Proof. reflexivity. Qed.

(** C1.  The claim: for every URL, [check_project] returns what the three
    shapes of the specification give, and a URL of none of them is
    unrecognized.  The code writes the dots of the host names unescaped, so
    they match any character: this URL, on the host foss-heptapod.net, has
    none of the three shapes and is classified as a repository. *)
Theorem check_project_wildcard_host :
  check_project Examples.wildcard_url = (VStr "heptapod_repo", VStr "tool") /\
  Spec.classify Examples.wildcard_url = (VNone, VNone).
Proof. split; reflexivity. Qed.

(** *** Messages *)

Lemma prefix_append (p s : string) : String.prefix p (p ++ s) = true.
Proof.
  induction p as [| c p IH]; simpl; [now destruct s |].
  destruct (ascii_dec c c) as [_ | N]; [exact IH | now elim N].
Qed.

Lemma contains_append (x a b : string) : contains x (a ++ x ++ b) = true.
Proof.
  induction a as [| c a IH].
  - simpl append. destruct (x ++ b) eqn:E; unfold contains; fold contains;
      rewrite <- E, prefix_append; reflexivity.
  - simpl append. unfold contains; fold contains.
    destruct (String.prefix x (String c (a ++ x ++ b))); [reflexivity | exact IH].
Qed.

Lemma contains_after (x p s : string) :
  contains x s = true -> contains x (p ++ s) = true.
Proof.
  intro H. induction p as [| c p IH]; [exact H |].
  simpl append. unfold contains; fold contains.
  destruct (String.prefix x (String c (p ++ s))); [reflexivity | exact IH].
Qed.

(** Logs are compared up to the association of [++]. *)
Ltac same_log :=
  simpl; repeat rewrite <- app_assoc; repeat rewrite app_nil_r;
  simpl; repeat rewrite app_nil_r; reflexivity.

(** *** check_projects *)

Section CheckProjects.
Variable X : externals.

Lemma check_url_unrecognized (person : value) (url : string) (name github : value) :
  check_project url = (VNone, VNone) ->
  getitem person "name" = Ok name ->
  getitem person "github" = Ok github ->
  check_url X person (VStr url) =
  ([LogError (invalid_message X url name github)],
   Raise (SystemExit (invalid_message X url name github))).
Proof.
  intros U N G. unfold check_url, invalid_project. simpl. rewrite U. simpl.
  rewrite N, G. reflexivity.
Qed.

Lemma check_urls_stop (person : value) (good later : list value) (bad : value)
  (t t' : list event) (entries : list value) (e : exn) :
  check_urls X person good = (t, Ok entries) ->
  check_url X person bad = (t', Raise e) ->
  check_urls X person (good ++ bad :: later) = ((t ++ t')%list, Raise e).
Proof.
  revert t entries. induction good as [| u good IH]; intros t entries G B; simpl in *.
  - injection G as <- <-. rewrite B. reflexivity.
  - destruct (check_url X person u) as [t1 [entry | e1]]; simpl in *; [| discriminate].
    destruct (check_urls X person good) as [t2 [es | e2]]; simpl in *; [| discriminate].
    injection G as <- <-.
    rewrite (IH _ _ eq_refl B). same_log.
Qed.

Lemma check_projects_stop (before after : list value) (person : value)
  (t t' : list event) (done : list value * list value) (e : exn) :
  check_projects X before = (t, Ok done) ->
  check_person X person = (t', Raise e) ->
  check_projects X (before ++ person :: after) = ((t ++ t')%list, Raise e).
Proof.
  revert t done. induction before as [| p before IH]; intros t done G B; simpl in *.
  - injection G as <- <-. rewrite B. reflexivity.
  - destruct (check_person X p) as [t1 [[p' ps] | e1]]; simpl in *; [| discriminate].
    destruct (check_projects X before) as [t2 [[r a] | e2]]; simpl in *; [| discriminate].
    injection G as <- <-.
    rewrite (IH _ _ eq_refl B). same_log.
Qed.

(** [check_projects] stops at the first URL that [check_project] does not
    recognize: it logs and exits with a message that holds the URL, the
    record's name and its github identifier, whatever follows the URL in the
    record's list and whatever records follow. *)
Theorem check_projects_fail_fast
  (before after good later : list value) (person name github : value) (url : string)
  (t t' : list event) (done : list value * list value) (entries : list value) :
  check_projects X before = (t, Ok done) ->
  getitem person "projects" = Ok (VList (good ++ VStr url :: later)) ->
  getitem person "name" = Ok name ->
  getitem person "github" = Ok github ->
  check_urls X person good = (t', Ok entries) ->
  check_project url = (VNone, VNone) ->
  let msg := invalid_message X url name github in
  check_projects X (before ++ person :: after)
    = ((t ++ t' ++ [LogError msg])%list, Raise (SystemExit msg)) /\
  contains url msg = true /\
  contains (fmt X name) msg = true /\
  contains (fmt X github) msg = true.
Proof.
  intros B P N G U C msg. split.
  - apply check_projects_stop with (done := done); [exact B |].
    unfold check_person. destruct person as [| | | | | | d]; try discriminate.
    simpl in P. simpl. unfold dict_has.
    destruct (dict_get "projects" d) as [v |]; [| discriminate].
    injection P as ->. simpl.
    erewrite check_urls_stop;
      [reflexivity | exact U | now apply check_url_unrecognized].
  - unfold msg, invalid_message. repeat split.
    + apply (contains_append url "Invalid project '").
    + do 2 apply contains_after. apply (contains_append (fmt X name) "' by ").
    + do 4 apply contains_after. apply (contains_append (fmt X github) " github='").
Qed.

End CheckProjects.

(** C2.  The claim: a URL of none of the three shapes stops the run with
    an error.  [check_projects] stops at the URLs that [check_project] does
    not recognize ([check_projects_fail_fast]); this URL has none of the
    three shapes, [check_project] takes it for a repository (the unescaped
    dot of C1), and the run goes on with a project entry for it. *)
Theorem check_projects_wildcard_host (X : externals) :
  Spec.classify Examples.wildcard_url = (VNone, VNone) /\
  check_projects X Examples.wildcard_people
  = ([],
     Ok ([VDict [("github", VStr "alice"); ("name", VStr "Alice");
                 ("projects",
                  VList [VDict [("url", VStr Examples.wildcard_url);
                                ("name", VStr "tool")]])]],
         [VDict [("url", VStr Examples.wildcard_url); ("name", VStr "tool")]])).
Proof. split; reflexivity. Qed.

Lemma check_projects_fail_fast_witness :
  check_projects Examples.ext Examples.invalid_people
  = ([LogError "Invalid project 'https://example.com/not-a-repo' by Bob github='bob'"],
     Raise (SystemExit
              "Invalid project 'https://example.com/not-a-repo' by Bob github='bob'")).
Proof.
  exact (proj1 (check_projects_fail_fast Examples.ext
                  [nth 0 Examples.invalid_people VNone]
                  [nth 2 Examples.invalid_people VNone]
                  [VStr "https://github.com/bob/tool"]
                  [VStr "https://github.com/bob"]
                  (nth 1 Examples.invalid_people VNone)
                  (VStr "Bob") (VStr "bob")
                  "https://example.com/not-a-repo"
                  [] [] _ _ eq_refl eq_refl eq_refl eq_refl eq_refl eq_refl)).
Defined.

(** The first end-to-end scenario of the specification: one record with one
    repository. *)
Example check_projects_alice :
  check_projects Examples.ext [nth 0 Examples.invalid_people VNone]
  = ([],
     Ok ([VDict [("github", VStr "alice"); ("name", VStr "Alice");
                 ("projects",
                  VList [VDict [("url", VStr "https://github.com/alice/tool");
                                ("name", VStr "tool")]])]],
         [VDict [("url", VStr "https://github.com/alice/tool"); ("name", VStr "tool")]])).
Proof. reflexivity. Qed.

(** *** Sorting *)

Lemma bind_Ok {A B : Type} (m : result A) (f : A -> result B) (b : B) :
  Py.bind m f = Ok b -> exists a, m = Ok a /\ f a = Ok b.
Proof. destruct m as [a | e]; simpl; [eauto | discriminate]. Qed.

Ltac bind_inv H :=
  let a := fresh "a" in
  let Ha := fresh "E" in
  apply bind_Ok in H; destruct H as (a & Ha & H).

Lemma ltb_asym (s t : string) : String.ltb s t = true -> String.ltb t s = false.
Proof.
  unfold String.ltb. rewrite (String.compare_antisym t s).
  destruct (String.compare s t); simpl; congruence.
Qed.

Lemma ltb_irrefl (s : string) : String.ltb s s = false.
Proof.
  destruct (String.ltb s s) eqn:E; [| reflexivity].
  pose proof (ltb_asym _ _ E). congruence.
Qed.

Lemma not_ltb_leb (s t : string) : String.ltb s t = false -> String.leb t s = true.
Proof.
  unfold String.ltb, String.leb. rewrite (String.compare_antisym t s).
  destruct (String.compare s t); simpl; congruence.
Qed.

(** *** Numbers *)

(** The order of strings by code points is transitive. *)
Lemma ascii_compare_refl (c : ascii) : Ascii.compare c c = Eq.
Proof. unfold Ascii.compare. apply N.compare_refl. Qed.

Lemma ascii_compare_eq (c d : ascii) : Ascii.compare c d = Eq -> c = d.
Proof. apply Ascii.compare_eq_iff. Qed.

Lemma ascii_compare_lt_trans (a b c : ascii) :
  Ascii.compare a b = Lt -> Ascii.compare b c = Lt -> Ascii.compare a c = Lt.
Proof.
  unfold Ascii.compare. rewrite !N.compare_lt_iff. lia.
Qed.

Lemma compare_lt_trans (a b c : string) :
  String.compare a b = Lt -> String.compare b c = Lt -> String.compare a c = Lt.
Proof.
  revert b c. induction a as [| x a IH]; intros [| y b] [| z c]; simpl;
    try discriminate; try reflexivity.
  destruct (Ascii.compare x y) eqn:E1; try discriminate;
    destruct (Ascii.compare y z) eqn:E2; try discriminate; intros H1 H2.
  - apply ascii_compare_eq in E1, E2. subst. rewrite ascii_compare_refl.
    now apply IH with b.
  - apply ascii_compare_eq in E1. subst. now rewrite E2.
  - apply ascii_compare_eq in E2. subst. now rewrite E1.
  - now rewrite (ascii_compare_lt_trans _ _ _ E1 E2).
Qed.

Lemma ltb_false_trans (a b c : string) :
  String.ltb b a = false -> String.ltb c b = false -> String.ltb c a = false.
Proof.
  unfold String.ltb. intros H1 H2.
  destruct (String.compare c a) eqn:E; try reflexivity.
  destruct (String.compare c b) eqn:E2; try discriminate.
  - apply String.compare_eq_iff in E2. subst. now rewrite E in H1.
  - assert (E3 : String.compare b c = Lt).
    { rewrite String.compare_antisym, E2. reflexivity. }
    now rewrite (compare_lt_trans _ _ _ E3 E) in H1.
Qed.

Ltac number_cases :=
  repeat match goal with
         | n : number |- _ => destruct n as [| [|] | ?]
         end;
  cbn [number_compare number_ltb number_leb number_eqb] in *;
  try congruence;
  repeat match goal with
         | H : context [Qcompare ?p ?q] |- _ => destruct (Qcompare_spec p q)
         | |- context [Qcompare ?p ?q] => destruct (Qcompare_spec p q)
         end;
  try congruence; try lra.

Lemma number_ltb_asym (a b : number) : number_ltb a b = true -> number_ltb b a = false.
Proof. unfold number_ltb. number_cases. Qed.

Lemma number_ltb_leb (a b : number) :
  a <> Nan -> b <> Nan -> number_ltb a b = false -> number_leb b a = true.
Proof. unfold number_ltb, number_leb. number_cases. Qed.

Lemma number_ltb_differ (k a b : number) :
  number_ltb a b = true -> number_eqb k a = true -> number_eqb k b = false.
Proof. unfold number_ltb, number_eqb. number_cases. Qed.

Lemma number_ltb_false_trans (a b c : number) :
  b <> Nan ->
  number_ltb b a = false -> number_ltb c b = false -> number_ltb c a = false.
Proof. unfold number_ltb. number_cases. Qed.

(** *** Comparison of sort keys *)

Lemma py_lt_str (s t : string) : py_lt (VStr s) (VStr t) = Ok (String.ltb s t).
Proof. reflexivity. Qed.

Lemma py_lt_number (a b : value) (m n : number) :
  as_number a = Some m -> as_number b = Some n -> py_lt a b = Ok (number_ltb m n).
Proof.
  destruct a; try discriminate; destruct b; try discriminate; simpl;
    intros Ha Hb; injection Ha as <-; injection Hb as <-; reflexivity.
Qed.

Lemma py_lt_str_number (s : string) (b : value) (n : number) :
  as_number b = Some n ->
  py_lt (VStr s) b = Raise TypeError /\ py_lt b (VStr s) = Raise TypeError.
Proof. destruct b; try discriminate; intros _; split; reflexivity. Qed.

Lemma py_ge_number (a b : value) (m n : number) :
  as_number a = Some m -> as_number b = Some n -> py_ge a b = Ok (number_leb n m).
Proof.
  destruct a; try discriminate; destruct b; try discriminate; simpl;
    intros Ha Hb; injection Ha as <-; injection Hb as <-; reflexivity.
Qed.

Lemma key_eqb_str (k : value) (s : string) :
  key_eqb k (VStr s) = true -> k = VStr s.
Proof.
  unfold key_eqb, py_eq. destruct k; simpl; try discriminate;
    try (destruct (float_number f) as [| [|] | ?]; discriminate).
  intro H. apply String.eqb_eq in H. now subst.
Qed.

Lemma key_eqb_number (k a : value) (m : number) :
  as_number a = Some m ->
  key_eqb k a = true -> exists n, as_number k = Some n /\ number_eqb n m = true.
Proof.
  unfold key_eqb, py_eq. intros Ha. rewrite Ha.
  destruct (as_number k) as [n |] eqn:Hk; [eauto |].
  destruct k; try discriminate; destruct a; try discriminate; simpl;
    try (destruct (float_number f) as [| [|] | ?]; discriminate);
    try (destruct b; discriminate).
Qed.

Lemma key_eqb_numbers (k a : value) (n m : number) :
  as_number k = Some n -> as_number a = Some m -> key_eqb k a = number_eqb n m.
Proof. unfold key_eqb, py_eq. now intros -> ->. Qed.

Lemma key_eqb_number_str (k : value) (n : number) (s : string) :
  as_number k = Some n -> key_eqb k (VStr s) = false.
Proof.
  unfold key_eqb, py_eq. destruct k; try discriminate; simpl; try reflexivity.
  intros _. destruct (float_number f) as [| [|] | ?]; reflexivity.
Qed.

Ltac ordered_cases :=
  repeat match goal with
         | H : ordered_key _ |- _ => destruct H as [[? ->] | (? & ? & ?)]
         end;
  repeat match goal with
         | H : as_number ?v = Some _ |- context [py_lt (VStr ?s) ?v] =>
             rewrite (proj1 (py_lt_str_number s _ _ H))
         | H : as_number ?v = Some _ |- context [py_lt ?v (VStr ?s)] =>
             rewrite (proj2 (py_lt_str_number s _ _ H))
         end;
  try (intros; discriminate);
  repeat match goal with
         | Ha : as_number ?a = Some _, Hb : as_number ?b = Some _
           |- context [py_lt ?a ?b] => rewrite (py_lt_number _ _ _ _ Ha Hb)
         | Ha : as_number ?a = Some _, Hb : as_number ?b = Some _
           |- context [py_ge ?a ?b] => rewrite (py_ge_number _ _ _ _ Ha Hb)
         end.

Lemma py_lt_asym (a b : value) :
  ordered_key a -> ordered_key b -> py_lt a b = Ok true -> py_lt b a = Ok false.
Proof.
  intros Ha Hb. ordered_cases.
  - rewrite !py_lt_str. intro H. injection H as H. f_equal. now apply ltb_asym.
  - intro E. injection E as E. f_equal. now apply number_ltb_asym.
Qed.

Lemma py_lt_ge (a b : value) :
  ordered_key a -> ordered_key b -> py_lt a b = Ok false -> py_ge a b = Ok true.
Proof.
  intros Ha Hb. ordered_cases.
  - rewrite py_lt_str. simpl. intro H. injection H as H. f_equal. now apply not_ltb_leb.
  - intro E. injection E as E. f_equal. now apply number_ltb_leb.
Qed.

Lemma py_lt_differ (k a b : value) :
  ordered_key a -> ordered_key b ->
  py_lt a b = Ok true -> key_eqb k a = true -> key_eqb k b = false.
Proof.
  intros Ha Hb. ordered_cases.
  - rewrite py_lt_str. intros H E. injection H as H.
    apply key_eqb_str in E. subst k. unfold key_eqb, py_eq. simpl.
    apply String.eqb_neq. intros ->. rewrite ltb_irrefl in H. discriminate.
  - intros L E. injection L as L.
    match goal with
    | Ha : as_number a = Some _, Hb : as_number b = Some _ |- _ =>
        destruct (key_eqb_number _ _ _ Ha E) as (n & Hk & En);
        rewrite (key_eqb_numbers _ _ _ _ Hk Hb)
    end.
    exact (number_ltb_differ _ _ _ L En).
Qed.

Lemma py_lt_false_trans (a b c : value) :
  ordered_key a -> ordered_key b -> ordered_key c ->
  py_lt b a = Ok false -> py_lt c b = Ok false -> py_lt c a = Ok false.
Proof.
  intros Ha Hb Hc. ordered_cases.
  - rewrite !py_lt_str. intros H1 H2. injection H1 as H1. injection H2 as H2.
    f_equal. now apply ltb_false_trans with x0.
  - intros E1 E2. injection E1 as E1. injection E2 as E2. f_equal.
    match goal with
    | Hb : as_number b = Some ?n |- _ => now apply number_ltb_false_trans with n
    end.
Qed.

Section Sort.

Variable key : value -> result value.

Lemma keyed_snd (l : list value) (kl : list (value * value)) :
  keyed key l = Ok kl -> map snd kl = l /\ Forall (keyed_by key) kl.
Proof.
  revert kl. induction l as [| x l IH]; intros kl H; simpl in H.
  - injection H as <-. split; constructor.
  - bind_inv H. bind_inv H. injection H as <-.
    destruct (IH _ E0) as [M F]. split; simpl; [now rewrite M |].
    constructor; [exact E | exact F].
Qed.

Lemma insert_Permutation (x : value * value) (l l' : list (value * value)) :
  insert x l = Ok l' -> Permutation (x :: l) l'.
Proof.
  revert l'. induction l as [| y l IH]; intros l' H; simpl in H.
  - injection H as <-. apply Permutation_refl.
  - bind_inv H. destruct a.
    + bind_inv H. injection H as <-.
      apply perm_trans with (y :: x :: l); [apply perm_swap |].
      apply perm_skip. now apply IH.
    + injection H as <-. apply Permutation_refl.
Qed.

Lemma stable_sort_Permutation (l s : list (value * value)) :
  stable_sort l = Ok s -> Permutation l s.
Proof.
  revert s. induction l as [| x l IH]; intros s H; simpl in H.
  - injection H as <-. constructor.
  - bind_inv H. apply perm_trans with (x :: a); [apply perm_skip; now apply IH |].
    now apply insert_Permutation.
Qed.

Lemma insert_Forall (P : value * value -> Prop) x l l' :
  insert x l = Ok l' -> P x -> Forall P l -> Forall P l'.
Proof.
  revert l'. induction l as [| y l IH]; intros l' H Px F; simpl in H.
  - injection H as <-. now constructor.
  - bind_inv H. inversion F; subst. destruct a.
    + bind_inv H. injection H as <-. constructor; [assumption | now apply IH].
    + injection H as <-. now repeat constructor.
Qed.

Lemma stable_sort_Forall (P : value * value -> Prop) l s :
  stable_sort l = Ok s -> Forall P l -> Forall P s.
Proof.
  revert s. induction l as [| x l IH]; intros s H F; simpl in H.
  - injection H as <-. constructor.
  - bind_inv H. inversion F; subst. apply (insert_Forall P x a s H); auto.
Qed.

Lemma insert_head (x : value * value) (l l' : list (value * value)) (y : value * value) :
  insert x l = Ok l' -> not_below y x -> HdRel not_below y l -> HdRel not_below y l'.
Proof.
  destruct l as [| z l]; simpl; intros H Hx Hl.
  - injection H as <-. now constructor.
  - bind_inv H. destruct a.
    + bind_inv H. injection H as <-. constructor. now inversion Hl.
    + injection H as <-. now constructor.
Qed.

Lemma insert_sorted (x : value * value) (l l' : list (value * value)) :
  ordered_pair x -> Forall ordered_pair l ->
  Sorted not_below l -> insert x l = Ok l' -> Sorted not_below l'.
Proof.
  intro Ox. revert l'. induction l as [| y l IH]; intros l' O S H; simpl in H.
  - injection H as <-. repeat constructor.
  - bind_inv H. inversion S as [| ? ? S' Hd]; subst.
    inversion O as [| ? ? Oy Ol]; subst. destruct a.
    + bind_inv H. injection H as <-. constructor; [now apply IH |].
      apply (insert_head x l a y E0); [| exact Hd].
      unfold not_below. now apply py_lt_asym.
    + injection H as <-. constructor; [exact S |]. constructor. exact E.
Qed.

Lemma stable_sort_sorted (l s : list (value * value)) :
  Forall ordered_pair l -> stable_sort l = Ok s -> Sorted not_below s.
Proof.
  revert s. induction l as [| x l IH]; intros s O H; simpl in H.
  - injection H as <-. constructor.
  - bind_inv H. inversion O as [| ? ? Ox Ol]; subst.
    apply (insert_sorted x a s Ox); [| now apply IH | exact H].
    now apply (stable_sort_Forall ordered_pair l a E).
Qed.

(** The elements of one key come out of the sort in the order they went in. *)
Lemma insert_filter (k : value) x l l' :
  ordered_pair x -> Forall ordered_pair l ->
  insert x l = Ok l' ->
  filter (fun kp => key_eqb k (fst kp)) l' =
  filter (fun kp => key_eqb k (fst kp)) (x :: l).
Proof.
  intro Ox. revert l'. induction l as [| y l IH]; intros l' O H; simpl in H.
  - now injection H as <-.
  - bind_inv H. inversion O as [| ? ? Oy Ol]; subst. destruct a.
    + bind_inv H. injection H as <-. simpl. rewrite (IH _ Ol E0). simpl.
      destruct (key_eqb k (fst x)) eqn:Kx; [| reflexivity].
      destruct (key_eqb k (fst y)) eqn:Ky; [| reflexivity].
      rewrite (py_lt_differ k _ _ Oy Ox E Ky) in Kx. discriminate.
    + now injection H as <-.
Qed.

Lemma stable_sort_filter (k : value) l s :
  Forall ordered_pair l ->
  stable_sort l = Ok s ->
  filter (fun kp => key_eqb k (fst kp)) s = filter (fun kp => key_eqb k (fst kp)) l.
Proof.
  revert s. induction l as [| x l IH]; intros s O H; simpl in H.
  - now injection H as <-.
  - bind_inv H. inversion O as [| ? ? Ox Ol]; subst.
    rewrite (insert_filter k x a s Ox (stable_sort_Forall ordered_pair l a E Ol) H).
    simpl. now rewrite (IH _ Ol E).
Qed.

(** The pairs of elements whose keys [<] orders. *)
Lemma keyed_ordered (l : list (value * value)) :
  Forall (keyed_by key) l ->
  Forall (fun p => exists k, key p = Ok k /\ ordered_key k) (map snd l) ->
  Forall ordered_pair l.
Proof.
  induction 1 as [| kp l K _ IH]; simpl; intro O; [constructor |].
  inversion O as [| ? ? (k & Hk & Hord) Ol]; subst. constructor; [| now apply IH].
  unfold keyed_by in K. unfold ordered_pair. congruence.
Qed.

End Sort.

Lemma Sorted_adjacent {A : Type} (R : A -> A -> Prop) (l l1 l2 : list A) (a b : A) :
  Sorted R l -> l = (l1 ++ a :: b :: l2)%list -> R a b.
Proof.
  revert l. induction l1 as [| c l1 IH]; intros l S ->; simpl in S.
  - inversion S as [| ? ? _ Hd]; subst. now inversion Hd.
  - inversion S as [| ? ? S' _]; subst. exact (IH _ S' eq_refl).
Qed.

Lemma filter_keyed (key : value -> result value) (f : value -> bool) (g : value -> bool)
  (l : list (value * value)) :
  (forall p k, key p = Ok k -> f p = g k) ->
  Forall (keyed_by key) l ->
  filter f (map snd l) = map snd (filter (fun kp => g (fst kp)) l).
Proof.
  intros Hf F. induction F as [| [k p] l K F IH]; simpl; [reflexivity |].
  unfold keyed_by in K. simpl in K. rewrite (Hf _ _ K), IH.
  destruct (g k); reflexivity.
Qed.

Lemma list_sort_reverse (key : value -> result value) (l posts : list value) :
  list_sort key true l = Ok posts ->
  exists kl r,
    keyed key l = Ok kl /\ stable_sort (rev kl) = Ok r /\ posts = map snd (rev r).
Proof.
  unfold list_sort. intro H. bind_inv H. bind_inv H. bind_inv E0.
  injection E0 as <-. injection H as <-. eauto.
Qed.

(** [list.sort(key=..., reverse=True)] puts every element before one whose
    key is not above its own. *)
Lemma list_sort_reverse_adjacent (key : value -> result value)
  (l before after : list value) (p1 p2 : value) :
  Forall (fun p => exists k, key p = Ok k /\ ordered_key k) l ->
  list_sort key true l = Ok (before ++ p1 :: p2 :: after)%list ->
  exists k1 k2, key p1 = Ok k1 /\ key p2 = Ok k2 /\ py_ge k1 k2 = Ok true.
Proof.
  intros O H. apply list_sort_reverse in H. destruct H as (kl & r & K & S & P).
  destruct (keyed_snd _ _ _ K) as [M F].
  assert (Hok : Forall ordered_pair (rev kl)).
  { apply Forall_rev. apply (keyed_ordered key); [exact F | now rewrite M]. }
  assert (Fr : Forall (keyed_by key) r).
  { eapply stable_sort_Forall; [exact S |]. now apply Forall_rev. }
  assert (Or : Forall ordered_pair r) by exact (stable_sort_Forall _ _ _ S Hok).
  symmetry in P. apply map_eq_app in P. destruct P as (l1 & l2 & R & _ & P).
  apply map_eq_cons in P. destruct P as (kp1 & l3 & -> & P1 & P).
  apply map_eq_cons in P. destruct P as (kp2 & l4 & -> & P2 & _).
  apply rev_eq_app in R. simpl in R. rewrite <- !app_assoc in R. simpl in R.
  pose proof (stable_sort_sorted _ _ Hok S) as Sr.
  pose proof (Sorted_adjacent _ _ _ _ _ _ Sr R) as N.
  rewrite Forall_forall in Fr, Or.
  assert (I1 : In kp1 r).
  { rewrite R. apply in_or_app. right. right. now left. }
  assert (I2 : In kp2 r).
  { rewrite R. apply in_or_app. right. now left. }
  exists (fst kp1), (fst kp2). subst p1 p2. repeat split.
  - now apply Fr.
  - now apply Fr.
  - apply py_lt_ge; [exact (Or _ I1) | exact (Or _ I2) | exact N].
Qed.

(** [list.sort(key=..., reverse=True)] keeps the elements of one key in the
    order they had. *)
Lemma list_sort_reverse_stable (key : value -> result value) (k : value)
  (l posts : list value) :
  Forall (fun p => exists k, key p = Ok k /\ ordered_key k) l ->
  list_sort key true l = Ok posts ->
  let same := fun p => match key p with Ok k' => key_eqb k k' | Raise _ => false end in
  filter same posts = filter same l.
Proof.
  intros O H same. apply list_sort_reverse in H. destruct H as (kl & r & K & S & ->).
  destruct (keyed_snd _ _ _ K) as [M F].
  assert (Hok : Forall ordered_pair (rev kl)).
  { apply Forall_rev. apply (keyed_ordered key); [exact F | now rewrite M]. }
  assert (Fr : Forall (keyed_by key) (rev r)).
  { apply Forall_rev. eapply stable_sort_Forall; [exact S |]. now apply Forall_rev. }
  assert (Hs : forall p k', key p = Ok k' -> same p = key_eqb k k').
  { intros p k' E. unfold same. now rewrite E. }
  rewrite (filter_keyed _ _ _ _ Hs Fr), filter_rev, (stable_sort_filter k _ _ Hok S),
    filter_rev, rev_involutive, <- (filter_keyed _ _ _ _ Hs F), M.
  reflexivity.
Qed.

Lemma collect_posts_entries (people posts : list value) :
  collect_posts people = Ok posts ->
  exists entries,
    collected people = Ok entries /\ list_sort published_at true entries = Ok posts /\
    Permutation entries posts.
Proof.
  unfold collect_posts. intro H. bind_inv H. exists a. repeat split; try assumption.
  apply list_sort_reverse in H. destruct H as (kl & r & K & S & ->).
  destruct (keyed_snd _ _ _ K) as [M _].
  rewrite <- M. apply Permutation_map.
  apply perm_trans with (rev kl); [apply Permutation_rev |].
  apply perm_trans with r; [now apply stable_sort_Permutation | apply Permutation_rev].
Qed.

(** C3, as amended.  When the publish timestamps are strings, or numbers
    other than NaN, the list that [collect_posts] returns is sorted by
    publish timestamp, descending: every post is followed by one whose
    timestamp is not above its own. *)
Theorem collect_posts_sorted (people posts before after : list value) (p1 p2 : value) :
  collect_posts people = Ok posts ->
  ordered_posts posts ->
  posts = (before ++ p1 :: p2 :: after)%list ->
  ge_published p1 p2.
Proof.
  intros H O ->. destruct (collect_posts_entries _ _ H) as (entries & _ & L & P).
  apply (list_sort_reverse_adjacent published_at entries before after); [| exact L].
  apply (Permutation_Forall (Permutation_sym P)). exact O.
Qed.

Lemma collect_posts_sorted_witness :
  collect_posts Examples.tie_people = Ok Examples.tie_posts /\
  ordered_posts Examples.tie_posts /\
  ge_published (nth 0 Examples.tie_posts VNone) (nth 1 Examples.tie_posts VNone).
Proof.
  assert (O : ordered_posts Examples.tie_posts).
  { repeat constructor; eexists; (split; [reflexivity |]); left; eexists; reflexivity. }
  split; [reflexivity |]. split; [exact O |].
  exact (collect_posts_sorted Examples.tie_people Examples.tie_posts
           [] [nth 2 Examples.tie_posts VNone] _ _ eq_refl O eq_refl).
Defined.

(** C3, as the claim states it: it fails on a record whose two posts have
    the timestamps NaN and 1, which [json.load] accepts.  The sort leaves
    them in this order, and [NaN >= 1] is false. *)
Lemma collect_posts_nan_unsorted : ~ sorted_descending Examples.nan_people.
Proof.
  intro H.
  destruct (H _ [] [] _ _ eq_refl eq_refl) as (k1 & k2 & E1 & E2 & G).
  vm_compute in E1, E2. injection E1 as <-. injection E2 as <-.
  vm_compute in G. discriminate G.
Qed.

(** C4, as amended.  When the publish timestamps are strings, or numbers
    other than NaN, posts with the same timestamp keep the order in which
    the loops have met them: the sort is stable, also with
    [reverse=True]. *)
Theorem collect_posts_ties_kept (people entries posts : list value) (k : value) :
  collected people = Ok entries ->
  collect_posts people = Ok posts ->
  ordered_posts entries ->
  filter (published_eq k) posts = filter (published_eq k) entries.
Proof.
  unfold collect_posts. intros C H O. rewrite C in H. simpl in H.
  exact (list_sort_reverse_stable published_at k _ _ O H).
Qed.

Lemma collect_posts_ties_kept_witness :
  collected Examples.tie_people = Ok Examples.tie_entries /\
  collect_posts Examples.tie_people = Ok Examples.tie_posts /\
  ordered_posts Examples.tie_entries /\
  filter (published_eq (VStr "2023-01-01")) Examples.tie_posts =
  filter (published_eq (VStr "2023-01-01")) Examples.tie_entries.
Proof.
  assert (O : ordered_posts Examples.tie_entries).
  { repeat constructor; eexists; (split; [reflexivity |]); left; eexists; reflexivity. }
  split; [reflexivity |]. split; [reflexivity |]. split; [exact O |].
  exact (collect_posts_ties_kept Examples.tie_people Examples.tie_entries
           Examples.tie_posts (VStr "2023-01-01") eq_refl eq_refl O).
Defined.

(** C4, as the claim states it: it fails on two records whose posts share
    a timestamp. *)
Lemma collect_posts_ties_not_reversed : ~ ties_reversed Examples.tie_people.
Proof.
  intro H.
  specialize (H _ _ eq_refl eq_refl (VStr "2023-01-01")).
  vm_compute in H. discriminate H.
Qed.

(** *** dict *)

Lemma dict_get_set_same (k : string) (v : value) (d : dict) :
  dict_get k (dict_set k v d) = Some v.
Proof.
  induction d as [| [k' v'] d IH]; simpl.
  - now rewrite String.eqb_refl.
  - destruct (String.eqb k k') eqn:E; simpl; [now rewrite String.eqb_refl |].
    now rewrite E.
Qed.

Lemma dict_get_set_other (k k' : string) (v : value) (d : dict) :
  k' <> k -> dict_get k' (dict_set k v d) = dict_get k' d.
Proof.
  intro N. apply String.eqb_neq in N.
  induction d as [| [k1 v1] d IH]; simpl.
  - now rewrite N.
  - destruct (String.eqb k k1) eqn:E; simpl.
    + apply String.eqb_eq in E. subst k1. now rewrite N.
    + now rewrite IH.
Qed.

Lemma dict_has_false (k : string) (d : dict) :
  dict_has k d = false <-> dict_get k d = None.
Proof. unfold dict_has. destruct (dict_get k d); split; congruence. Qed.

(** *** The caches *)

Lemma number_eqb_refl (n : number) : n <> Nan -> number_eqb n n = true.
Proof.
  unfold number_eqb. destruct n as [| [|] | q]; simpl; try congruence.
  intros _. destruct (Qcompare_spec q q); try reflexivity; lra.
Qed.

(** A key finds itself. *)
Lemma py_same_refl (k : value) : hashable k = true -> py_same k k = true.
Proof.
  destruct k; try discriminate; intros _; simpl; try reflexivity.
  - destruct b; reflexivity.
  - apply number_eqb_refl. discriminate.
  - destruct (float_number f) as [| s | q] eqn:E; [reflexivity | |];
      apply number_eqb_refl; discriminate.
  - apply String.eqb_refl.
Qed.

Lemma py_same_str (k : value) (s : string) : py_same k (VStr s) = true -> k = VStr s.
Proof.
  destruct k; simpl; try discriminate;
    try (destruct (float_number f) as [| [|] | ?]; discriminate).
  intro H. apply String.eqb_eq in H. now subst.
Qed.

Lemma cache_has_false (k : value) (c : cache) :
  cache_has k c = false <-> cache_get k c = None.
Proof. unfold cache_has. destruct (cache_get k c); split; congruence. Qed.

Lemma cache_has_true (k : value) (c : cache) :
  cache_has k c = true <-> exists v, cache_get k c = Some v.
Proof.
  unfold cache_has. destruct (cache_get k c) as [v |]; split; try eauto; try discriminate.
  intros [v H]. discriminate.
Qed.

Lemma cache_set_new (k v : value) (c : cache) :
  cache_get k c = None -> cache_set k v c = (c ++ [(k, v)])%list.
Proof.
  induction c as [| [k' v'] c IH]; simpl; [reflexivity |].
  destruct (py_same k k'); [discriminate |]. intro H. now rewrite IH.
Qed.

Lemma cache_get_app (k : value) (c1 c2 : cache) :
  cache_get k (c1 ++ c2)%list =
  match cache_get k c1 with
  | Some v => Some v
  | None => cache_get k c2
  end.
Proof.
  induction c1 as [| [k' v'] c1 IH]; simpl; [reflexivity |].
  destruct (py_same k k'); [reflexivity | exact IH].
Qed.

Lemma cache_get_set_same (k v : value) (c : cache) :
  hashable k = true -> cache_get k c = None -> cache_get k (cache_set k v c) = Some v.
Proof.
  intros Hk H. rewrite (cache_set_new _ _ _ H), cache_get_app, H. simpl.
  now rewrite (py_same_refl _ Hk).
Qed.

Lemma extends_refl (c : cache) : extends c c.
Proof. now intros k v H. Qed.

Lemma extends_trans (c0 c1 c2 : cache) : extends c0 c1 -> extends c1 c2 -> extends c0 c2.
Proof. intros A B k v H. apply B, A, H. Qed.

Lemma extends_set (c : cache) (k v : value) :
  cache_get k c = None -> extends c (cache_set k v c).
Proof.
  intros H k' v' G. rewrite (cache_set_new _ _ _ H), cache_get_app. now rewrite G.
Qed.

Lemma extends_miss (c0 c : cache) (k : value) :
  extends c0 c -> cache_has k c = false -> cache_has k c0 = false.
Proof.
  intros E H. apply cache_has_false in H. apply cache_has_false.
  destruct (cache_get k c0) as [v |] eqn:G; [| reflexivity].
  rewrite (E _ _ G) in H. discriminate.
Qed.

Lemma extends_has (c1 c2 : cache) (k : value) :
  extends c1 c2 -> cache_has k c1 = true -> cache_has k c2 = true.
Proof.
  unfold cache_has. intros E H. destruct (cache_get k c1) as [v |] eqn:G; [| discriminate].
  now rewrite (E _ _ G).
Qed.

(** The cache that [json.load] builds holds the entries of the file. *)
Lemma cache_get_loaded (k : string) (d : dict) :
  cache_get (VStr k) (loaded d) = dict_get k d.
Proof.
  induction d as [| [k' v'] d IH]; simpl; [reflexivity |].
  destruct (String.eqb k k'); [reflexivity | exact IH].
Qed.

Lemma cache_get_loaded_key (k : value) (d : dict) (v : value) :
  cache_get k (loaded d) = Some v -> exists s, k = VStr s /\ dict_get s d = Some v.
Proof.
  induction d as [| [k' v'] d IH]; simpl; [discriminate |].
  destruct (py_same k (VStr k')) eqn:E.
  - intro H. injection H as <-. apply py_same_str in E. subst k.
    exists k'. simpl. now rewrite String.eqb_refl.
  - intro H. destruct (IH H) as (s & -> & G). exists s. split; [reflexivity |].
    simpl in E. simpl. now rewrite E.
Qed.

(** *** The event log *)

Lemma fetch_log_app (call : value -> event) (c0 : cache) (t1 t2 : list event) :
  fetch_log call c0 t1 -> fetch_log call c0 t2 ->
  fetch_log call c0 (t1 ++ t2).
Proof.
  intros H1 H2. induction H1; simpl; [exact H2 | |]; now constructor.
Qed.

(** What holds of every body of a loop holds of the loop. *)
Lemma for_each_inv {S A B : Type} (body : S -> A -> W (S * B))
  (I : S -> Prop) (Q : B -> Prop) (L : list event -> Prop) :
  L [] ->
  (forall t1 t2, L t1 -> L t2 -> L (t1 ++ t2)%list) ->
  (forall s a tr r, I s -> body s a = (tr, r) ->
     L tr /\ match r with
             | Ok (s', b) => I s' /\ Q b
             | Raise _ => True
             end) ->
  forall l s tr r, I s -> for_each body s l = (tr, r) ->
     L tr /\ match r with
             | Ok (s', bs) => I s' /\ Forall Q bs
             | Raise _ => True
             end.
Proof.
  intros L0 Lapp Hbody. induction l as [| a l IH]; intros s tr r Is H; simpl in H.
  - injection H as <- <-. auto.
  - destruct (body s a) as [t1 [[s1 b] | e]] eqn:Ba.
    + destruct (Hbody _ _ _ _ Is Ba) as [L1 [I1 Qb]].
      simpl in H. destruct (for_each body s1 l) as [t2 [[s2 bs] | e]] eqn:Fl.
      * destruct (IH _ _ _ I1 Fl) as [L2 [I2 Qbs]]. simpl in H.
        injection H as <- <-. rewrite app_nil_r. auto.
      * destruct (IH _ _ _ I1 Fl) as [L2 _]. simpl in H.
        injection H as <- <-. auto.
    + destruct (Hbody _ _ _ _ Is Ba) as [L1 _]. simpl in H.
      injection H as <- <-. auto.
Qed.

(** What relates every element to what the body makes of it, seen from the
    last state, relates the lists of a loop. *)
Lemma for_each_rel {S A B : Type} (body : S -> A -> W (S * B))
  (I : S -> Prop) (le : S -> S -> Prop) (R : S -> A -> B -> Prop) :
  (forall s, le s s) ->
  (forall s1 s2 s3, le s1 s2 -> le s2 s3 -> le s1 s3) ->
  (forall s s' a b, le s s' -> R s a b -> R s' a b) ->
  (forall s a tr s' b, I s -> body s a = (tr, Ok (s', b)) -> I s' /\ le s s' /\ R s' a b) ->
  forall l s tr s' bs,
    I s -> for_each body s l = (tr, Ok (s', bs)) ->
    I s' /\ le s s' /\ Forall2 (R s') l bs.
Proof.
  intros Hrefl Htrans Hmono Hbody.
  induction l as [| a l IH]; intros s tr s' bs Is H; simpl in H.
  - injection H as <- <- <-. split; [exact Is |]. split; [apply Hrefl | constructor].
  - destruct (body s a) as [t1 [[s1 b] | e]] eqn:Ba; simpl in H; [| discriminate].
    destruct (for_each body s1 l) as [t2 [[s2 bs'] | e]] eqn:Fl; simpl in H;
      [| discriminate].
    injection H as <- <- <-.
    destruct (Hbody _ _ _ _ _ Is Ba) as (I1 & L1 & R1).
    destruct (IH _ _ _ _ I1 Fl) as (I2 & L2 & R2).
    split; [exact I2 |]. split; [exact (Htrans _ _ _ L1 L2) |].
    constructor; [exact (Hmono _ _ _ _ L2 R1) | exact R2].
Qed.

(** A loop whose body leaves the state alone and logs nothing. *)
Lemma for_each_replay {S A B : Type} (body : S -> A -> W (S * B)) (s : S)
  (R : A -> B -> Prop) :
  (forall a b, R a b -> body s a = ([], Ok (s, b))) ->
  forall l bs, Forall2 R l bs -> for_each body s l = ([], Ok (s, bs)).
Proof.
  intros Hbody l bs F. induction F as [| a b l bs Rab F IH]; [reflexivity |].
  simpl. rewrite (Hbody _ _ Rab). simpl. rewrite IH. reflexivity.
Qed.

(** A loop whose body never raises on the elements it is given. *)
Lemma for_each_total {S A B : Type} (body : S -> A -> W (S * B)) (P : A -> Prop) :
  (forall s a, P a -> exists tr s' b, body s a = (tr, Ok (s', b))) ->
  forall l s, Forall P l -> exists tr s' bs, for_each body s l = (tr, Ok (s', bs)).
Proof.
  intros Hbody l. induction l as [| a l IH]; intros s F; simpl.
  - now exists [], s, [].
  - inversion F as [| ? ? Pa Fl]; subst.
    destruct (Hbody s a Pa) as (t1 & s1 & b & ->). simpl.
    destruct (IH s1 Fl) as (t2 & s2 & bs & ->). simpl.
    now exists (t1 ++ (t2 ++ []))%list, s2, (b :: bs).
Qed.

Section Enrich.

Variable X : externals.

(** *** update_devto_posts *)

(** The body of the inner loop, case by case. *)
Lemma devto_page_cases (c : cache) (d : dict) :
  devto_page X c (VDict d) =
  match dict_get "url" d with
  | None => ([], Raise (KeyError (VStr "url")))
  | Some url =>
      if hashable url then
        match cache_get url c with
        | Some v => ([], Ok (c, VDict (dict_set "details" v d)))
        | None =>
            match forem_fetch X url with
            | Ok details =>
                ([ForemFetch url; Sleep],
                 Ok (cache_set url details c, VDict (dict_set "details" details d)))
            | Raise e => ([ForemFetch url], Raise e)
            end
        end
      else ([], Raise TypeError)
  end.
Proof.
  unfold devto_page. simpl.
  destruct (dict_get "url" d) as [url |]; [| reflexivity]. simpl.
  unfold cache_in, cache_getitem, cache_setitem, cache_has.
  destruct (hashable url) eqn:Hk; [| reflexivity]. simpl.
  destruct (cache_get url c) as [v |] eqn:G; simpl.
  - rewrite G. reflexivity.
  - destruct (forem_fetch X url) as [details | e]; simpl; [| reflexivity].
    now rewrite (cache_get_set_same _ _ _ Hk G).
Qed.

Lemma devto_page_not_dict (c : cache) (page : value) :
  (forall d, page <> VDict d) -> devto_page X c page = ([], Raise TypeError).
Proof. intro N. destruct page; try reflexivity. now elim (N d). Qed.

Lemma page_of_cache_extends (c1 c2 : cache) (page page' : value) :
  extends c1 c2 -> page_of_cache c1 page page' -> page_of_cache c2 page page'.
Proof.
  intros E (d & url & v & -> & U & Hk & C & ->). exists d, url, v. auto 6.
Qed.

(** What one iteration logs and leaves. *)
Lemma devto_page_spec (c0 c : cache) (page : value) (tr : list event)
  (r : result (cache * value)) :
  extends c0 c ->
  devto_page X c page = (tr, r) ->
  fetch_log ForemFetch c0 tr /\
  match r with
  | Ok (c', page') => extends c c' /\ page_of_cache c' page page'
  | Raise _ => True
  end.
Proof.
  intros E H. destruct page as [| | | | | | d];
    try (rewrite devto_page_not_dict in H by discriminate;
         injection H as <- <-; split; [constructor | exact I]).
  rewrite devto_page_cases in H.
  destruct (dict_get "url" d) as [url |] eqn:U;
    [| injection H as <- <-; split; [constructor | exact I]].
  destruct (hashable url) eqn:Hk;
    [| injection H as <- <-; split; [constructor | exact I]].
  destruct (cache_get url c) as [v |] eqn:G.
  - injection H as <- <-. split; [constructor |]. split; [apply extends_refl |].
    exists d, url, v. auto 6.
  - assert (M : cache_has url c0 = false).
    { apply (extends_miss _ c); [exact E | now apply cache_has_false]. }
    destruct (forem_fetch X url) as [details | e]; injection H as <- <-.
    + split; [apply fetch_pause; [exact M | constructor] |].
      split; [now apply extends_set |].
      exists d, url, details. rewrite (cache_get_set_same _ _ _ Hk G). auto 6.
    + split; [apply fetch_call; [exact M | constructor] | exact I].
Qed.

Lemma devto_pages_log (c0 c : cache) (pages : list value) (tr : list event)
  (r : result (cache * list value)) :
  extends c0 c ->
  devto_pages X c pages = (tr, r) ->
  fetch_log ForemFetch c0 tr.
Proof.
  intros E H.
  refine (proj1 (for_each_inv (devto_page X) (extends c0) (fun _ => True)
                   (fetch_log ForemFetch c0) _ _ _ pages c tr r E H)).
  - constructor.
  - apply fetch_log_app.
  - intros s a t r' Es Hb. destruct (devto_page_spec _ _ _ _ _ Es Hb) as [L R].
    split; [exact L |]. destruct r' as [[s' b] | e]; [| exact I].
    split; [| exact I]. exact (extends_trans _ _ _ Es (proj1 R)).
Qed.

Lemma devto_pages_of_cache (c : cache) (pages : list value) (tr : list event)
  (c' : cache) (pages' : list value) :
  devto_pages X c pages = (tr, Ok (c', pages')) ->
  extends c c' /\ Forall2 (page_of_cache c') pages pages'.
Proof.
  intro H.
  refine (proj2 (for_each_rel (devto_page X) (fun _ => True) extends page_of_cache
                   _ _ _ _ pages c tr c' pages' I H)).
  - apply extends_refl.
  - apply extends_trans.
  - intros s s' a b. apply page_of_cache_extends.
  - intros s a t s' b _ Hb. split; [exact I |].
    exact (proj2 (devto_page_spec s s a t _ (extends_refl s) Hb)).
Qed.

Lemma person_of_cache_extends (c1 c2 : cache) (person person' : value) :
  extends c1 c2 -> person_of_cache c1 person person' -> person_of_cache c2 person person'.
Proof.
  intros E [H | (posts & pages & pages' & G & I & F & ->)]; [now left |].
  right. exists posts, pages, pages'. repeat split; auto.
  clear G I. induction F as [| a b l l' R F IH]; constructor; auto.
  exact (page_of_cache_extends _ _ _ _ E R).
Qed.

Lemma devto_person_spec (c0 c : cache) (person : value) (tr : list event)
  (r : result (cache * value)) :
  extends c0 c ->
  devto_person X c person = (tr, r) ->
  fetch_log ForemFetch c0 tr /\
  match r with
  | Ok (c', person') => extends c c' /\ person_of_cache c' person person'
  | Raise _ => True
  end.
Proof.
  intros E H. unfold devto_person in H.
  destruct (py_in "posts" person) as [has | e] eqn:Hin; simpl in H;
    [| injection H as <- <-; split; [constructor | exact I]].
  destruct has; simpl in H.
  - destruct (getitem person "posts") as [posts | e] eqn:Hp; simpl in H;
      [| injection H as <- <-; split; [constructor | exact I]].
    destruct (py_iter posts) as [pages | e] eqn:Hi; simpl in H;
      [| injection H as <- <-; split; [constructor | exact I]].
    destruct (devto_pages X c pages) as [t1 [[c' pages'] | e]] eqn:Hl; simpl in H;
      injection H as <- <-; rewrite ?app_nil_r;
      (split; [exact (devto_pages_log _ _ _ _ _ E Hl) |]); [| exact I].
    destruct (devto_pages_of_cache _ _ _ _ _ Hl) as [E' F].
    split; [exact E' |]. right. now exists posts, pages, pages'.
  - injection H as <- <-. split; [constructor |].
    split; [apply extends_refl | now left].
Qed.

Lemma devto_people_log (c0 c : cache) (people : list value) (tr : list event)
  (r : result (cache * list value)) :
  extends c0 c ->
  devto_people X c people = (tr, r) ->
  fetch_log ForemFetch c0 tr.
Proof.
  intros E H.
  refine (proj1 (for_each_inv (devto_person X) (extends c0) (fun _ => True)
                   (fetch_log ForemFetch c0) _ _ _ people c tr r E H)).
  - constructor.
  - apply fetch_log_app.
  - intros s a t r' Es Hb. destruct (devto_person_spec _ _ _ _ _ Es Hb) as [L R].
    split; [exact L |]. destruct r' as [[s' b] | e]; [| exact I].
    split; [| exact I]. exact (extends_trans _ _ _ Es (proj1 R)).
Qed.

Lemma devto_people_of_cache (c : cache) (people : list value) (tr : list event)
  (c' : cache) (people' : list value) :
  devto_people X c people = (tr, Ok (c', people')) ->
  extends c c' /\ Forall2 (person_of_cache c') people people'.
Proof.
  intro H.
  refine (proj2 (for_each_rel (devto_person X) (fun _ => True) extends person_of_cache
                   _ _ _ _ people c tr c' people' I H)).
  - apply extends_refl.
  - apply extends_trans.
  - intros s s' a b. apply person_of_cache_extends.
  - intros s a t s' b _ Hb. split; [exact I |].
    exact (proj2 (devto_person_spec s s a t _ (extends_refl s) Hb)).
Qed.

(** A run of [update_devto_posts]: what it logs after loading the cache,
    the records it returns and the cache it saves. *)
Lemma update_devto_posts_spec (fs : files) (people : list value) (tr : list event)
  (r : result (files * list value)) :
  update_devto_posts X fs people = (tr, r) ->
  exists msg tr',
    tr = LogInfo msg :: tr' /\
    fetch_log ForemFetch (loaded (cached fs "forem")) tr' /\
    match r with
    | Ok (fs', people') =>
        exists c',
          fs' = save_cache X fs "forem" c' /\
          extends (loaded (cached fs "forem")) c' /\
          Forall2 (person_of_cache c') people people'
    | Raise _ => True
    end.
Proof.
  unfold update_devto_posts, load_cache. simpl.
  destruct (devto_people X (loaded (cached fs "forem")) people)
    as [t1 [[c' people'] | e]] eqn:H;
    simpl; intro R; injection R as <- <-;
    pose proof (devto_people_log _ _ _ _ _ (extends_refl _) H) as L;
    eexists; eexists; (split; [reflexivity |]); rewrite ?app_nil_r; (split; [exact L |]);
    [| exact I].
  destruct (devto_people_of_cache _ _ _ _ _ H) as [E F].
  exists c'. auto.
Qed.

(** *** update_github_data *)

(** The body of the loop, case by case. *)
Lemma github_person_cases (c : cache) (d : dict) :
  github_person X c (VDict d) =
  match dict_get "github" d with
  | None => ([], Raise (KeyError (VStr "github")))
  | Some id =>
      if hashable id then
        match cache_get id c with
        | Some v => ([], Ok (c, VDict (dict_set "gh" v d)))
        | None =>
            match github_get_user_info X id with
            | Ok data =>
                if truthy data then
                  ([GetUserInfo id; Sleep],
                   Ok (cache_set id data c, VDict (dict_set "gh" data d)))
                else ([GetUserInfo id], Ok (c, VDict d))
            | Raise e => ([GetUserInfo id], Raise e)
            end
        end
      else ([], Raise TypeError)
  end.
Proof.
  unfold github_person. simpl.
  destruct (dict_get "github" d) as [id |]; [| reflexivity]. simpl.
  unfold cache_in, cache_getitem, cache_setitem, cache_has.
  destruct (hashable id) eqn:Hk; [| reflexivity]. simpl.
  destruct (cache_get id c) as [v |] eqn:G; simpl.
  - rewrite ?G. reflexivity.
  - destruct (github_get_user_info X id) as [data | e]; simpl; [| reflexivity].
    destruct (truthy data); simpl; [| reflexivity].
    now rewrite (cache_get_set_same _ _ _ Hk G).
Qed.

Lemma github_person_not_dict (c : cache) (person : value) :
  (forall d, person <> VDict d) -> github_person X c person = ([], Raise TypeError).
Proof. intro N. destruct person; try reflexivity. now elim (N d). Qed.

Lemma gh_of_cache_extends (c0 c1 c2 : cache) (person person' : value) :
  extends c1 c2 -> gh_of_cache c0 c1 person person' -> gh_of_cache c0 c2 person person'.
Proof.
  intros E (d & id & -> & U & [(v & G & ->) | [G ->]]); exists d, id;
    (split; [reflexivity |]); (split; [exact U |]); [left | right]; eauto.
Qed.

Lemma github_person_spec (c0 c : cache) (person : value) (tr : list event)
  (r : result (cache * value)) :
  extends c0 c ->
  github_person X c person = (tr, r) ->
  fetch_log GetUserInfo c0 tr /\
  match r with
  | Ok (c', person') => extends c c' /\ gh_of_cache c0 c' person person'
  | Raise _ => True
  end.
Proof.
  intros E H. destruct person as [| | | | | | d];
    try (rewrite github_person_not_dict in H by discriminate;
         injection H as <- <-; split; [constructor | exact I]).
  rewrite github_person_cases in H.
  destruct (dict_get "github" d) as [id |] eqn:U;
    [| injection H as <- <-; split; [constructor | exact I]].
  destruct (hashable id) eqn:Hk;
    [| injection H as <- <-; split; [constructor | exact I]].
  destruct (cache_get id c) as [v |] eqn:G.
  - injection H as <- <-. split; [constructor |]. split; [apply extends_refl |].
    exists d, id. repeat split; try assumption. left. eauto.
  - assert (M : cache_has id c0 = false).
    { apply (extends_miss _ c); [exact E | now apply cache_has_false]. }
    destruct (github_get_user_info X id) as [data | e];
      [destruct (truthy data) |]; injection H as <- <-.
    + split; [apply fetch_pause; [exact M | constructor] |].
      split; [now apply extends_set |].
      exists d, id. repeat split; try assumption. left. exists data.
      rewrite (cache_get_set_same _ _ _ Hk G). auto.
    + split; [apply fetch_call; [exact M | constructor] |].
      split; [apply extends_refl |].
      exists d, id. repeat split; try assumption. right.
      split; [now apply cache_has_false | reflexivity].
    + split; [apply fetch_call; [exact M | constructor] | exact I].
Qed.

Lemma github_people_log (c0 c : cache) (people : list value) (tr : list event)
  (r : result (cache * list value)) :
  extends c0 c ->
  github_people X c people = (tr, r) ->
  fetch_log GetUserInfo c0 tr.
Proof.
  intros E H.
  refine (proj1 (for_each_inv (github_person X) (extends c0) (fun _ => True)
                   (fetch_log GetUserInfo c0) _ _ _ people c tr r E H)).
  - constructor.
  - apply fetch_log_app.
  - intros s a t r' Es Hb. destruct (github_person_spec _ _ _ _ _ Es Hb) as [L R].
    split; [exact L |]. destruct r' as [[s' b] | e]; [| exact I].
    split; [| exact I]. exact (extends_trans _ _ _ Es (proj1 R)).
Qed.

Lemma github_people_of_cache (c0 c : cache) (people : list value) (tr : list event)
  (c' : cache) (people' : list value) :
  extends c0 c ->
  github_people X c people = (tr, Ok (c', people')) ->
  extends c c' /\ Forall2 (gh_of_cache c0 c') people people'.
Proof.
  intros E H.
  refine (proj2 (for_each_rel (github_person X) (extends c0) extends (gh_of_cache c0)
                   _ _ _ _ people c tr c' people' E H)).
  - apply extends_refl.
  - apply extends_trans.
  - intros s s' a b. apply gh_of_cache_extends.
  - intros s a t s' b Es Hb.
    destruct (github_person_spec _ _ _ _ _ Es Hb) as [_ [E' R]].
    split; [exact (extends_trans _ _ _ Es E') | now split].
Qed.

Lemma update_github_data_spec (fs : files) (people : list value) (tr : list event)
  (r : result (files * list value)) :
  update_github_data X fs people = (tr, r) ->
  exists msg tr',
    tr = LogInfo msg :: tr' /\
    fetch_log GetUserInfo (loaded (cached fs "github_people")) tr' /\
    match r with
    | Ok (fs', people') =>
        exists c',
          fs' = save_cache X fs "github_people" c' /\
          extends (loaded (cached fs "github_people")) c' /\
          Forall2 (gh_of_cache (loaded (cached fs "github_people")) c') people people'
    | Raise _ => True
    end.
Proof.
  unfold update_github_data, load_cache. simpl.
  destruct (github_people X (loaded (cached fs "github_people")) people)
    as [t1 [[c' people'] | e]] eqn:H;
    simpl; intro R; injection R as <- <-;
    pose proof (github_people_log _ _ _ _ _ (extends_refl _) H) as L;
    eexists; eexists; (split; [reflexivity |]); rewrite ?app_nil_r; (split; [exact L |]);
    [| exact I].
  destruct (github_people_of_cache _ _ _ _ _ _ (extends_refl _) H) as [E F].
  exists c'. auto.
Qed.

End Enrich.

(** No call for a cached key is in the log. *)
Lemma fetch_log_forem (c0 : cache) (tr : list event) (k : value) :
  fetch_log ForemFetch c0 tr -> In (ForemFetch k) tr -> cache_has k c0 = false.
Proof.
  induction 1 as [| k' tr M _ IH | k' tr M _ IH]; simpl; intro H.
  - contradiction.
  - destruct H as [H | H]; [now injection H as -> | auto].
  - destruct H as [H | [H | H]]; [now injection H as -> | discriminate | auto].
Qed.

Lemma fetch_log_github (c0 : cache) (tr : list event) (k : value) :
  fetch_log GetUserInfo c0 tr -> In (GetUserInfo k) tr -> cache_has k c0 = false.
Proof.
  induction 1 as [| k' tr M _ IH | k' tr M _ IH]; simpl; intro H.
  - contradiction.
  - destruct H as [H | H]; [now injection H as -> | auto].
  - destruct H as [H | [H | H]]; [now injection H as -> | discriminate | auto].
Qed.

(** A run of each enricher on three records, with one article and one
    profile in the cache: the cached keys are not asked for, the lookup of
    the unknown user is not followed by a pause. *)
Example update_devto_posts_log :
  fst (update_devto_posts Examples.ext Examples.warm_files Examples.raw_people)
  = [LogInfo "load_cache(cache/forem.json)";
     ForemFetch (VStr "https://dev.to/a2"); Sleep;
     ForemFetch (VStr "https://dev.to/b1"); Sleep].
Proof. reflexivity. Qed.

Example update_github_data_log :
  fst (update_github_data Examples.ext Examples.warm_files Examples.raw_people)
  = [LogInfo "load_cache(cache/github_people.json)";
     GetUserInfo (VStr "ghost");
     GetUserInfo (VStr "bob"); Sleep].
Proof. reflexivity. Qed.

(** *** What the enrichers leave of the records *)

Lemma getitem_in (obj : value) (k : string) (v : value) :
  getitem obj k = Ok v -> py_in k obj = Ok true.
Proof.
  destruct obj as [| | | | | | d]; try discriminate. simpl. unfold dict_has.
  destruct (dict_get k d); [reflexivity | discriminate].
Qed.

Lemma same_but_refl (k : string) (a : value) : same_but k a a.
Proof. now intros k' _. Qed.

Lemma same_but_set (k : string) (v : value) (d : dict) :
  same_but k (VDict d) (VDict (dict_set k v d)).
Proof. intros k' N. simpl. now rewrite dict_get_set_other. Qed.

Lemma page_of_cache_details_set (c : cache) (page page' : value) :
  page_of_cache c page page' -> details_set page page'.
Proof.
  intros (d & url & v & -> & _ & _ & _ & ->). split; [| apply same_but_set].
  unfold carries. simpl. unfold dict_has. now rewrite dict_get_set_same.
Qed.

Lemma pages_of_cache_dicts (c : cache) (pages pages' : list value) :
  Forall2 (page_of_cache c) pages pages' ->
  (forall page, In page pages -> exists d, page = VDict d).
Proof.
  induction 1 as [| a b l l' (d & url & v & -> & _ & _ & _ & ->) F IH]; intros page Hin.
  - contradiction.
  - destruct Hin as [<- | Hin]; eauto.
Qed.

Lemma Forall2_right {A B : Type} (R : A -> B -> Prop) (P : B -> Prop)
  (l : list A) (l' : list B) :
  (forall a b, R a b -> P b) -> Forall2 R l l' -> Forall P l'.
Proof. intros H F. induction F; constructor; eauto. Qed.

(** What a record is after the loop, from what its pages are. *)
Lemma person_of_cache_posts (c : cache) (R : value -> value -> Prop) (P : value -> Prop)
  (person person' : value) :
  (forall page page', page_of_cache c page page' -> R page page' /\ P page') ->
  person_of_cache c person person' ->
  same_but "posts" person person' /\ posts_related R person person' /\ posts_all P person'.
Proof.
  intros HR [[Hin ->] | (posts & pages & pages' & G & I & F & ->)].
  - split; [apply same_but_refl |].
    split; intros posts pages G _; rewrite (getitem_in _ _ _ G) in Hin; discriminate.
  - destruct person as [| | | | | | d]; try discriminate.
    assert (Hstr : forall s, In (VStr s) pages -> False).
    { intros s Hs. destruct (pages_of_cache_dicts _ _ _ F _ Hs) as [dp E]. discriminate. }
    assert (FR : Forall2 R pages pages').
    { eapply Forall2_impl; [| exact F]. intros a b Hab. exact (proj1 (HR _ _ Hab)). }
    assert (FP : Forall P pages').
    { apply (Forall2_right _ _ _ _ (fun a b Hab => proj2 (HR a b Hab)) F). }
    destruct posts as [| | | | s | l | dp]; try discriminate; simpl with_items.
    + (* a str: the loop has met no page *)
      simpl in I. injection I as <-.
      destruct s as [| ch s]; [| exfalso; apply (Hstr (String ch "")); now left].
      split; [apply same_but_refl |]. split.
      * intros posts0 pages0 G0 I0. rewrite G in G0. injection G0 as <-.
        simpl in I0. injection I0 as <-.
        exists (VStr ""), []. repeat split; try assumption. constructor.
      * intros posts0 pages0 G0 I0. rewrite G in G0. injection G0 as <-.
        simpl in I0. injection I0 as <-. constructor.
    + simpl in I. injection I as <-.
      split; [apply same_but_set |]. split.
      * intros posts0 pages0 G0 I0. rewrite G in G0. injection G0 as <-.
        simpl in I0. injection I0 as <-.
        exists (VList pages'), pages'. simpl. rewrite dict_get_set_same.
        repeat split. exact FR.
      * intros posts0 pages0 G0 I0. simpl in G0. rewrite dict_get_set_same in G0.
        injection G0 as <-. simpl in I0. injection I0 as <-. exact FP.
    + simpl in I. injection I as <-.
      destruct dp as [| [k v] dp]; [| exfalso; apply (Hstr k); now left].
      split; [apply same_but_refl |]. split.
      * intros posts0 pages0 G0 I0. rewrite G in G0. injection G0 as <-.
        simpl in I0. injection I0 as <-.
        exists (VDict []), []. repeat split; try assumption. constructor.
      * intros posts0 pages0 G0 I0. rewrite G in G0. injection G0 as <-.
        simpl in I0. injection I0 as <-. constructor.
Qed.

Lemma gh_of_cache_same_but (c0 c : cache) (person person' : value) :
  gh_of_cache c0 c person person' -> same_but "gh" person person'.
Proof.
  intros (d & id & -> & _ & [(v & _ & ->) | [_ ->]]);
    [apply same_but_set | apply same_but_refl].
Qed.

(** The value of a key of the loaded file is what the loop attaches. *)
Lemma page_of_cache_attached (d0 : dict) (c : cache) (key : string) (v : value)
  (page page' : value) :
  dict_get key d0 = Some v -> extends (loaded d0) c ->
  page_of_cache c page page' -> attached "url" "details" key v page page'.
Proof.
  intros G E (d & url & v' & -> & U & _ & C & ->) Hu. simpl in Hu. rewrite U in Hu.
  injection Hu as ->. rewrite <- cache_get_loaded in G.
  rewrite (E _ _ G) in C. injection C as <-. reflexivity.
Qed.

Lemma gh_of_cache_attached (d0 : dict) (c : cache) (key : string) (v : value)
  (person person' : value) :
  dict_get key d0 = Some v -> extends (loaded d0) c ->
  gh_of_cache (loaded d0) c person person' -> attached "github" "gh" key v person person'.
Proof.
  intros G E (d & id & -> & U & H) Hu. simpl in Hu. rewrite U in Hu.
  injection Hu as ->. rewrite <- cache_get_loaded in G.
  destruct H as [(v' & C & ->) | [C _]].
  - rewrite (E _ _ G) in C. injection C as <-. reflexivity.
  - congruence.
Qed.

(** C5.  A key that the loaded cache holds is neither fetched nor paused
    for, and the cached value is attached: in every iteration of the run
    that meets the key (it logs nothing and leaves the cache as it is), and
    in a whole run of [update_devto_posts] or [update_github_data] that
    loads the cache, which returns the records it was given, each post or
    record of that key with the cached value as [details] or [gh] and
    nothing else changed. *)
Theorem cached_key_not_fetched (X : externals) (d0 : dict) (key : string) (v : value) :
  dict_get key d0 = Some v ->
  (forall c page,
     extends (loaded d0) c -> getitem page "url" = Ok (VStr key) ->
     exists page', setitem page "details" v = Ok page' /\
                   devto_page X c page = ([], Ok (c, page'))) /\
  (forall c person,
     extends (loaded d0) c -> getitem person "github" = Ok (VStr key) ->
     exists person', setitem person "gh" v = Ok person' /\
                     github_person X c person = ([], Ok (c, person'))) /\
  (forall fs people tr r,
     cached fs "forem" = d0 -> update_devto_posts X fs people = (tr, r) ->
     ~ In (ForemFetch (VStr key)) tr /\
     (exists msg tr', tr = LogInfo msg :: tr' /\ fetch_log ForemFetch (loaded d0) tr') /\
     match r with
     | Ok (_, people') =>
         Forall2 (fun person person' =>
                    same_but "posts" person person' /\
                    posts_related (attached "url" "details" key v) person person')
           people people'
     | Raise _ => True
     end) /\
  (forall fs people tr r,
     cached fs "github_people" = d0 -> update_github_data X fs people = (tr, r) ->
     ~ In (GetUserInfo (VStr key)) tr /\
     (exists msg tr', tr = LogInfo msg :: tr' /\ fetch_log GetUserInfo (loaded d0) tr') /\
     match r with
     | Ok (_, people') =>
         Forall2 (fun person person' =>
                    same_but "gh" person person' /\
                    attached "github" "gh" key v person person')
           people people'
     | Raise _ => True
     end).
Proof.
  intro G.
  assert (Gc : forall c, extends (loaded d0) c -> cache_get (VStr key) c = Some v).
  { intros c E. apply E. now rewrite cache_get_loaded. }
  split; [| split; [| split]].
  - intros c page E U. destruct page as [| | | | | | d]; try discriminate.
    simpl in U. destruct (dict_get "url" d) as [u |] eqn:Eu; [| discriminate].
    injection U as ->. eexists. split; [reflexivity |].
    rewrite devto_page_cases, Eu. simpl. now rewrite (Gc _ E).
  - intros c person E U. destruct person as [| | | | | | d]; try discriminate.
    simpl in U. destruct (dict_get "github" d) as [u |] eqn:Eu; [| discriminate].
    injection U as ->. eexists. split; [reflexivity |].
    rewrite github_person_cases, Eu. simpl. now rewrite (Gc _ E).
  - intros fs people tr r Hfs H.
    destruct (update_devto_posts_spec X _ _ _ _ H) as (msg & tr' & -> & L & P).
    rewrite Hfs in L, P. split; [| split].
    + intros [D | D]; [discriminate |].
      apply (fetch_log_forem _ _ _ L) in D. apply cache_has_false in D.
      rewrite (Gc _ (extends_refl _)) in D. discriminate.
    + eauto.
    + destruct r as [[fs' people'] | e]; [| exact I].
      destruct P as (c' & _ & E & F).
      eapply Forall2_impl; [| exact F]. intros person person' Hp.
      destruct (person_of_cache_posts c' (attached "url" "details" key v) (fun _ => True)
                  person person') as (S & R & _); [| exact Hp | now split].
      intros page page' Hpage. split; [| exact I].
      exact (page_of_cache_attached _ _ _ _ _ _ G E Hpage).
  - intros fs people tr r Hfs H.
    destruct (update_github_data_spec X _ _ _ _ H) as (msg & tr' & -> & L & P).
    rewrite Hfs in L, P. split; [| split].
    + intros [D | D]; [discriminate |].
      apply (fetch_log_github _ _ _ L) in D. apply cache_has_false in D.
      rewrite (Gc _ (extends_refl _)) in D. discriminate.
    + eauto.
    + destruct r as [[fs' people'] | e]; [| exact I].
      destruct P as (c' & _ & E & F).
      eapply Forall2_impl; [| exact F]. intros person person' Hp. split.
      * exact (gh_of_cache_same_but _ _ _ _ Hp).
      * exact (gh_of_cache_attached _ _ _ _ _ _ G E Hp).
Qed.

(** C9.  A profile lookup that finds nothing: the iteration logs the call
    alone (no pause), returns the record and the cache as they were, and
    the loop goes on with the next record. *)
Theorem profile_not_found (X : externals) (c : cache) (person : value)
  (rest : list value) (id : value) (data : value) :
  getitem person "github" = Ok id ->
  cache_in id c = Ok false ->
  github_get_user_info X id = Ok data ->
  truthy data = false ->
  github_person X c person = ([GetUserInfo id], Ok (c, person)) /\
  github_people X c (person :: rest) =
    (GetUserInfo id :: fst (github_people X c rest),
     match snd (github_people X c rest) with
     | Ok (c', rest') => Ok (c', person :: rest')
     | Raise e => Raise e
     end).
Proof.
  intros U M F T.
  assert (S : github_person X c person = ([GetUserInfo id], Ok (c, person))).
  { destruct person as [| | | | | | d]; try discriminate.
    simpl in U. destruct (dict_get "github" d) as [u |] eqn:Eu; [| discriminate].
    injection U as ->. unfold cache_in in M.
    destruct (hashable id) eqn:Hk; [| discriminate]. injection M as M.
    apply cache_has_false in M.
    now rewrite github_person_cases, Eu, Hk, M, F, T. }
  split; [exact S |].
  unfold github_people. simpl. rewrite S. simpl.
  destruct (for_each (github_person X) c rest) as [tr [[c' rest'] | e]]; simpl;
    rewrite ?app_nil_r; reflexivity.
Qed.

(** *** collect_posts and the details field *)

Lemma collect_person_posts_fails (person : value) (posts : list value) (d : dict) :
  In (VDict d) posts -> dict_get "details" d = None ->
  exists e, collect_person_posts person posts = Raise e.
Proof.
  intros Hin Hd. induction posts as [| post posts IH]; [contradiction |].
  simpl. destruct Hin as [-> | Hin].
  - unfold collect_post. simpl. rewrite Hd. simpl. eauto.
  - destruct (collect_post person post) as [entry | e]; simpl; [| eauto].
    destruct (IH Hin) as [e ->]. simpl. eauto.
Qed.

Lemma collected_fails (people : list value) (person : value) :
  In person people -> (exists e, collect_person person = Raise e) ->
  exists e, collected people = Raise e.
Proof.
  intros Hin [e He]. induction people as [| p people IH]; [contradiction |].
  simpl. destruct Hin as [-> | Hin].
  - rewrite He. simpl. eauto.
  - destruct (collect_person p) as [entries | e']; simpl; [| eauto].
    destruct (IH Hin) as [e' ->]. simpl. eauto.
Qed.

Lemma collect_person_posts_stop (person : value) (good later : list value) (d : dict)
  (entries : list value) :
  collect_person_posts person good = Ok entries ->
  dict_get "details" d = None ->
  collect_person_posts person (good ++ VDict d :: later)
  = Raise (KeyError (VStr "details")).
Proof.
  revert entries. induction good as [| post good IH]; intros entries G Hd; simpl in *.
  - unfold collect_post. simpl. now rewrite Hd.
  - destruct (collect_post person post) as [entry | e]; simpl in *; [| discriminate].
    destruct (collect_person_posts person good) as [es | e]; simpl in *; [| discriminate].
    now rewrite (IH _ eq_refl Hd).
Qed.

Lemma collected_stop (before after : list value) (person : value) (done : list value)
  (e : exn) :
  collected before = Ok done ->
  collect_person person = Raise e ->
  collected (before ++ person :: after) = Raise e.
Proof.
  revert done. induction before as [| p before IH]; intros done B P; simpl in *.
  - now rewrite P.
  - destruct (collect_person p) as [entries | e1]; simpl in *; [| discriminate].
    destruct (collected before) as [more | e1]; simpl in *; [| discriminate].
    now rewrite (IH _ eq_refl P).
Qed.

(** What [update_devto_posts] returns: the records it was given, with
    [details] set on every post and nothing else changed. *)
Lemma update_devto_posts_details (X : externals) (fs fs' : files)
  (people people' : list value) (tr : list event) :
  update_devto_posts X fs people = (tr, Ok (fs', people')) ->
  Forall2 (fun person person' =>
             same_but "posts" person person' /\ posts_related details_set person person')
    people people' /\
  Forall (posts_all (carries "details")) people'.
Proof.
  intro H. destruct (update_devto_posts_spec X _ _ _ _ H) as (msg & tr' & _ & _ & P).
  destruct P as (c' & _ & _ & F).
  assert (Hp : forall person person',
             person_of_cache c' person person' ->
             same_but "posts" person person' /\ posts_related details_set person person' /\
             posts_all (carries "details") person').
  { intros person person'.
    apply (person_of_cache_posts c' details_set (carries "details")).
    intros page page' Hpage. pose proof (page_of_cache_details_set _ _ _ Hpage) as D.
    split; [exact D | exact (proj1 D)]. }
  split.
  - eapply Forall2_impl; [| exact F]. intros a b Hab.
    destruct (Hp _ _ Hab) as (S & R & _). now split.
  - apply (Forall2_right _ _ _ _ (fun a b Hab => proj2 (proj2 (Hp a b Hab))) F).
Qed.

(** C10, as amended.  [collect_posts] reads [post['details']] before
    anything else: a post without that key raises [KeyError], whatever else
    it carries, and never takes the fallback branch; it makes the whole
    call fail, with that [KeyError] when the loops get as far as the post
    (the posts and records before it raise nothing).  [update_devto_posts]
    returns the records it was given with [details] set on every post of
    every record that has posts, and nothing else changed. *)
Theorem details_required (X : externals) :
  (forall person d,
     dict_get "details" d = None ->
     collect_post person (VDict d) = Raise (KeyError (VStr "details"))) /\
  (forall people person posts d,
     In person people ->
     getitem person "posts" = Ok (VList posts) ->
     In (VDict d) posts ->
     dict_get "details" d = None ->
     exists e, collect_posts people = Raise e) /\
  (forall before after person good later d done entries,
     collected before = Ok done ->
     getitem person "posts" = Ok (VList (good ++ VDict d :: later)) ->
     collect_person_posts person good = Ok entries ->
     dict_get "details" d = None ->
     collect_posts (before ++ person :: after) = Raise (KeyError (VStr "details"))) /\
  (forall fs people tr fs' people',
     update_devto_posts X fs people = (tr, Ok (fs', people')) ->
     Forall2 (fun person person' =>
                same_but "posts" person person' /\
                posts_related details_set person person')
       people people' /\
     Forall (posts_all (carries "details")) people').
Proof.
  split; [| split; [| split]].
  - intros person d Hd. unfold collect_post. simpl. now rewrite Hd.
  - intros people person posts d Hin Hp Hpost Hd.
    assert (F : exists e, collected people = Raise e).
    { apply (collected_fails _ person Hin).
      destruct person as [| | | | | | dp]; try discriminate.
      unfold collect_person. simpl in *. unfold dict_has.
      destruct (dict_get "posts" dp) as [v |]; [| discriminate].
      injection Hp as ->. simpl.
      exact (collect_person_posts_fails _ _ _ Hpost Hd). }
    destruct F as [e F]. exists e. unfold collect_posts. now rewrite F.
  - intros before after person good later d done entries B Hp G Hd.
    unfold collect_posts.
    rewrite (collected_stop before after person done (KeyError (VStr "details")) B);
      [reflexivity |].
    destruct person as [| | | | | | dp]; try discriminate.
    unfold collect_person. simpl in *. unfold dict_has.
    destruct (dict_get "posts" dp) as [v |]; [| discriminate].
    injection Hp as ->. simpl.
    exact (collect_person_posts_stop _ good later d entries G Hd).
  - intros fs people tr fs' people'. apply update_devto_posts_details.
Qed.

Lemma cached_key_not_fetched_witness :
  dict_get "https://dev.to/a1" (cached Examples.warm_files "forem")
    = Some (Examples.article "First" "2023-01-01") /\
  ~ In (ForemFetch (VStr "https://dev.to/a1")) (fst More.devto_run) /\
  Forall2 (fun person person' =>
             same_but "posts" person person' /\
             posts_related
               (attached "url" "details" "https://dev.to/a1"
                  (Examples.article "First" "2023-01-01"))
               person person')
    Examples.raw_people More.devto_records.
Proof.
  split; [reflexivity |].
  destruct (cached_key_not_fetched Examples.ext
              (cached Examples.warm_files "forem") "https://dev.to/a1"
              (Examples.article "First" "2023-01-01") eq_refl) as (_ & _ & R & _).
  destruct (R Examples.warm_files Examples.raw_people (fst More.devto_run)
              (Ok (More.devto_files, More.devto_records)) eq_refl eq_refl) as (N & _ & F).
  split; [exact N | exact F].
Defined.

Lemma profile_not_found_witness :
  github_person Examples.ext [] (nth 1 Examples.raw_people VNone)
  = ([GetUserInfo (VStr "ghost")], Ok ([], nth 1 Examples.raw_people VNone)).
Proof.
  exact (proj1 (profile_not_found Examples.ext [] (nth 1 Examples.raw_people VNone) []
                  (VStr "ghost") VNone eq_refl eq_refl eq_refl eq_refl)).
Defined.

Lemma details_required_witness :
  (exists e, collect_posts Examples.raw_people = Raise e) /\
  collect_posts Examples.raw_people = Raise (KeyError (VStr "details")) /\
  Forall2 (fun person person' =>
             same_but "posts" person person' /\ posts_related details_set person person')
    Examples.raw_people More.devto_records /\
  Forall (posts_all (carries "details")) More.devto_records.
Proof.
  destruct (details_required Examples.ext) as (_ & F & K & U). split; [| split].
  - apply (F Examples.raw_people (nth 0 Examples.raw_people VNone)
             [Examples.raw_post "https://dev.to/a1" "First" "2023-01-01";
              Examples.raw_post "https://dev.to/a2" "Second" "2023-01-02"]
             [("url", VStr "https://dev.to/a1"); ("title", VStr "First");
              ("published_at", VStr "2023-01-01")]).
    + left. reflexivity.
    + reflexivity.
    + left. reflexivity.
    + reflexivity.
  - exact (K [] (tl Examples.raw_people) (nth 0 Examples.raw_people VNone) []
             [Examples.raw_post "https://dev.to/a2" "Second" "2023-01-02"]
             [("url", VStr "https://dev.to/a1"); ("title", VStr "First");
              ("published_at", VStr "2023-01-01")]
             [] [] eq_refl eq_refl eq_refl eq_refl).
  - exact (U Examples.warm_files Examples.raw_people (fst More.devto_run)
             More.devto_files More.devto_records eq_refl).
Defined.

(** C10, as the claim states it: a post without [details] does not always
    make the call fail with the key-lookup error.  Here the post before it
    has a string as [details], and the call fails with [TypeError] when it
    assigns the author to it. *)
Lemma details_missing_other_error :
  ~ missing_details_key_error Examples.str_details_people.
Proof.
  intro H.
  specialize (H (nth 0 Examples.str_details_people VNone) _
                [("url", VStr "https://dev.to/a2"); ("title", VStr "Second");
                 ("published_at", VStr "2023-01-02")]
                (or_introl eq_refl) eq_refl (or_intror (or_introl eq_refl)) eq_refl).
  vm_compute in H. discriminate H.
Qed.

(** *** read_json_files *)

Lemma substring_all (s : string) : substring 0 (String.length s) s = s.
Proof. induction s as [| c s IH]; simpl; congruence. Qed.

Lemma substring_split (s : string) (k : nat) :
  k <= String.length s ->
  s = substring 0 k s ++ substring k (String.length s - k) s.
Proof.
  revert k. induction s as [| c s IH]; intros k H; simpl in H.
  - destruct k; [reflexivity | lia].
  - destruct k as [| k].
    + change (String.length (String c s) - 0) with (S (String.length s)).
      simpl. now rewrite substring_all.
    + simpl. f_equal. apply IH. lia.
Qed.

(** A name that ends with [p] is its slice before [p], then [p]. *)
Lemma endswith_slice (s p : string) :
  endswith s p = true -> s = slice_to_minus (String.length p) s ++ p.
Proof.
  unfold endswith, slice_to_minus. intro H.
  apply andb_prop in H. destruct H as [L E].
  apply Nat.leb_le in L. apply String.eqb_eq in E.
  rewrite (substring_split s (String.length s - String.length p)) at 1 by lia.
  f_equal. rewrite <- E at 3. f_equal. lia.
Qed.

Lemma length_append (a b : string) :
  String.length (a ++ b) = String.length a + String.length b.
Proof. induction a as [| c a IH]; simpl; congruence. Qed.

(** The checks that follow the format checks of a file name. *)
Lemma read_json_files_well_named (filename : string) (content : result value)
  (rest : list (string * result value)) :
  well_named filename ->
  read_json_files ((filename, content) :: rest) =
  (person <- content ;;
   has <- py_in "github" person ;;
   if negb has then Raise (Exception ("github field is missing from " ++ filename))
   else
     github <- getitem person "github" ;;
     lowered <- lower_method github ;;
     if negb (String.eqb lowered (slice_to_minus 5 filename)) then
       s <- as_str github ;;
       Raise (Exception ("value of github fields '" ++ s
                         ++ "' is not the same as the filename '" ++ filename ++ "'"))
     else
       people <- read_json_files rest ;;
       Ok (person :: people)).
Proof.
  intros (N & E & L). simpl.
  apply String.eqb_neq in N. rewrite N, E. simpl.
  rewrite <- L, String.eqb_refl. reflexivity.
Qed.



(** The two checks of the identifier, and their messages. *)
Lemma read_json_files_missing_field (filename : string) (person : value)
  (rest : list (string * result value)) :
  well_named filename ->
  py_in "github" person = Ok false ->
  let msg := "github field is missing from " ++ filename in
  read_json_files ((filename, Ok person) :: rest) = Raise (Exception msg) /\
  contains filename msg = true.
Proof.
  intros W H msg. split.
  - rewrite (read_json_files_well_named filename (Ok person) rest W). simpl.
    now rewrite H.
  - unfold msg. rewrite <- (append_nil_r filename) at 2.
    apply (contains_append filename "github field is missing from " "").
Qed.

Lemma read_json_files_mismatch (filename : string) (person : value) (github : string)
  (rest : list (string * result value)) :
  well_named filename ->
  getitem person "github" = Ok (VStr github) ->
  lower github <> slice_to_minus 5 filename ->
  let msg := "value of github fields '" ++ github
             ++ "' is not the same as the filename '" ++ filename ++ "'" in
  read_json_files ((filename, Ok person) :: rest) = Raise (Exception msg) /\
  contains filename msg = true.
Proof.
  intros W G N msg. split.
  - rewrite (read_json_files_well_named filename (Ok person) rest W). simpl.
    rewrite (getitem_in _ _ _ G), G. simpl.
    apply String.eqb_neq in N. now rewrite N.
  - unfold msg. do 2 apply contains_after.
    apply (contains_append filename "' is not the same as the filename '").
Qed.

(** An error in the rest of the directory is an error of the whole. *)
Lemma read_json_files_rest_fails (entry : string * result value)
  (rest : list (string * result value)) :
  (exists e, read_json_files rest = Raise e) ->
  exists e, read_json_files (entry :: rest) = Raise e.
Proof.
  intros [e He]. destruct entry as [filename content]. simpl.
  destruct (String.eqb filename ".gitkeep"); [eauto |].
  destruct (endswith filename ".json"); simpl; [| eauto].
  destruct (String.eqb filename (lower filename)); simpl; [| eauto].
  destruct content as [person | e1]; simpl; [| eauto].
  destruct (py_in "github" person) as [[|] | e1]; simpl; eauto.
  destruct (getitem person "github") as [github | e1]; simpl; [| eauto].
  destruct (lower_method github) as [lowered | e1]; simpl; [| eauto].
  destruct (String.eqb lowered (slice_to_minus 5 filename)); simpl.
  - rewrite He. simpl. eauto.
  - destruct (as_str github); simpl; eauto.
Qed.

(** C6.  Every record that [read_json_files] returns comes from a file
    [<id>.json] and its lowercased [github] field is [id]; the call raises
    as soon as the directory holds a file whose record has no [github]
    field or one whose lowercased value is not the stem of the file name. *)
Theorem read_json_files_identifier :
  (forall folder people,
     read_json_files folder = Ok people ->
     Forall2 loaded_from (listed folder) people) /\
  (forall folder filename person,
     In (filename, Ok person) folder ->
     filename <> ".gitkeep" ->
     mismatched filename person ->
     exists e, read_json_files folder = Raise e).
Proof.
  split.
  - induction folder as [| [filename content] folder IH]; intros people H.
    + injection H as <-. constructor.
    + unfold listed. simpl in *.
      destruct (String.eqb filename ".gitkeep") eqn:K; simpl; [now apply IH |].
      destruct (endswith filename ".json") eqn:E; simpl in H; [| discriminate].
      destruct (String.eqb filename (lower filename)); simpl in H; [| discriminate].
      destruct content as [person | e]; simpl in H; [| discriminate].
      destruct (py_in "github" person) as [[|] | e]; simpl in H; try discriminate.
      destruct (getitem person "github") as [github | e] eqn:G; simpl in H; [| discriminate].
      destruct github as [| | | | g | |]; simpl in H; try discriminate.
      destruct (String.eqb (lower g) (slice_to_minus 5 filename)) eqn:S; simpl in H;
        [| discriminate].
      destruct (read_json_files folder) as [people' | e]; simpl in H; [| discriminate].
      injection H as <-. constructor; [| now apply IH].
      split; [reflexivity |]. exists (slice_to_minus 5 filename), g.
      apply String.eqb_eq in S.
      split; [exact (endswith_slice filename ".json" E) |].
      split; [exact G | exact S].
  - induction folder as [| entry folder IH]; intros filename person Hin N M;
      [contradiction |].
    destruct Hin as [-> | Hin];
      [| apply read_json_files_rest_fails; exact (IH _ _ Hin N M)].
    simpl. apply String.eqb_neq in N. rewrite N.
    destruct (endswith filename ".json") eqn:E; simpl; [| eauto].
    destruct (String.eqb filename (lower filename)); simpl; [| eauto].
    destruct M as [M | (g & G & M)].
    + rewrite M. simpl. eauto.
    + rewrite (getitem_in _ _ _ G), G. simpl.
      destruct (String.eqb (lower g) (slice_to_minus 5 filename)) eqn:S; simpl; [| eauto].
      exfalso. apply String.eqb_eq in S.
      exact (M _ (endswith_slice filename ".json" E) S).
Qed.

(** A file name without the [.json] extension: the loader raises at once,
    with a message that is the same for every file. *)
Lemma read_json_files_bad_extension (filename : string) (content : result value)
  (rest : list (string * result value)) :
  filename <> ".gitkeep" ->
  endswith filename ".json" = false ->
  read_json_files ((filename, content) :: rest)
  = Raise (JsonError "file does not end with .json").
Proof.
  intros N E. simpl. apply String.eqb_neq in N. now rewrite N, E.
Qed.

(** A [.json] file name that is not all lower-case: the loader raises at
    once, and the message names the file. *)
Lemma read_json_files_not_lowercase (filename : string) (content : result value)
  (rest : list (string * result value)) :
  filename <> ".gitkeep" ->
  endswith filename ".json" = true ->
  filename <> lower filename ->
  let msg := "filename " ++ filename ++ " should be all lower-case" in
  read_json_files ((filename, content) :: rest) = Raise (Exception msg) /\
  contains filename msg = true.
Proof.
  intros N E L msg. split.
  - simpl. apply String.eqb_neq in N, L. now rewrite N, E, L.
  - apply (contains_append filename "filename ").
Qed.

(** C7.  The claim: a file without the [.json] extension makes the loader
    fail with an error that names the file.  The loader fails, but the
    message of this check, unlike those of the checks that follow it, does
    not hold the file name. *)
Theorem read_json_files_extension_message :
  read_json_files Examples.folder_with_notes
  = Raise (JsonError "file does not end with .json") /\
  contains "notes.txt" "file does not end with .json" = false.
Proof. split; reflexivity. Qed.

Lemma read_json_files_identifier_witness :
  Forall2 loaded_from (listed Examples.folder)
    [VDict [("github", VStr "Alice"); ("name", VStr "Alice")];
     VDict [("github", VStr "bob"); ("name", VStr "Bob")]].
Proof.
  exact (proj1 read_json_files_identifier Examples.folder _ eq_refl).
Defined.

(** *** re.sub *)

Section Sub.

Variables (p : Re.regex) (repl : string).

(** The patterns of the transform start with [<]. *)
Hypothesis p_lt : exists p', p = Re.Chr "<" :: p'.

Lemma match_here_start (st : bool) (s : string) :
  Re.match_here p st s = Re.match_here p false s.
Proof. destruct p_lt as [p' ->]. destruct s; reflexivity. Qed.

Lemma sub_from_start (st : bool) (skip : nat) (s : string) :
  Re.sub_from p repl None st skip s = Re.sub_from p repl None false skip s.
Proof.
  destruct s as [| c s]; [reflexivity |].
  destruct skip; [| reflexivity].
  cbn [Re.sub_from]. now rewrite match_here_start.
Qed.

Lemma sub_from_skip (u rest : string) :
  Re.sub_from p repl None false (String.length u) (u ++ rest)
  = Re.sub_from p repl None false 0 rest.
Proof.
  induction u as [| c u IH]; simpl.
  - destruct rest; reflexivity.
  - exact IH.
Qed.

(** A character that is not [<] is copied. *)
Lemma sub_from_char (c : ascii) (s : string) :
  Ascii.eqb "<" c = false ->
  Re.sub_from p repl None false 0 (String c s)
  = String c (Re.sub_from p repl None false 0 s).
Proof.
  intro E. destruct p_lt as [p' ->]. cbn [Re.sub_from Re.match_here]. now rewrite E.
Qed.

Lemma sub_from_text (u rest : string) :
  has_char "<" u = false ->
  Re.sub_from p repl None false 0 (u ++ rest)
  = u ++ Re.sub_from p repl None false 0 rest.
Proof.
  induction u as [| c u IH]; cbn [append has_char]; intro H; [reflexivity |].
  apply orb_false_elim in H. destruct H as [Hc Hu].
  rewrite sub_from_char by exact Hc. now rewrite IH.
Qed.

(** Where the pattern does not match, the character is copied. *)
Lemma sub_from_no_match (c : ascii) (s : string) :
  Re.match_here p false (String c s) = None ->
  Re.sub_from p repl None false 0 (String c s)
  = String c (Re.sub_from p repl None false 0 s).
Proof. intro E. cbn [Re.sub_from]. now rewrite E. Qed.

(** Where it matches, the match is replaced. *)
Lemma sub_from_match (u rest : string) (gs : list string) (c : ascii) :
  Re.match_here p false (String c u ++ rest) = Some (gs, rest) ->
  Re.sub_from p repl None false 0 (String c u ++ rest)
  = repl ++ Re.sub_from p repl None false 0 rest.
Proof.
  intro E. simpl append in *. cbn [Re.sub_from]. rewrite E.
  replace (String.length (String c (u ++ rest)) - String.length rest)
    with (S (String.length u)).
  - now rewrite sub_from_skip.
  - cbn [String.length]. rewrite length_append. lia.
Qed.

End Sub.

Lemma has_char_append (c : ascii) (a b : string) :
  has_char c (a ++ b) = has_char c a || has_char c b.
Proof. induction a as [| d a IH]; simpl; [reflexivity |]. now rewrite IH, orb_assoc. Qed.

(** A literal pattern matches where the text starts with it. *)
Lemma match_lit_here (p rest : string) (st : bool) :
  Re.match_here (Re.lit p) st (p ++ rest) = Some ([], rest).
Proof.
  revert st. induction p as [| c p IH]; intro st; [reflexivity |].
  cbn [Re.lit append Re.match_here]. now rewrite Ascii.eqb_refl.
Qed.

Lemma match_lit_none (p s : string) (st : bool) :
  String.prefix p s = false -> Re.match_here (Re.lit p) st s = None.
Proof.
  revert st s. induction p as [| c p IH]; intros st s; [destruct s; discriminate |].
  destruct s as [| d s]; [reflexivity |].
  cbn [Re.lit String.prefix Re.match_here].
  destruct (ascii_dec c d) as [-> | N].
  - rewrite Ascii.eqb_refl. apply IH.
  - intros _. apply Ascii.eqb_neq in N. now rewrite N.
Qed.

(** The closing tag does not overlap itself: where it starts inside [u], it
    ends inside [u]. *)
Lemma close_tag_prefix (u rest : string) :
  u <> "" ->
  String.prefix "</h1>" (u ++ "</h1>" ++ rest) = String.prefix "</h1>" u.
Proof.
  intro N.
  destruct u as [| a [| b [| c [| d [| e u]]]]]; [now elim N | ..];
    cbn [append String.prefix];
    repeat match goal with
           | |- context [ascii_dec ?x ?y] =>
               let E := fresh "E" in
               destruct (ascii_dec x y) as [E | E];
               [try discriminate E; try subst | try reflexivity]
           end;
    try reflexivity.
  destruct u; reflexivity.
Qed.

(** [(.*?)</h1>] on what stands between the tags of a heading: the group
    takes it, the match ends after the closing tag. *)
Lemma lazy_any_heading (text rest acc : string) (st : bool) :
  contains "</h1>" text = false -> has_char newline text = false ->
  Re.lazy_any (fun st' t => Re.match_here (Re.lit "</h1>") st' t) st acc
    (text ++ "</h1>" ++ rest)
  = Some ([acc ++ text], rest).
Proof.
  revert acc st. induction text as [| c text IH]; intros acc st L N.
  - rewrite append_nil_r. reflexivity.
  - cbn [has_char] in N.
    apply orb_false_elim in N. destruct N as [Nc N].
    assert (P : String.prefix "</h1>" (String c text) = false /\
                contains "</h1>" text = false).
    { cbn [contains] in L. destruct (String.prefix "</h1>" (String c text)); [discriminate |].
      now split. }
    destruct P as [P L'].
    change (String c text ++ "</h1>" ++ rest)
      with (String c (text ++ "</h1>" ++ rest)).
    cbn [Re.lazy_any].
    change (String c (text ++ "</h1>" ++ rest))
      with (String c text ++ "</h1>" ++ rest).
    rewrite (match_lit_none "</h1>" _ st)
      by (rewrite close_tag_prefix by discriminate; exact P).
    cbn [Re.add_group append]. rewrite Ascii.eqb_sym, Nc.
    rewrite (IH _ _ L' N), append_assoc. reflexivity.
Qed.

Lemma match_heading1 (text rest : string) :
  contains "</h1>" text = false -> has_char newline text = false ->
  Re.match_here re_h1 false ("<h1>" ++ text ++ "</h1>" ++ rest) = Some ([text], rest).
Proof.
  intros L N. unfold re_h1. cbn [app Re.lit append]. match_literal.
  cbn [Re.match_here]. exact (lazy_any_heading text rest "" false L N).
Qed.

Ltac eqb_cases :=
  repeat match goal with
         | |- context [Ascii.eqb ?a ?b] =>
             let E := fresh "E" in
             destruct (Ascii.eqb a b) eqn:E;
             [apply Ascii.eqb_eq in E; subst | try reflexivity]
         end.

(** Neither pattern matches at a tag that is not the one it names. *)
Lemma no_match_tag (name rest : string) :
  token_ok (Tag name) = true ->
  Re.match_here re_h1 false ("<" ++ name ++ ">" ++ rest) = None /\
  Re.match_here re_h2 false ("<" ++ name ++ ">" ++ rest) = None.
Proof.
  cbn [token_ok]. intro H.
  apply andb_prop in H. destruct H as [H N2].
  apply andb_prop in H. destruct H as [H N1].
  apply andb_prop in H. destruct H as [_ G].
  unfold re_h1, re_h2. cbn [app Re.lit append]. match_literal.
  destruct name as [| a [| b [| c name]]];
    cbn [append Re.match_here]; split; eqb_cases; try discriminate.
  all: cbn [has_char] in G; rewrite Ascii.eqb_refl in G;
       repeat (rewrite ?orb_true_r, ?orb_true_l in G; cbn [negb] in G); discriminate.
Qed.

(** The patterns of the README transform, as [generate.py] writes them. *)
Example generate_html_patterns :
  map Re.pattern [re_h1; re_h2] = ["<h1>(.*?)</h1>"; "<h2>"].
Proof. reflexivity. Qed.

Lemma re_h1_lt : exists p', re_h1 = Re.Chr "<" :: p'.
Proof. unfold re_h1. simpl. eauto. Qed.

Lemma re_h2_lt : exists p', re_h2 = Re.Chr "<" :: p'.
Proof. unfold re_h2. simpl. eauto. Qed.

Lemma tag_text (name : string) :
  token_ok (Tag name) = true -> has_char "<" (name ++ ">") = false.
Proof.
  cbn [token_ok]. intro H.
  apply andb_prop in H. destruct H as [H _].
  apply andb_prop in H. destruct H as [H _].
  apply andb_prop in H. destruct H as [L _].
  rewrite has_char_append. apply negb_true_iff in L. now rewrite L.
Qed.

(** A tag is copied by both substitutions. *)
Lemma sub_from_tag (p : Re.regex) (repl name rest : string) :
  (exists p', p = Re.Chr "<" :: p') ->
  token_ok (Tag name) = true ->
  Re.match_here p false ("<" ++ name ++ ">" ++ rest) = None ->
  Re.sub_from p repl None false 0 ("<" ++ name ++ ">" ++ rest)
  = "<" ++ name ++ ">" ++ Re.sub_from p repl None false 0 rest.
Proof.
  intros P T M.
  change ("<" ++ name ++ ">" ++ rest) with (String "<" (name ++ ">" ++ rest)) in *.
  rewrite (sub_from_no_match p repl _ _ M).
  rewrite <- (append_assoc name ">" rest).
  rewrite (sub_from_text p repl P _ _ (tag_text name T)).
  now rewrite append_assoc.
Qed.

(** The first substitution removes every one-line top-level heading and
    nothing else. *)
Lemma sub_h1_render (toks : list token) :
  forallb token_ok toks = true ->
  Re.sub_from re_h1 "" None false 0 (render toks)
  = render (filter (fun t => negb (is_heading1 t)) toks).
Proof.
  induction toks as [| t toks IH]; [reflexivity |].
  cbn [forallb render fold_right]. intro H.
  apply andb_prop in H. destruct H as [T H]. specialize (IH H).
  fold (render toks).
  destruct t as [s | name | text |]; cbn [render_token filter is_heading1 negb].
  - cbn [token_ok] in T. apply negb_true_iff in T.
    rewrite (sub_from_text re_h1 "" re_h1_lt _ _ T), IH. reflexivity.
  - rewrite !append_assoc.
    rewrite (sub_from_tag re_h1 "" name _ re_h1_lt T (proj1 (no_match_tag name _ T))), IH.
    cbn [render fold_right render_token]. now rewrite !append_assoc.
  - cbn [token_ok] in T. apply andb_prop in T. destruct T as [L N].
    apply negb_true_iff in L, N.
    change (("<h1>" ++ text ++ "</h1>") ++ render toks)
      with (String "<" ("h1>" ++ text ++ "</h1>") ++ render toks).
    rewrite (sub_from_match re_h1 "" _ (render toks) [text] "<").
    + exact IH.
    + rewrite <- (match_heading1 text (render toks) L N).
      cbn [append]. now rewrite append_assoc.
  - change ("<h2>" ++ render toks) with (String "<" ("h2>" ++ render toks)).
    rewrite sub_from_no_match by reflexivity.
    rewrite (sub_from_text re_h1 "" re_h1_lt "h2>" _ eq_refl), IH. reflexivity.
Qed.

(** The second substitution gives every [<h2>] the class and copies the
    rest. *)
Lemma sub_h2_render (toks : list token) :
  forallb token_ok toks = true ->
  forallb (fun t => negb (is_heading1 t)) toks = true ->
  Re.sub_from re_h2 h2_title None false 0 (render toks) = transformed toks.
Proof.
  induction toks as [| t toks IH]; [reflexivity |].
  cbn [forallb render transformed fold_right]. intros H N.
  apply andb_prop in H. destruct H as [T H].
  apply andb_prop in N. destruct N as [Nt N]. specialize (IH H N).
  fold (render toks). fold (transformed toks).
  destruct t as [s | name | text |]; cbn [render_token transformed_token].
  - cbn [token_ok] in T. apply negb_true_iff in T.
    rewrite (sub_from_text re_h2 h2_title re_h2_lt _ _ T), IH. reflexivity.
  - rewrite !append_assoc.
    rewrite (sub_from_tag re_h2 h2_title name _ re_h2_lt T (proj2 (no_match_tag name _ T))), IH.
    reflexivity.
  - discriminate.
  - change ("<h2>" ++ render toks) with (String "<" "h2>" ++ render toks).
    rewrite (sub_from_match re_h2 h2_title "h2>" (render toks) [] "<" eq_refl), IH.
    reflexivity.
Qed.

Lemma transformed_filter (toks : list token) :
  transformed (filter (fun t => negb (is_heading1 t)) toks) = transformed toks.
Proof.
  induction toks as [| t toks IH]; [reflexivity |].
  destruct t; simpl; fold (transformed toks); now rewrite <- IH.
Qed.

Lemma forallb_filter {A : Type} (f g : A -> bool) (l : list A) :
  forallb f l = true -> forallb f (filter g l) = true.
Proof.
  induction l as [| a l IH]; [reflexivity |]. simpl. intro H.
  apply andb_prop in H. destruct H as [Ha H].
  destruct (g a); simpl; [rewrite Ha |]; auto.
Qed.

Lemma forallb_filter_self {A : Type} (g : A -> bool) (l : list A) :
  forallb g (filter g l) = true.
Proof.
  induction l as [| a l IH]; [reflexivity |]. simpl.
  destruct (g a) eqn:E; simpl; [rewrite E |]; auto.
Qed.

(** C8, as amended.  When Markdown (with the tables extension) renders the
    README as text, tags and top-level headings written on one line
    (whatever stands between their tags, inline markup included), the
    content is that HTML with every top-level heading removed, the first
    one and the others, and the class [title] on every [<h2>]. *)
Theorem generate_html_content_headings (X : externals) (text : string)
  (toks : list token) :
  forallb token_ok toks = true ->
  markdown_markdown X text ["tables"] = render toks ->
  generate_html_content X text = transformed toks.
Proof.
  intros T M. unfold generate_html_content, Re.sub. rewrite M.
  rewrite (sub_from_start re_h1 "" re_h1_lt true 0), (sub_h1_render toks T).
  rewrite (sub_from_start re_h2 h2_title re_h2_lt true 0), sub_h2_render.
  - apply transformed_filter.
  - now apply forallb_filter.
  - apply forallb_filter_self.
Qed.

Lemma generate_html_content_headings_witness :
  generate_html_content Examples.ext Examples.readme_two_titles
  = transformed Examples.two_titles.
Proof.
  exact (generate_html_content_headings Examples.ext Examples.readme_two_titles
           Examples.two_titles eq_refl eq_refl).
Defined.

(** C8, as the claim states it: with two top-level headings in the README,
    the second one is removed as well. *)
Lemma second_heading_removed :
  ~ first_heading_removed Examples.ext Examples.readme_two_titles.
Proof. unfold first_heading_removed. vm_compute. discriminate. Qed.

(** * Further properties *)

(** ** check_project *)

(** A pattern text made of literal characters and dots matches as
    [strip_host] strips. *)
Lemma match_host (host : string) (p : Re.regex) (c : ascii) (st : bool) (s : string) :
  Re.match_here (Shape.host_items (String c host) ++ p)%list st s =
  match Shape.strip_host (String c host) s with
  | Some r => Re.match_here p false r
  | None => None
  end.
Proof.
  revert c st s. induction host as [| d host IH]; intros c st s.
  - cbn [Shape.host_items Shape.strip_host app].
    destruct (Ascii.eqb c "."); cbn [Re.match_here]; destruct s as [| e s]; try reflexivity.
    + destruct (Ascii.eqb e newline); reflexivity.
    + destruct (Ascii.eqb c e); reflexivity.
  - change (Shape.host_items (String c (String d host)) ++ p)%list
      with ((if Ascii.eqb c "." then Re.Any else Re.Chr c)
            :: (Shape.host_items (String d host) ++ p)%list).
    change (Shape.strip_host (String c (String d host)) s)
      with (match s with
            | String e s' =>
                if (if Ascii.eqb c "." then negb (Ascii.eqb e newline) else Ascii.eqb c e)
                then Shape.strip_host (String d host) s' else None
            | EmptyString => None
            end).
    destruct (Ascii.eqb c "."); cbn [Re.match_here]; destruct s as [| e s]; try reflexivity.
    + destruct (Ascii.eqb e newline); cbn [negb]; [reflexivity | apply IH].
    + destruct (Ascii.eqb c e); [apply IH | reflexivity].
Qed.

(** The three patterns are a host text followed by one or two groups. *)
Lemma check_project_patterns_split :
  re_github_repo
  = Re.Bol :: (Shape.host_items Shape.github
               ++ [Re.NotSlashPlus; Re.Chr "/"; Re.NotSlashPlus; Re.Eol])%list /\
  re_heptapod_repo
  = Re.Bol :: (Shape.host_items Shape.heptapod
               ++ [Re.NotSlashPlus; Re.Chr "/"; Re.NotSlashPlus; Re.Eol])%list /\
  re_github_organization
  = Re.Bol :: (Shape.host_items Shape.github ++ [Re.NotSlashPlus; Re.Eol])%list.
Proof. repeat split; reflexivity. Qed.

Lemma search_owner_repo (host : string) (c : ascii) (url : string) :
  Re.search (Re.Bol :: (Shape.host_items (String c host)
                        ++ [Re.NotSlashPlus; Re.Chr "/"; Re.NotSlashPlus; Re.Eol])%list) url
  = match Shape.owner_repo (String c host) url with
    | Some repo =>
        match Shape.strip_host (String c host) url with
        | Some path => Some [Spec.segment path; repo]
        | None => None
        end
    | None => None
    end.
Proof.
  rewrite search_bol, match_host. unfold Shape.owner_repo.
  destruct (Shape.strip_host (String c host) url) as [path |]; [| reflexivity].
  rewrite match_owner_repo.
  destruct (Spec.after_segment path) as [| e repo]; [reflexivity |].
  destruct (negb (String.eqb (Spec.segment path) "") && negb (String.eqb repo "")
            && String.eqb (Spec.segment repo) repo); reflexivity.
Qed.

Lemma search_owner_only (host : string) (c : ascii) (url : string) :
  Re.search (Re.Bol :: (Shape.host_items (String c host)
                        ++ [Re.NotSlashPlus; Re.Eol])%list) url
  = match Shape.owner_only (String c host) url with
    | Some owner => Some [owner]
    | None => None
    end.
Proof.
  rewrite search_bol, match_host. unfold Shape.owner_only.
  destruct (Shape.strip_host (String c host) url) as [path |]; [| reflexivity].
  rewrite match_owner.
  destruct (negb (String.eqb path "") && String.eqb (Spec.segment path) path); reflexivity.
Qed.

Lemma check_project_classify (url : string) :
  check_project url = Shape.classify url.
Proof.
  unfold check_project, Shape.classify.
  destruct check_project_patterns_split as (-> & -> & ->).
  unfold Shape.github, Shape.heptapod.
  rewrite !search_owner_repo, search_owner_only.
  destruct (Shape.owner_repo "https://github.com/" url) as [repo |] eqn:G.
  - unfold Shape.owner_repo in G.
    destruct (Shape.strip_host "https://github.com/" url); [reflexivity | discriminate].
  - destruct (Shape.owner_repo "https://foss.heptapod.net/" url) as [repo |] eqn:H.
    + unfold Shape.owner_repo in H.
      destruct (Shape.strip_host "https://foss.heptapod.net/" url); [reflexivity | discriminate].
    + destruct (Shape.owner_only "https://github.com/" url); reflexivity.
Qed.

(** X1.  [check_project] recognizes exactly the URLs of the three shapes
    in which each dot of the host name stands for any character but a
    newline, and returns the repo or the owner as the name. *)
Theorem check_project_shape (url : string) :
  check_project url = Shape.classify url.
Proof. exact (check_project_classify url). Qed.


Lemma segment_after_segment (s : string) :
  s = Spec.segment s ++ Spec.after_segment s.
Proof.
  induction s as [| c s IH]; simpl; [reflexivity |].
  destruct (Ascii.eqb c "/"); simpl; congruence.
Qed.

Lemma segment_no_slash (s : string) : has_char "/" (Spec.segment s) = false.
Proof.
  induction s as [| c s IH]; [reflexivity |].
  cbn [Spec.segment]. destruct (Ascii.eqb c "/") eqn:E; [reflexivity |].
  cbn [has_char]. now rewrite Ascii.eqb_sym, E.
Qed.

Lemma strip_host_Some (host url r : string) :
  Shape.strip_host host url = Some r -> exists pre, url = pre ++ r.
Proof.
  revert url. induction host as [| c host IH]; intros url H;
    cbn [Shape.strip_host] in H.
  - injection H as ->. now exists "".
  - destruct url as [| d url]; [discriminate |].
    destruct (if Ascii.eqb c "." then negb (Ascii.eqb d newline) else Ascii.eqb c d);
      [| discriminate].
    destruct (IH _ H) as [pre ->]. now exists (String d pre).
Qed.

Lemma strip_host_slash (host url r : string) :
  Shape.strip_host (host ++ "/") url = Some r -> exists pre, url = pre ++ "/" ++ r.
Proof.
  revert url. induction host as [| c host IH]; intros url H;
    cbn [append Shape.strip_host] in H.
  - destruct url as [| d url]; [discriminate |].
    change (Ascii.eqb "/" ".") with false in H. cbv iota in H.
    destruct (Ascii.eqb "/" d) eqn:E; [| discriminate].
    apply Ascii.eqb_eq in E. subst d. injection H as ->. now exists "".
  - destruct url as [| d url]; [discriminate |].
    destruct (if Ascii.eqb c "." then negb (Ascii.eqb d newline) else Ascii.eqb c d);
      [| discriminate].
    destruct (IH _ H) as [pre ->]. now exists (String d pre).
Qed.

Lemma owner_repo_name (host url repo : string) :
  Shape.owner_repo host url = Some repo ->
  repo <> "" /\ has_char "/" repo = false /\ exists pre, url = pre ++ "/" ++ repo.
Proof.
  unfold Shape.owner_repo.
  destruct (Shape.strip_host host url) as [path |] eqn:S; [| discriminate].
  pose proof (segment_after_segment path) as P.
  destruct (after_segment_head path) as [A | [r A]]; rewrite A in *; [discriminate |].
  destruct (negb (String.eqb (Spec.segment path) "")); [| discriminate]. cbn [andb].
  destruct (String.eqb r "") eqn:N; [discriminate |]. cbn [negb andb].
  destruct (String.eqb (Spec.segment r) r) eqn:G; [| discriminate].
  intro H. injection H as <-.
  apply String.eqb_neq in N. apply String.eqb_eq in G.
  split; [exact N |]. split; [rewrite <- G; apply segment_no_slash |].
  destruct (strip_host_Some _ _ _ S) as [pre ->].
  exists (pre ++ Spec.segment path). rewrite P at 1. now rewrite append_assoc.
Qed.

Lemma owner_only_name (host url owner : string) :
  Shape.owner_only (host ++ "/") url = Some owner ->
  owner <> "" /\ has_char "/" owner = false /\ exists pre, url = pre ++ "/" ++ owner.
Proof.
  unfold Shape.owner_only.
  destruct (Shape.strip_host (host ++ "/") url) as [path |] eqn:S; [| discriminate].
  destruct (String.eqb path "") eqn:N; [discriminate |]. cbn [negb andb].
  destruct (String.eqb (Spec.segment path) path) eqn:G; [| discriminate].
  intro H. injection H as <-.
  apply String.eqb_neq in N. apply String.eqb_eq in G.
  split; [exact N |]. split; [rewrite <- G; apply segment_no_slash |].
  exact (strip_host_slash _ _ _ S).
Qed.

(** X2.  The name that [check_project] gives a recognized URL is the last
    path segment of the URL: it is a non-empty string without a slash, and
    the URL ends with a slash and the name.  The type is one of the three
    tags. *)
Theorem check_project_name (url : string) (url_type name : value) :
  check_project url = (url_type, name) ->
  url_type <> VNone ->
  In url_type project_types /\
  exists s pre,
    name = VStr s /\ s <> "" /\ has_char "/" s = false /\ url = pre ++ "/" ++ s.
Proof.
  rewrite check_project_classify. unfold Shape.classify.
  destruct (Shape.owner_repo Shape.github url) as [repo |] eqn:G.
  { intros H _. injection H as <- <-. split; [simpl; auto |].
    destruct (owner_repo_name _ _ _ G) as (N & S & pre & P). now exists repo, pre. }
  destruct (Shape.owner_repo Shape.heptapod url) as [repo |] eqn:H.
  { intros E _. injection E as <- <-. split; [simpl; auto |].
    destruct (owner_repo_name _ _ _ H) as (N & S & pre & P). now exists repo, pre. }
  destruct (Shape.owner_only Shape.github url) as [owner |] eqn:O.
  { intros E _. injection E as <- <-. split; [simpl; auto |].
    destruct (owner_only_name "https://github.com" _ _ O) as (N & S & pre & P).
    now exists owner, pre. }
  intros E N. injection E as <- <-. now elim N.
Qed.

Lemma check_project_name_witness :
  exists s pre,
    VStr "tool" = VStr s /\ s <> "" /\ has_char "/" s = false /\
    "https://github.com/alice/tool" = pre ++ "/" ++ s.
Proof.
  refine (proj2 (check_project_name "https://github.com/alice/tool"
                   (VStr "github_repo") (VStr "tool") eq_refl _)).
  discriminate.
Defined.

Lemma strip_host_append (a b url : string) :
  Shape.strip_host (a ++ b) url =
  match Shape.strip_host a url with
  | Some rest => Shape.strip_host b rest
  | None => None
  end.
Proof.
  revert url. induction a as [| c a IH]; intro url; [reflexivity |].
  cbn [append Shape.strip_host]. destruct url as [| d url]; [reflexivity |].
  destruct (if Ascii.eqb c "." then negb (Ascii.eqb d newline) else Ascii.eqb c d);
    [apply IH | reflexivity].
Qed.

Lemma strip_host_one_host (url : string) :
  Shape.strip_host Shape.github url <> None ->
  Shape.strip_host Shape.heptapod url = None.
Proof.
  change Shape.github with ("https://" ++ "github.com/").
  change Shape.heptapod with ("https://" ++ "foss.heptapod.net/").
  rewrite !strip_host_append.
  destruct (Shape.strip_host "https://" url) as [[| d rest] |]; try reflexivity.
  cbn [Shape.strip_host]. change (Ascii.eqb "g" ".") with false.
  change (Ascii.eqb "f" ".") with false. cbv iota.
  destruct (Ascii.eqb "g" d) eqn:E.
  - apply Ascii.eqb_eq in E. subst d. reflexivity.
  - intro H. now elim H.
Qed.

(** X3.  At most one of the three patterns of [check_project] matches a
    URL, so the order in which they are tried does not change the
    result. *)
Theorem check_project_one_pattern (url : string) :
  (Re.search re_github_repo url <> None ->
   Re.search re_heptapod_repo url = None /\
   Re.search re_github_organization url = None) /\
  (Re.search re_heptapod_repo url <> None ->
   Re.search re_github_organization url = None).
Proof.
  destruct check_project_patterns_split as (-> & -> & ->).
  unfold Shape.github, Shape.heptapod.
  rewrite !search_owner_repo, search_owner_only.
  fold Shape.github Shape.heptapod.
  unfold Shape.owner_repo, Shape.owner_only.
  destruct (Shape.strip_host Shape.github url) as [path |] eqn:G.
  - rewrite (strip_host_one_host url) by (rewrite G; discriminate).
    split; [| now intros H; elim H].
    intro H. split; [reflexivity |].
    destruct (String.eqb (Spec.segment path) path) eqn:S;
      [| now rewrite andb_false_r].
    apply String.eqb_eq, after_segment_nil in S. rewrite S in H. now elim H.
  - split; [now intros H; elim H |]. reflexivity.
Qed.

Lemma check_project_one_pattern_witness :
  Re.search re_heptapod_repo "https://github.com/alice/tool" = None /\
  Re.search re_github_organization "https://github.com/alice/tool" = None.
Proof.
  refine (proj1 (check_project_one_pattern "https://github.com/alice/tool") _).
  discriminate.
Defined.

(** ** check_projects *)

Section CheckProjectsMore.

Variable X : externals.

Lemma check_url_ok (person url_v entry : value) (tr : list event) :
  check_url X person url_v = (tr, Ok entry) ->
  tr = [] /\ project_entry url_v = Some entry.
Proof.
  unfold check_url, project_entry.
  destruct url_v as [| | | | url | |]; simpl; try discriminate.
  destruct (check_project url) as [url_type name]. simpl.
  destruct (truthy url_type); simpl.
  - intro H. injection H as <- <-. auto.
  - destruct (invalid_project X url person) as [msg | e]; simpl; discriminate.
Qed.

Lemma check_urls_ok (person : value) (urls entries : list value) (tr : list event) :
  check_urls X person urls = (tr, Ok entries) ->
  tr = [] /\ Forall2 (fun u e => project_entry u = Some e) urls entries.
Proof.
  revert entries tr. induction urls as [| u urls IH]; intros entries tr H; simpl in H.
  - injection H as <- <-. auto.
  - destruct (check_url X person u) as [t1 [entry | e]] eqn:U; simpl in H; [| discriminate].
    destruct (check_urls X person urls) as [t2 [es | e]] eqn:R; simpl in H; [| discriminate].
    injection H as <- <-.
    destruct (check_url_ok _ _ _ _ U) as [-> P].
    destruct (IH _ _ eq_refl) as [-> F]. auto.
Qed.

Lemma check_person_ok (person person' : value) (projects : list value) (tr : list event) :
  check_person X person = (tr, Ok (person', projects)) ->
  tr = [] /\ checked person person' /\ projects = projects_of person'.
Proof.
  unfold check_person.
  destruct (py_in "projects" person) as [[|] | e] eqn:Hin; simpl; try discriminate.
  - destruct (getitem person "projects") as [declared | e] eqn:G; simpl; [| discriminate].
    destruct (py_iter declared) as [urls | e] eqn:I; simpl; [| discriminate].
    destruct (check_urls X person urls) as [t1 [entries | e]] eqn:U; simpl; [| discriminate].
    destruct (setitem person "projects" (VList entries)) as [p' | e] eqn:S; simpl;
      [| discriminate].
    intro H. injection H as <- <- <-.
    destruct (check_urls_ok _ _ _ _ U) as [-> F].
    split; [reflexivity |]. split.
    + right. exists declared, urls, entries. auto.
    + destruct person as [| | | | | | d]; try discriminate.
      injection S as <-. unfold projects_of. simpl.
      now rewrite dict_get_set_same.
  - intro H. injection H as <- <- <-.
    split; [reflexivity |]. split; [now left |].
    unfold projects_of. destruct person as [| | | | | | d]; try reflexivity.
    simpl in *. injection Hin as Hin. unfold dict_has in Hin.
    destruct (dict_get "projects" d); [discriminate | reflexivity].
Qed.

Lemma check_projects_ok (people people' all_projects : list value)
  (tr : list event) :
  check_projects X people = (tr, Ok (people', all_projects)) ->
  tr = [] /\
  Forall2 checked people people' /\
  all_projects = flat_map projects_of people'.
Proof.
  revert people' all_projects tr.
  induction people as [| person people IH]; intros people' all_projects tr H; simpl in H.
  - injection H as <- <- <-. repeat split. constructor.
  - destruct (check_person X person) as [t1 [[p' ps] | e]] eqn:P; simpl in H; [| discriminate].
    destruct (check_projects X people) as [t2 [[r a] | e]] eqn:R; simpl in H; [| discriminate].
    injection H as <- <- <-.
    destruct (check_person_ok _ _ _ _ P) as (-> & C & ->).
    destruct (IH _ _ _ eq_refl) as (-> & F & ->).
    repeat split. now constructor.
Qed.

(** X4.  A call of [check_projects] that returns has logged nothing; each
    record that declares projects holds, in the place of its URLs, the
    entries with the URL and the name [check_project] gives it, in order;
    the other records are as they were; [all_projects] is the entries of
    the records, one record after the other. *)
Theorem check_projects_returns (people people' all_projects : list value)
  (tr : list event) :
  check_projects X people = (tr, Ok (people', all_projects)) ->
  tr = [] /\
  Forall2 checked people people' /\
  all_projects = flat_map projects_of people'.
Proof. exact (check_projects_ok people people' all_projects tr). Qed.


Lemma checked_other_field (person person' : value) (k : string) :
  checked person person' -> k <> "projects" -> getitem person' k = getitem person k.
Proof.
  intros [[_ ->] | (declared & urls & entries & G & _ & _ & S)] N; [reflexivity |].
  destruct person as [| | | | | | d]; try discriminate.
  injection S as <-. simpl. now rewrite dict_get_set_other.
Qed.

(** X5.  [check_projects] changes no field of a record but [projects]:
    the records it returns are as many as it was given and hold under every
    other key what they held. *)
Theorem check_projects_other_fields (people people' all_projects : list value)
  (tr : list event) (k : string) :
  check_projects X people = (tr, Ok (people', all_projects)) ->
  k <> "projects" ->
  Forall2 (fun person person' => getitem person' k = getitem person k) people people'.
Proof.
  intros H N. destruct (check_projects_ok _ _ _ _ H) as (_ & F & _).
  clear H. induction F as [| p p' l l' C F IH]; [constructor |].
  constructor; [now apply checked_other_field | exact IH].
Qed.

Lemma dict_set_twice (k : string) (v : value) (d : dict) :
  dict_set k v (dict_set k v d) = dict_set k v d.
Proof.
  induction d as [| [k' v'] d IH]; simpl.
  - now rewrite String.eqb_refl.
  - destruct (String.eqb k k') eqn:E; simpl.
    + now rewrite String.eqb_refl.
    + now rewrite E, IH.
Qed.

Lemma project_entry_dict (u e : value) :
  project_entry u = Some e -> exists d, e = VDict d.
Proof.
  unfold project_entry. destruct u as [| | | | url | |]; try discriminate.
  destruct (truthy (fst (check_project url))); [| discriminate].
  intro H. injection H as <-. eauto.
Qed.

(** A record that [check_projects] has returned, given to it again. *)
Lemma check_person_again (person person' : value) :
  checked person person' ->
  (projects_of person' = [] /\ check_person X person' = ([], Ok (person', []))) \/
  (projects_of person' <> [] /\ check_person X person' = ([], Raise TypeError)).
Proof.
  intros [[Hin ->] | (declared & urls & entries & G & _ & F & S)].
  - left. unfold check_person. rewrite Hin. simpl. split; [| reflexivity].
    unfold projects_of. destruct person as [| | | | | | d]; try reflexivity.
    simpl in *. injection Hin as Hin. unfold dict_has in Hin.
    destruct (dict_get "projects" d); [discriminate | reflexivity].
  - destruct person as [| | | | | | d]; try discriminate.
    injection S as <-. unfold projects_of, check_person. simpl. unfold dict_has.
    rewrite dict_get_set_same. simpl.
    destruct F as [| u e urls entries P F].
    + left. simpl. now rewrite dict_set_twice.
    + right. split; [discriminate |].
      destruct (project_entry_dict _ _ P) as [de ->]. reflexivity.
Qed.

(** X6.  [check_projects] cannot be run again on the records it has
    returned: as soon as one of them has a project, the entry that has
    taken the place of the URL is not a string, and the second call raises
    [TypeError] (before it logs anything). *)
Theorem check_projects_twice (people people' all_projects : list value)
  (tr : list event) :
  check_projects X people = (tr, Ok (people', all_projects)) ->
  all_projects <> [] ->
  check_projects X people' = ([], Raise TypeError).
Proof.
  intros H N. destruct (check_projects_ok _ _ _ _ H) as (_ & F & ->).
  clear H. induction F as [| p p' l l' C F IH]; [now elim N |].
  simpl in *.
  destruct (check_person_again _ _ C) as [[E ->] | [_ ->]]; [| reflexivity].
  rewrite E in N. simpl in N. rewrite (IH N). reflexivity.
Qed.

End CheckProjectsMore.

Lemma check_projects_returns_witness :
  Forall2 checked [nth 0 Examples.invalid_people VNone]
    [VDict [("github", VStr "alice"); ("name", VStr "Alice");
            ("projects",
             VList [VDict [("url", VStr "https://github.com/alice/tool");
                           ("name", VStr "tool")]])]].
Proof.
  exact (proj1 (proj2 (check_projects_returns Examples.ext
                         [nth 0 Examples.invalid_people VNone] _ _ _ eq_refl))).
Defined.

Lemma check_projects_other_fields_witness :
  Forall2 (fun person person' => getitem person' "name" = getitem person "name")
    [nth 0 Examples.invalid_people VNone]
    [VDict [("github", VStr "alice"); ("name", VStr "Alice");
            ("projects",
             VList [VDict [("url", VStr "https://github.com/alice/tool");
                           ("name", VStr "tool")]])]].
Proof.
  refine (check_projects_other_fields Examples.ext
            [nth 0 Examples.invalid_people VNone] _ _ _ "name" eq_refl _).
  discriminate.
Defined.

Lemma check_projects_twice_witness :
  check_projects Examples.ext
    [VDict [("github", VStr "alice"); ("name", VStr "Alice");
            ("projects",
             VList [VDict [("url", VStr "https://github.com/alice/tool");
                           ("name", VStr "tool")]])]]
  = ([], Raise TypeError).
Proof.
  refine (check_projects_twice Examples.ext
            [nth 0 Examples.invalid_people VNone] _ _ _ eq_refl _).
  discriminate.
Defined.
(** ** update_devto_posts and update_github_data *)

(** A loop keeps what every body keeps, on the elements it is given. *)
Lemma for_each_keeps {S A B : Type} (body : S -> A -> W (S * B))
  (I : S -> Prop) (P : A -> Prop) :
  (forall s a tr s' b, I s -> P a -> body s a = (tr, Ok (s', b)) -> I s') ->
  forall l s tr s' bs,
    Forall P l -> I s -> for_each body s l = (tr, Ok (s', bs)) -> I s'.
Proof.
  intros Hbody. induction l as [| a l IH]; intros s tr s' bs F Is H; simpl in H.
  - now injection H as <- <- <-.
  - inversion F as [| ? ? Pa Fl]; subst.
    destruct (body s a) as [t1 [[s1 b] | e]] eqn:Ba; simpl in H; [| discriminate].
    destruct (for_each body s1 l) as [t2 [[s2 bs'] | e]] eqn:Fl'; simpl in H;
      [| discriminate].
    injection H as <- <- <-.
    exact (IH _ _ _ _ Fl (Hbody _ _ _ _ _ Is Pa Ba) Fl').
Qed.

Lemma posts_all_list (P : value -> Prop) (d : dict) (pages : list value) :
  dict_get "posts" d = Some (VList pages) -> Forall P pages -> posts_all P (VDict d).
Proof.
  intros G F posts pages' Hp Hi. simpl in Hp. rewrite G in Hp. injection Hp as <-.
  simpl in Hi. now injection Hi as <-.
Qed.

Lemma posts_all_none (P : value -> Prop) (d : dict) :
  dict_get "posts" d = None -> posts_all P (VDict d).
Proof. intros G posts pages Hp. simpl in Hp. rewrite G in Hp. discriminate. Qed.

(** *** The cache file *)

Lemma dict_get_notin (k : string) (d : dict) :
  dict_get k d = None <-> ~ In k (map fst d).
Proof.
  induction d as [| [k' v'] d IH]; simpl; [tauto |].
  destruct (String.eqb k k') eqn:E.
  - apply String.eqb_eq in E. subst. split; [discriminate | intro H; elim H; now left].
  - apply String.eqb_neq in E. rewrite IH. split.
    + intros H [H' | H']; [congruence | tauto].
    + tauto.
Qed.

Lemma dict_get_In (k : string) (v : value) (d : dict) :
  dict_get k d = Some v -> In (k, v) d.
Proof.
  induction d as [| [k' v'] d IH]; simpl; [discriminate |].
  destruct (String.eqb k k') eqn:E.
  - apply String.eqb_eq in E. subst. intro H. injection H as <-. now left.
  - intro H. right. now apply IH.
Qed.

Lemma In_dict_get (k : string) (v : value) (d : dict) :
  NoDup (map fst d) -> In (k, v) d -> dict_get k d = Some v.
Proof.
  induction d as [| [k' v'] d IH]; simpl; [contradiction |].
  intros N [H | H]; inversion N as [| ? ? Nk Nd]; subst.
  - injection H as -> ->. now rewrite String.eqb_refl.
  - destruct (String.eqb k k') eqn:E; [| now apply IH].
    apply String.eqb_eq in E. subst. elim Nk.
    change k' with (fst (k', v)). now apply in_map.
Qed.

Lemma dict_set_new (k : string) (v : value) (d : dict) :
  dict_get k d = None -> dict_set k v d = (d ++ [(k, v)])%list.
Proof.
  induction d as [| [k' v'] d IH]; simpl; [reflexivity |].
  destruct (String.eqb k k'); [discriminate |]. intro H. now rewrite IH.
Qed.

Lemma In_loaded (k v : value) (d : dict) :
  In (k, v) (loaded d) <-> exists s, k = VStr s /\ In (s, v) d.
Proof.
  unfold loaded. rewrite in_map_iff. split.
  - intros ([s w] & E & H). injection E as <- <-. eauto.
  - intros (s & -> & H). now exists (s, v).
Qed.

Section CacheFile.

Variable X : externals.

(** Saving and loading a cache whose keys are strings gives it back. *)
Lemma dumped_from (d acc : dict) :
  NoDup (map fst (acc ++ d)) ->
  fold_left (fun a kv => dict_set (json_key X (fst kv)) (snd kv) a) (loaded d) acc
  = (acc ++ d)%list.
Proof.
  revert acc. induction d as [| [k v] d IH]; intros acc N; simpl.
  - now rewrite app_nil_r.
  - assert (G : dict_get k acc = None).
    { apply dict_get_notin. intro H. rewrite map_app in N.
      apply NoDup_remove_2 in N. apply N. apply in_or_app. now left. }
    rewrite (dict_set_new _ _ _ G), IH.
    + now rewrite <- app_assoc.
    + now rewrite <- app_assoc.
Qed.

Lemma dumped_loaded (d : dict) : NoDup (map fst d) -> dumped X (loaded d) = d.
Proof. intro N. unfold dumped. now rewrite (dumped_from d []). Qed.

Lemma str_keys_loaded (d : dict) : NoDup (map fst d) -> str_keys (loaded d).
Proof. intro N. now exists d. Qed.

Lemma str_keys_set (c : cache) (k : string) (v : value) :
  str_keys c -> cache_get (VStr k) c = None -> str_keys (cache_set (VStr k) v c).
Proof.
  intros (d & -> & N) G. rewrite (cache_set_new _ _ _ G).
  exists (d ++ [(k, v)])%list. split.
  - unfold loaded. now rewrite map_app.
  - rewrite cache_get_loaded in G. apply dict_get_notin in G.
    rewrite map_app. apply NoDup_app; [exact N | repeat constructor; intros [] |].
    intros a Ha [<- | []]. exact (G Ha).
Qed.

(** *** The cache after a run *)

Lemma grown_by_refl (P : value -> value -> Prop) (c : cache) : grown_by P c c.
Proof. intros k v H. now left. Qed.

Lemma grown_by_set (P : value -> value -> Prop) (c0 c : cache) (k v : value) :
  grown_by P c0 c -> cache_get k c = None -> P k v -> grown_by P c0 (cache_set k v c).
Proof.
  intros G N Pk k' v' H. rewrite (cache_set_new _ _ _ N) in H.
  apply in_app_or in H. destruct H as [H | [H | []]]; [now apply G |].
  injection H as <- <-. now right.
Qed.

Lemma devto_page_grown (c0 c : cache) (page : value) (tr : list event)
  (c' : cache) (page' : value) :
  grown_by (fun k v => forem_fetch X k = Ok v) c0 c ->
  devto_page X c page = (tr, Ok (c', page')) ->
  grown_by (fun k v => forem_fetch X k = Ok v) c0 c'.
Proof.
  intros G H. destruct page as [| | | | | | d];
    try (rewrite devto_page_not_dict in H by discriminate; discriminate).
  rewrite devto_page_cases in H.
  destruct (dict_get "url" d) as [url |]; [| discriminate].
  destruct (hashable url); [| discriminate].
  destruct (cache_get url c) as [v |] eqn:C.
  - injection H as <- <- <-. exact G.
  - destruct (forem_fetch X url) as [details | e] eqn:F; [| discriminate].
    injection H as <- <- <-. now apply grown_by_set.
Qed.

Lemma github_person_grown (c0 c : cache) (person : value) (tr : list event)
  (c' : cache) (person' : value) :
  grown_by (fun k v => github_get_user_info X k = Ok v /\ truthy v = true) c0 c ->
  github_person X c person = (tr, Ok (c', person')) ->
  grown_by (fun k v => github_get_user_info X k = Ok v /\ truthy v = true) c0 c'.
Proof.
  intros G H. destruct person as [| | | | | | d];
    try (rewrite github_person_not_dict in H by discriminate; discriminate).
  rewrite github_person_cases in H.
  destruct (dict_get "github" d) as [id |]; [| discriminate].
  destruct (hashable id); [| discriminate].
  destruct (cache_get id c) as [v |] eqn:C.
  - injection H as <- <- <-. exact G.
  - destruct (github_get_user_info X id) as [data | e] eqn:F; [| discriminate].
    destruct (truthy data) eqn:T; injection H as <- <- <-; [| exact G].
    now apply grown_by_set.
Qed.

Lemma devto_person_keeps (I : cache -> Prop) (P : value -> Prop) (c : cache)
  (person : value) (tr : list event) (c' : cache) (person' : value) :
  (forall s a t s' b, I s -> P a -> devto_page X s a = (t, Ok (s', b)) -> I s') ->
  posts_all P person -> I c ->
  devto_person X c person = (tr, Ok (c', person')) -> I c'.
Proof.
  intros Hbody A Ic H. unfold devto_person in H.
  destruct (py_in "posts" person) as [[|] | e]; simpl in H; try discriminate.
  - destruct (getitem person "posts") as [posts | e] eqn:G; simpl in H; [| discriminate].
    destruct (py_iter posts) as [pages | e] eqn:Hi; simpl in H; [| discriminate].
    destruct (devto_pages X c pages) as [t1 [[c1 pages'] | e]] eqn:L; simpl in H;
      [| discriminate].
    injection H as <- <- <-.
    exact (for_each_keeps (devto_page X) I P Hbody pages c t1 c1 pages' (A _ _ G Hi) Ic L).
  - now injection H as <- <- <-.
Qed.

Lemma devto_people_keeps (I : cache -> Prop) (P : value -> Prop) (c : cache)
  (people : list value) (tr : list event) (c' : cache) (people' : list value) :
  (forall s a t s' b, I s -> P a -> devto_page X s a = (t, Ok (s', b)) -> I s') ->
  Forall (posts_all P) people -> I c ->
  devto_people X c people = (tr, Ok (c', people')) -> I c'.
Proof.
  intros Hbody. apply (for_each_keeps (devto_person X) I (posts_all P)).
  intros s a t s' b Is Pa. now apply (devto_person_keeps I P).
Qed.

Lemma devto_page_str_keys (c : cache) (page : value) (tr : list event)
  (c' : cache) (page' : value) :
  str_keys c -> str_field "url" page ->
  devto_page X c page = (tr, Ok (c', page')) -> str_keys c'.
Proof.
  intros S [url U] H. destruct page as [| | | | | | d]; try discriminate.
  rewrite devto_page_cases in H. simpl in U.
  destruct (dict_get "url" d) as [u |]; [| discriminate]. injection U as ->.
  simpl in H. destruct (cache_get (VStr url) c) as [v |] eqn:C.
  - now injection H as <- <- <-.
  - destruct (forem_fetch X (VStr url)) as [details | e]; [| discriminate].
    injection H as <- <- <-. now apply str_keys_set.
Qed.

Lemma github_person_str_keys (c : cache) (person : value) (tr : list event)
  (c' : cache) (person' : value) :
  str_keys c -> str_field "github" person ->
  github_person X c person = (tr, Ok (c', person')) -> str_keys c'.
Proof.
  intros S [id U] H. destruct person as [| | | | | | d]; try discriminate.
  rewrite github_person_cases in H. simpl in U.
  destruct (dict_get "github" d) as [u |]; [| discriminate]. injection U as ->.
  simpl in H. destruct (cache_get (VStr id) c) as [v |] eqn:C.
  - now injection H as <- <- <-.
  - destruct (github_get_user_info X (VStr id)) as [data | e]; [| discriminate].
    destruct (truthy data); injection H as <- <- <-; [now apply str_keys_set | exact S].
Qed.

(** What a run leaves in memory and on disk. *)
Lemma update_devto_posts_cache (fs fs' : files) (people people' : list value)
  (tr : list event) :
  update_devto_posts X fs people = (tr, Ok (fs', people')) ->
  exists c',
    fs' = save_cache X fs "forem" c' /\
    extends (loaded (cached fs "forem")) c' /\
    grown_by (fun k v => forem_fetch X k = Ok v) (loaded (cached fs "forem")) c' /\
    Forall2 (person_of_cache c') people people' /\
    (NoDup (map fst (cached fs "forem")) -> Forall str_urls people -> str_keys c').
Proof.
  unfold update_devto_posts, load_cache. simpl.
  destruct (devto_people X (loaded (cached fs "forem")) people)
    as [t1 [[c' p1] | e]] eqn:L; simpl; [| discriminate].
  intro H. injection H as <- <- <-.
  destruct (devto_people_of_cache X _ _ _ _ _ L) as [E F].
  exists c'. repeat split; try assumption.
  - refine (devto_people_keeps _ (fun _ => True) _ _ _ _ _ _ _ (grown_by_refl _ _) L).
    + intros s a t s' b Is _. now apply devto_page_grown.
    + clear. induction people; constructor; auto. intros posts pages _ _.
      clear. induction pages; constructor; auto.
  - intros N S.
    refine (devto_people_keeps str_keys (str_field "url") _ _ _ _ _ _ S
              (str_keys_loaded _ N) L).
    intros s a t s' b. apply devto_page_str_keys.
Qed.

Lemma update_github_data_cache (fs fs' : files) (people people' : list value)
  (tr : list event) :
  update_github_data X fs people = (tr, Ok (fs', people')) ->
  exists c',
    fs' = save_cache X fs "github_people" c' /\
    extends (loaded (cached fs "github_people")) c' /\
    grown_by (fun k v => github_get_user_info X k = Ok v /\ truthy v = true)
      (loaded (cached fs "github_people")) c' /\
    (NoDup (map fst (cached fs "github_people")) ->
     Forall (str_field "github") people -> str_keys c').
Proof.
  unfold update_github_data, load_cache. simpl.
  destruct (github_people X (loaded (cached fs "github_people")) people)
    as [t1 [[c' p1] | e]] eqn:L; simpl; [| discriminate].
  intro H. injection H as <- <- <-.
  destruct (github_people_of_cache X _ _ _ _ _ _ (extends_refl _) L) as [E F].
  exists c'. repeat split; try assumption.
  - refine (for_each_keeps (github_person X) _ (fun _ => True) _ people _ _ _ _ _
              (grown_by_refl _ _) L).
    + intros s a t s' b Is _. now apply github_person_grown.
    + clear. induction people; constructor; auto.
  - intros N S.
    refine (for_each_keeps (github_person X) str_keys (str_field "github") _ people
              _ _ _ _ S (str_keys_loaded _ N) L).
    intros s a t s' b. apply github_person_str_keys.
Qed.

(** The file of a cache whose keys are strings. *)
Lemma saved_str_keys (fs : files) (name : string) (c0 c' : cache) (P : value -> value -> Prop) :
  c0 = loaded (cached fs name) ->
  NoDup (map fst (cached fs name)) ->
  str_keys c' -> extends c0 c' -> grown_by P c0 c' ->
  c' = loaded (cached (save_cache X fs name c') name) /\
  NoDup (map fst (cached (save_cache X fs name c') name)) /\
  file_extends (cached fs name) (cached (save_cache X fs name c') name) /\
  forall k v, dict_get k (cached (save_cache X fs name c') name) = Some v ->
              dict_get k (cached fs name) = Some v \/ P (VStr k) v.
Proof.
  intros -> N0 (d' & -> & N) E G.
  assert (Hc : cached (save_cache X fs name (loaded d')) name = d').
  { unfold cached at 1, save_cache. rewrite String.eqb_refl. apply (dumped_loaded _ N). }
  rewrite Hc. repeat split; try assumption.
  - intros k v H. rewrite <- cache_get_loaded in H. apply E in H.
    now rewrite cache_get_loaded in H.
  - intros k v H. apply dict_get_In in H.
    destruct (G (VStr k) v) as [H' | H']; [apply In_loaded; eauto | | now right].
    left. apply In_loaded in H'. destruct H' as (s & Es & H'). injection Es as <-.
    now apply In_dict_get.
Qed.

(** X7.  The cache file that an enricher saves is the dump of a cache that
    holds every entry it has loaded and beyond these only what the external
    call has returned for the key; [update_github_data] stores no falsy
    (not found) answer, and the other cache files are not touched.  When
    the keys of the records are strings, the saved file itself holds every
    entry of the loaded file, unchanged, and beyond these only what the
    call has returned. *)
Theorem saved_cache (fs fs' : files) (people people' : list value) (tr : list event) :
  (update_devto_posts X fs people = (tr, Ok (fs', people')) ->
   (exists c',
      cached fs' "forem" = dumped X c' /\
      extends (loaded (cached fs "forem")) c' /\
      grown_by (fun url v => forem_fetch X url = Ok v) (loaded (cached fs "forem")) c') /\
   (forall name, name <> "forem" -> fs' name = fs name) /\
   (NoDup (map fst (cached fs "forem")) -> Forall str_urls people ->
    file_extends (cached fs "forem") (cached fs' "forem") /\
    forall url v, dict_get url (cached fs' "forem") = Some v ->
                  dict_get url (cached fs "forem") = Some v \/
                  forem_fetch X (VStr url) = Ok v)) /\
  (update_github_data X fs people = (tr, Ok (fs', people')) ->
   (exists c',
      cached fs' "github_people" = dumped X c' /\
      extends (loaded (cached fs "github_people")) c' /\
      grown_by (fun id v => github_get_user_info X id = Ok v /\ truthy v = true)
        (loaded (cached fs "github_people")) c') /\
   (forall name, name <> "github_people" -> fs' name = fs name) /\
   (NoDup (map fst (cached fs "github_people")) ->
    Forall (str_field "github") people ->
    file_extends (cached fs "github_people") (cached fs' "github_people") /\
    forall id v, dict_get id (cached fs' "github_people") = Some v ->
                 dict_get id (cached fs "github_people") = Some v \/
                 (github_get_user_info X (VStr id) = Ok v /\ truthy v = true))).
Proof.
  split; intro H.
  - destruct (update_devto_posts_cache _ _ _ _ _ H) as (c' & -> & E & G & _ & S).
    split; [| split].
    + exists c'. repeat split; assumption.
    + intros name N. unfold save_cache. apply String.eqb_neq in N. now rewrite N.
    + intros N Hs.
      destruct (saved_str_keys fs "forem" _ c' _ eq_refl N (S N Hs) E G) as (_ & _ & A & B).
      now split.
  - destruct (update_github_data_cache _ _ _ _ _ H) as (c' & -> & E & G & S).
    split; [| split].
    + exists c'. repeat split; assumption.
    + intros name N. unfold save_cache. apply String.eqb_neq in N. now rewrite N.
    + intros N Hs.
      destruct (saved_str_keys fs "github_people" _ c' _ eq_refl N (S N Hs) E G)
        as (_ & _ & A & B).
      now split.
Qed.

End CacheFile.

(** *** A second run *)

(** With every URL in the cache, the loops ask nobody and change nothing
    in the cache, whatever the collaborators are. *)
Lemma devto_page_replay (Y : externals) (c : cache) (page page' : value) :
  page_of_cache c page page' -> devto_page Y c page = ([], Ok (c, page')).
Proof.
  intros (d & url & v & -> & U & Hk & C & ->). now rewrite devto_page_cases, U, Hk, C.
Qed.

Lemma devto_person_replay (Y : externals) (c : cache) (person person' : value) :
  person_of_cache c person person' ->
  devto_person Y c person = ([], Ok (c, person')).
Proof.
  intros [[Hin ->] | (posts & pages & pages' & G & I & F & ->)]; unfold devto_person.
  - rewrite Hin. reflexivity.
  - rewrite (getitem_in _ _ _ G), G. simpl. rewrite I. simpl.
    unfold devto_pages.
    rewrite (for_each_replay (devto_page Y) c (page_of_cache c)
               (devto_page_replay Y c) pages pages' F).
    reflexivity.
Qed.

(** X8.  A second run of [update_devto_posts] on the records as they were
    loaded, with the cache files the first run has saved, makes no external
    call and no pause (whatever the article source would answer), returns
    the same enriched records and leaves the cache files as they are, when
    the URLs of the records are strings. *)
Theorem update_devto_posts_again (X Y : externals) (fs fs' : files)
  (people people' : list value) (tr : list event) :
  update_devto_posts X fs people = (tr, Ok (fs', people')) ->
  NoDup (map fst (cached fs "forem")) ->
  Forall str_urls people ->
  exists msg fs'',
    update_devto_posts Y fs' people = ([LogInfo msg], Ok (fs'', people')) /\
    forall name, fs'' name = fs' name.
Proof.
  intros H N S.
  destruct (update_devto_posts_cache X _ _ _ _ _ H) as (c' & -> & E & G & F & K).
  destruct (saved_str_keys X fs "forem" _ c' _ eq_refl N (K N S) E G) as (L & N' & _).
  eexists. eexists. split.
  - unfold update_devto_posts, load_cache. simpl. rewrite <- L. unfold devto_people.
    rewrite (for_each_replay (devto_person Y) c' (person_of_cache c')
               (devto_person_replay Y c') people people' F).
    reflexivity.
  - intro name. unfold save_cache. destruct (String.eqb name "forem") eqn:En; [| reflexivity].
    f_equal. destruct (K N S) as (d' & -> & Nd).
    now rewrite (dumped_loaded X _ Nd), (dumped_loaded Y _ Nd).
Qed.

(** *** No article is fetched twice *)

Lemma fetched_urls_app (t1 t2 : list event) :
  fetched_urls (t1 ++ t2) = (fetched_urls t1 ++ fetched_urls t2)%list.
Proof. apply flat_map_app. Qed.

Lemma for_each_fetches_once {A B : Type} (body : cache -> A -> W (cache * B)) :
  fetches_once body -> fetches_once (for_each body).
Proof.
  intros Hbody c l. revert c.
  induction l as [| a l IH]; intros c tr r H; simpl in H.
  - injection H as <- <-. simpl. repeat split; try constructor; try contradiction.
    apply extends_refl.
  - destruct (body c a) as [t1 [[c1 b] | e]] eqn:Ba.
    + destruct (Hbody _ _ _ _ Ba) as (N1 & M1 & E1 & I1).
      simpl in H. destruct (for_each body c1 l) as [t2 r2] eqn:Fl.
      destruct (IH _ _ _ Fl) as (N2 & M2 & R2).
      assert (Hs : NoDup (fetched_urls (t1 ++ t2)) /\
                   forall u, In u (fetched_urls (t1 ++ t2)) -> cache_has u c = false).
      { rewrite fetched_urls_app. split.
        - apply NoDup_app; [exact N1 | exact N2 |].
          intros u H1 H2. pose proof (I1 _ H1) as Hin. pose proof (M2 _ H2) as Hout.
          congruence.
        - intros u Hu. apply in_app_or in Hu. destruct Hu as [Hu | Hu]; [now apply M1 |].
          exact (extends_miss _ _ _ E1 (M2 _ Hu)). }
      destruct Hs as [Nd Ms].
      destruct r2 as [[c2 bs] | e]; simpl in H; injection H as <- <-;
        rewrite ?app_nil_r; (split; [exact Nd |]); (split; [exact Ms |]); [| exact I].
      destruct R2 as [E2 I2]. split; [exact (extends_trans _ _ _ E1 E2) |].
      intros u Hu. rewrite fetched_urls_app in Hu. apply in_app_or in Hu.
      destruct Hu as [Hu | Hu]; [| now apply I2].
      exact (extends_has _ _ _ E2 (I1 _ Hu)).
    + simpl in H. injection H as <- <-. destruct (Hbody _ _ _ _ Ba) as (N1 & M1 & _).
      auto.
Qed.

Lemma devto_page_fetches_once (X : externals) : fetches_once (devto_page X).
Proof.
  intros c page tr r H.
  assert (Hnone : forall e : exn,
            NoDup (fetched_urls []) /\
            (forall u, In u (fetched_urls []) -> cache_has u c = false) /\ True).
  { intros _. simpl. repeat split; [constructor | contradiction]. }
  destruct page as [| | | | | | d];
    try (rewrite devto_page_not_dict in H by discriminate;
         injection H as <- <-; exact (Hnone TypeError)).
  rewrite devto_page_cases in H.
  destruct (dict_get "url" d) as [url |];
    [| injection H as <- <-; exact (Hnone TypeError)].
  destruct (hashable url) eqn:Hk;
    [| injection H as <- <-; exact (Hnone TypeError)].
  destruct (cache_get url c) as [v |] eqn:C.
  - injection H as <- <-. simpl. repeat split; try constructor; try contradiction.
    apply extends_refl.
  - assert (M : cache_has url c = false) by now apply cache_has_false.
    destruct (forem_fetch X url) as [details | e]; injection H as <- <-; simpl.
    + repeat split.
      * repeat constructor. intros [].
      * intros u [<- | []]. exact M.
      * now apply extends_set.
      * intros u [<- | []]. unfold cache_has.
        now rewrite (cache_get_set_same _ _ _ Hk C).
    + repeat split.
      * repeat constructor. intros [].
      * intros u [<- | []]. exact M.
Qed.

Lemma devto_person_fetches_once (X : externals) : fetches_once (devto_person X).
Proof.
  intros c person tr r H. unfold devto_person in H.
  assert (Hnone : NoDup (fetched_urls []) /\
                  (forall u, In u (fetched_urls []) -> cache_has u c = false)).
  { simpl. split; [constructor | contradiction]. }
  destruct (py_in "posts" person) as [[|] | e]; simpl in H;
    try (injection H as <- <-; destruct Hnone; repeat split; auto; apply extends_refl).
  destruct (getitem person "posts") as [posts | e]; simpl in H;
    [| injection H as <- <-; destruct Hnone; auto].
  destruct (py_iter posts) as [pages | e]; simpl in H;
    [| injection H as <- <-; destruct Hnone; auto].
  destruct (devto_pages X c pages) as [t1 r1] eqn:L.
  pose proof (for_each_fetches_once _ (devto_page_fetches_once X) _ _ _ _ L) as P.
  destruct r1 as [[c1 pages'] | e]; simpl in H; injection H as <- <-;
    rewrite ?app_nil_r; exact P.
Qed.

(** X9.  In one run [update_devto_posts] fetches no URL twice: what it has
    fetched is in the cache when the URL comes again. *)
Theorem update_devto_posts_fetches_once (X : externals) (fs : files)
  (people : list value) :
  NoDup (fetched_urls (fst (update_devto_posts X fs people))).
Proof.
  unfold update_devto_posts, load_cache. simpl.
  destruct (devto_people X (loaded (cached fs "forem")) people) as [t1 r1] eqn:L.
  pose proof (for_each_fetches_once _ (devto_person_fetches_once X) _ _ _ _ L) as [N _].
  destruct r1 as [[c1 p1] | e]; simpl; rewrite ?app_nil_r; exact N.
Qed.

(** *** What the enrichers leave alone *)

(** X10.  The enrichers change nothing else: [update_devto_posts] returns
    the records it was given, one for one, with the same fields but
    [posts], and under [posts] the same posts, changed in nothing but their
    [details]; [update_github_data] returns them with the same fields but
    [gh]. *)
Theorem enrichers_other_fields (X : externals) (fs fs' : files)
  (people people' : list value) (tr : list event) :
  (update_devto_posts X fs people = (tr, Ok (fs', people')) ->
   Forall2 (fun person person' =>
              same_but "posts" person person' /\ posts_enriched person person')
     people people') /\
  (update_github_data X fs people = (tr, Ok (fs', people')) ->
   Forall2 (same_but "gh") people people').
Proof.
  split; intro H.
  - destruct (update_devto_posts_spec X _ _ _ _ H) as (msg & tr' & _ & _ & c' & _ & _ & F).
    eapply Forall2_impl; [| exact F]. intros person person' Hp.
    destruct (person_of_cache_posts c' (same_but "details") (fun _ => True)
                person person') as (S & R & _); [| exact Hp | now split].
    intros page page' Hpage. split; [| exact I].
    exact (proj2 (page_of_cache_details_set _ _ _ Hpage)).
  - destruct (update_github_data_spec X _ _ _ _ H) as (msg & tr' & _ & _ & c' & _ & _ & F).
    eapply Forall2_impl; [| exact F]. intros person person'.
    apply gh_of_cache_same_but.
Qed.

Lemma raw_people_str_urls : Forall str_urls Examples.raw_people.
Proof.
  repeat constructor.
  - eapply posts_all_list; [reflexivity |]. repeat constructor; eexists; reflexivity.
  - apply posts_all_none. reflexivity.
  - eapply posts_all_list; [reflexivity |]. repeat constructor; eexists; reflexivity.
Qed.

Lemma warm_files_keys (name : string) : NoDup (map fst (cached Examples.warm_files name)).
Proof.
  unfold cached, Examples.warm_files.
  destruct (String.eqb name "forem"); [repeat constructor; intros [] |].
  destruct (String.eqb name "github_people"); repeat constructor. intros [].
Qed.

Lemma saved_cache_witness :
  file_extends (cached Examples.warm_files "forem") (cached More.devto_files "forem") /\
  exists c',
    cached More.github_files "github_people" = dumped Examples.ext c' /\
    extends (loaded (cached Examples.warm_files "github_people")) c'.
Proof.
  split.
  - exact (proj1 (proj2 (proj2 (proj1 (saved_cache Examples.ext Examples.warm_files
                                         More.devto_files Examples.raw_people
                                         More.devto_records (fst More.devto_run))
                                  eq_refl))
                    (warm_files_keys "forem") raw_people_str_urls)).
  - destruct (proj1 (proj2 (saved_cache Examples.ext Examples.warm_files
                              More.github_files Examples.raw_people
                              More.github_records (fst More.github_run))
                       eq_refl)) as (c' & A & B & _).
    exists c'. now split.
Defined.

Lemma update_devto_posts_again_witness :
  exists msg fs'',
    update_devto_posts Examples.ext More.devto_files Examples.raw_people
    = ([LogInfo msg], Ok (fs'', More.devto_records)) /\
    forall name, fs'' name = More.devto_files name.
Proof.
  exact (update_devto_posts_again Examples.ext Examples.ext Examples.warm_files
           More.devto_files Examples.raw_people More.devto_records
           (fst More.devto_run) eq_refl (warm_files_keys "forem") raw_people_str_urls).
Defined.

Lemma enrichers_other_fields_witness :
  Forall2 (same_but "gh") Examples.raw_people More.github_records.
Proof.
  exact (proj2 (enrichers_other_fields Examples.ext Examples.warm_files More.github_files
                  Examples.raw_people More.github_records (fst More.github_run))
           eq_refl).
Defined.

(** ** read_json_files *)

(** X11.  [read_json_files] reads the directory in the order of the
    listing and stops at the first error: for a listing in two parts it
    returns the records of the first part followed by those of the second,
    and when the first part raises, what the second part holds is never
    looked at. *)
Theorem read_json_files_app (a b : list (string * result value)) :
  read_json_files (a ++ b) =
  (pa <- read_json_files a ;;
   pb <- read_json_files b ;;
   Ok (pa ++ pb)%list).
Proof.
  induction a as [| [filename content] a IH].
  - simpl. destruct (read_json_files b); reflexivity.
  - cbn [app read_json_files].
    destruct (String.eqb filename ".gitkeep"); [exact IH |].
    destruct (endswith filename ".json"); [| reflexivity].
    destruct (String.eqb filename (lower filename)); [| reflexivity].
    cbn [negb]. cbv iota.
    destruct content as [person | e]; [| reflexivity]. cbn [Py.bind].
    destruct (py_in "github" person) as [[|] | e]; try reflexivity. cbn [Py.bind negb].
    cbv iota.
    destruct (getitem person "github") as [github | e]; [| reflexivity]. cbn [Py.bind].
    destruct (lower_method github) as [lowered | e]; [| reflexivity]. cbn [Py.bind].
    destruct (String.eqb lowered (slice_to_minus 5 filename)); cbn [negb]; cbv iota.
    + rewrite IH. destruct (read_json_files a) as [pa | e]; [| reflexivity].
      cbn [Py.bind]. destruct (read_json_files b); reflexivity.
    + destruct (as_str github); reflexivity.
Qed.

(** Every record that the loader returns is the content of a listed file
    and carries the identifier of that file. *)
Lemma read_json_files_loaded (folder : list (string * result value))
  (people : list value) :
  read_json_files folder = Ok people -> Forall2 loaded_from (listed folder) people.
Proof.
  revert people. induction folder as [| [filename content] folder IH]; intros people H.
  - injection H as <-. constructor.
  - unfold listed. simpl in *.
    destruct (String.eqb filename ".gitkeep") eqn:K; simpl; [now apply IH |].
    destruct (endswith filename ".json") eqn:E; simpl in H; [| discriminate].
    destruct (String.eqb filename (lower filename)); simpl in H; [| discriminate].
    destruct content as [person | e]; simpl in H; [| discriminate].
    destruct (py_in "github" person) as [[|] | e]; simpl in H; try discriminate.
    destruct (getitem person "github") as [github | e] eqn:G; simpl in H; [| discriminate].
    destruct github as [| | | | g | |]; simpl in H; try discriminate.
    destruct (String.eqb (lower g) (slice_to_minus 5 filename)) eqn:S; simpl in H;
      [| discriminate].
    destruct (read_json_files folder) as [people' | e]; simpl in H; [| discriminate].
    injection H as <-. constructor; [| now apply IH].
    split; [reflexivity |]. exists (slice_to_minus 5 filename), g.
    apply String.eqb_eq in S.
    split; [exact (endswith_slice filename ".json" E) |]. split; [exact G | exact S].
Qed.

Lemma append_inj_l (a b p : string) : a ++ p = b ++ p -> a = b.
Proof.
  revert b. induction a as [| c a IH]; intros b H.
  - destruct b as [| d b]; [reflexivity |].
    exfalso. apply (f_equal String.length) in H. simpl in H.
    rewrite length_append in H. lia.
  - destruct b as [| d b].
    + exfalso. apply (f_equal String.length) in H. simpl in H.
      rewrite length_append in H. lia.
    + simpl in H. injection H as -> H. f_equal. now apply IH.
Qed.

Lemma slice_append (id ext : string) :
  slice_to_minus (String.length ext) (id ++ ext) = id.
Proof.
  unfold slice_to_minus. rewrite length_append.
  replace (String.length id + String.length ext - String.length ext)
    with (String.length id) by lia.
  induction id as [| c id IH]; simpl.
  - destruct ext; reflexivity.
  - now rewrite IH.
Qed.

Lemma slice_json (id : string) : slice_to_minus 5 (id ++ ".json") = id.
Proof. exact (slice_append id ".json"). Qed.

Lemma Forall2_In_l {A B : Type} (R : A -> B -> Prop) (l : list A) (l' : list B) (x : A) :
  Forall2 R l l' -> In x l -> exists y, In y l' /\ R x y.
Proof.
  induction 1 as [| a b l l' Rab F IH]; intro Hin; [contradiction |].
  destruct Hin as [<- | Hin].
  - exists b. split; [now left | exact Rab].
  - destruct (IH Hin) as (y & Hy & Ry). exists y. split; [now right | exact Ry].
Qed.

Lemma loaded_from_page (entry : string * result value) (person : value) :
  loaded_from entry person -> person_page person = Ok (page_of_file entry).
Proof.
  intros (_ & id & g & F & G & L). unfold person_page, page_of_file.
  rewrite G. simpl. now rewrite F, L, slice_json.
Qed.

Lemma page_of_file_inj (e1 e2 : string * result value) (p1 p2 : value) :
  loaded_from e1 p1 -> loaded_from e2 p2 ->
  page_of_file e1 = page_of_file e2 -> fst e1 = fst e2.
Proof.
  intros (_ & id1 & g1 & F1 & _) (_ & id2 & g2 & F2 & _). unfold page_of_file.
  rewrite F1, F2, !slice_json. intro H.
  now rewrite (append_inj_l _ _ _ H).
Qed.

(** X12.  The page of a loaded record is named after its file: the pages
    of the records that [read_json_files] returns are [<stem>.html] for
    the listed files [<stem>.json], in order; as the files of a directory
    have different names, no two records of one directory share a page. *)
Theorem loaded_person_pages (folder : list (string * result value))
  (people : list value) :
  read_json_files folder = Ok people ->
  person_pages people = Ok (map page_of_file (listed folder)) /\
  (NoDup (map fst folder) -> NoDup (map page_of_file (listed folder))).
Proof.
  intro H. pose proof (read_json_files_loaded _ _ H) as F. split.
  - clear H. induction F as [| e p l l' L F IH]; [reflexivity |].
    simpl. rewrite (loaded_from_page _ _ L). simpl. now rewrite IH.
  - intro N.
    assert (Nl : NoDup (map fst (listed folder))).
    { clear H F. unfold listed. induction folder as [| e folder IH]; [constructor |].
      simpl in *. inversion N as [| ? ? Hn N']; subst.
      destruct (negb (String.eqb (fst e) ".gitkeep")); [| now apply IH].
      simpl. constructor; [| now apply IH].
      intro Hin. apply Hn. apply in_map_iff in Hin. destruct Hin as (x & Ex & Hx).
      apply filter_In in Hx. apply in_map_iff. exists x. tauto. }
    clear H N. induction F as [| e p l l' L F IH]; [constructor |].
    simpl in *. inversion Nl as [| ? ? Hn Nl']; subst.
    constructor; [| now apply IH].
    intro Hin. apply Hn. apply in_map_iff in Hin. destruct Hin as (x & Ex & Hx).
    apply in_map_iff. exists x. split; [| exact Hx].
    destruct (Forall2_In_l _ _ _ _ F Hx) as (px & _ & Lx).
    symmetry. exact (page_of_file_inj _ _ _ _ L Lx (eq_sym Ex)).
Qed.

Lemma loaded_person_pages_witness :
  read_json_files Examples.folder
  = Ok [VDict [("github", VStr "Alice"); ("name", VStr "Alice")];
        VDict [("github", VStr "bob"); ("name", VStr "Bob")]] /\
  person_pages [VDict [("github", VStr "Alice"); ("name", VStr "Alice")];
                VDict [("github", VStr "bob"); ("name", VStr "Bob")]]
  = Ok ["alice.html"; "bob.html"].
Proof.
  split; [reflexivity |].
  exact (proj1 (loaded_person_pages Examples.folder _ eq_refl)).
Defined.

(** A record with a [github] string never makes the loop of
    [update_github_data] raise by itself. *)
Lemma github_person_total (X : externals) (c : cache) (person : value) :
  (forall g : string, exists v, github_get_user_info X (VStr g) = Ok v) ->
  (exists g, getitem person "github" = Ok (VStr g)) ->
  exists tr c' person', github_person X c person = (tr, Ok (c', person')).
Proof.
  intros Hx [g G]. destruct person as [| | | | | | d]; try discriminate.
  simpl in G. destruct (dict_get "github" d) as [v |] eqn:E; [| discriminate].
  injection G as ->. rewrite github_person_cases, E. cbn [hashable].
  destruct (cache_get (VStr g) c) as [v |]; [eauto |].
  destruct (Hx g) as [data ->]. destruct (truthy data); eauto.
Qed.

(** X13.  The records that [read_json_files] returns are fit for
    [update_github_data]: on them it raises only if the profile lookup
    itself raises. *)
Theorem loaded_records_enriched (X : externals) (fs : files)
  (folder : list (string * result value)) (people : list value) :
  read_json_files folder = Ok people ->
  (forall id : string, exists v, github_get_user_info X (VStr id) = Ok v) ->
  exists tr fs' people', update_github_data X fs people = (tr, Ok (fs', people')).
Proof.
  intros H Hx. pose proof (read_json_files_loaded _ _ H) as F.
  assert (P : Forall (fun person => exists g, getitem person "github" = Ok (VStr g)) people).
  { clear H. induction F as [| e p l l' (_ & id & g & _ & G & _) F IH]; constructor; eauto. }
  destruct (for_each_total (github_person X) _
              (fun s a => github_person_total X s a Hx) people
              (loaded (cached fs "github_people")) P) as (tr & c' & p' & L).
  unfold update_github_data, load_cache, github_people. simpl. rewrite L. simpl. eauto.
Qed.

Lemma loaded_records_enriched_witness :
  exists tr fs' people',
    update_github_data Examples.ext Examples.warm_files
      [VDict [("github", VStr "Alice"); ("name", VStr "Alice")];
       VDict [("github", VStr "bob"); ("name", VStr "Bob")]]
    = (tr, Ok (fs', people')).
Proof.
  refine (loaded_records_enriched Examples.ext Examples.warm_files Examples.folder
            _ eq_refl _).
  intro id. simpl. destruct (String.eqb id "ghost"); eauto.
Defined.

(** ** collect_posts *)

(** X14.  [collect_posts] returns the posts that its loops have gathered,
    each one once: the sort neither drops nor repeats a post. *)
Theorem collect_posts_Permutation (people entries posts : list value) :
  collected people = Ok entries ->
  collect_posts people = Ok posts ->
  Permutation entries posts /\ length posts = length entries.
Proof.
  unfold collect_posts. intros C H. rewrite C in H. simpl in H.
  apply list_sort_reverse in H. destruct H as (kl & r & K & S & ->).
  destruct (keyed_snd _ _ _ K) as [M _].
  assert (P : Permutation entries (map snd (rev r))).
  { rewrite <- M. apply Permutation_map.
    apply perm_trans with (rev kl); [apply Permutation_rev |].
    apply perm_trans with r; [now apply stable_sort_Permutation | apply Permutation_rev]. }
  split; [exact P |]. symmetry. now apply Permutation_length.
Qed.

Lemma collect_posts_Permutation_witness :
  Permutation Examples.tie_entries Examples.tie_posts /\
  length Examples.tie_posts = length Examples.tie_entries.
Proof.
  exact (collect_posts_Permutation Examples.tie_people Examples.tie_entries
           Examples.tie_posts eq_refl eq_refl).
Defined.

(** Among keys that [<] orders, a sorted list is sorted all along. *)
Lemma not_below_trans (x y z : value * value) :
  ordered_pair x -> ordered_pair y -> ordered_pair z ->
  not_below x y -> not_below y z -> not_below x z.
Proof.
  unfold not_below, ordered_pair. intros Ox Oy Oz H1 H2.
  now apply py_lt_false_trans with (fst y).
Qed.

Lemma Sorted_StronglySorted_on {A : Type} (P : A -> Prop) (R : A -> A -> Prop) :
  (forall x y z, P x -> P y -> P z -> R x y -> R y z -> R x z) ->
  forall l, Forall P l -> Sorted R l -> StronglySorted R l.
Proof.
  intros T l. induction l as [| a l IH]; intros F S; [constructor |].
  inversion F as [| ? ? Pa Fl]; subst. inversion S as [| ? ? Sl Hd]; subst.
  pose proof (IH Fl Sl) as SS. constructor; [exact SS |].
  destruct l as [| b l]; constructor.
  - now inversion Hd.
  - inversion Hd as [| ? ? Rab]; subst. inversion SS as [| ? ? _ Fb]; subst.
    inversion Fl as [| ? ? Pb Fl']; subst.
    rewrite Forall_forall in *. intros z Hz.
    exact (T a b z Pa Pb (Fl' z Hz) Rab (Fb z Hz)).
Qed.

Lemma StronglySorted_split (A : Type) (R : A -> A -> Prop) (l1 l2 l3 : list A) (a b : A) :
  StronglySorted R (l1 ++ a :: l2 ++ b :: l3)%list -> R a b.
Proof.
  induction l1 as [| x l1 IH]; simpl; intro H; inversion H; subst.
  - rewrite Forall_forall in H3. apply H3. apply in_or_app. right. now left.
  - now apply IH.
Qed.

(** [list.sort(key=..., reverse=True)] puts every element before all those
    whose key is not above its own, when [<] orders the keys. *)
Lemma list_sort_reverse_all (key : value -> result value)
  (l before between after : list value) (p1 p2 : value) :
  Forall (fun p => exists k, key p = Ok k /\ ordered_key k) l ->
  list_sort key true l = Ok (before ++ p1 :: between ++ p2 :: after)%list ->
  exists k1 k2, key p1 = Ok k1 /\ key p2 = Ok k2 /\ py_ge k1 k2 = Ok true.
Proof.
  intros O H. apply list_sort_reverse in H. destruct H as (kl & r & K & S & P).
  destruct (keyed_snd _ _ _ K) as [M F].
  assert (Hok : Forall ordered_pair (rev kl)).
  { apply Forall_rev. apply (keyed_ordered key); [exact F | now rewrite M]. }
  assert (Fr : Forall (keyed_by key) r).
  { eapply stable_sort_Forall; [exact S |]. now apply Forall_rev. }
  assert (Or : Forall ordered_pair r) by exact (stable_sort_Forall _ _ _ S Hok).
  assert (Sr : StronglySorted not_below r).
  { apply (Sorted_StronglySorted_on ordered_pair); [exact not_below_trans | exact Or |].
    exact (stable_sort_sorted _ _ Hok S). }
  symmetry in P. apply map_eq_app in P. destruct P as (l1 & l2 & R & _ & P).
  apply map_eq_cons in P. destruct P as (kp1 & l3 & -> & P1 & P).
  apply map_eq_app in P. destruct P as (l4 & l5 & -> & _ & P).
  apply map_eq_cons in P. destruct P as (kp2 & l6 & -> & P2 & _).
  assert (R' : r = (rev l6 ++ kp2 :: rev l4 ++ kp1 :: rev l1)%list).
  { rewrite <- (rev_involutive r), R. rewrite rev_app_distr. simpl.
    rewrite rev_app_distr. simpl. rewrite <- !app_assoc. simpl. reflexivity. }
  subst r.
  pose proof (StronglySorted_split _ _ _ _ _ _ _ Sr) as N.
  rewrite Forall_forall in Fr, Or.
  assert (I1 : In kp1 (rev l6 ++ kp2 :: rev l4 ++ kp1 :: rev l1)%list).
  { apply in_or_app. right. right. apply in_or_app. right. now left. }
  assert (I2 : In kp2 (rev l6 ++ kp2 :: rev l4 ++ kp1 :: rev l1)%list).
  { apply in_or_app. right. now left. }
  pose proof (Fr _ I1) as K1. pose proof (Fr _ I2) as K2.
  unfold keyed_by in K1, K2. rewrite P1 in K1. rewrite P2 in K2.
  exists (fst kp1), (fst kp2). repeat split; try assumption.
  apply py_lt_ge; [exact (Or _ I1) | exact (Or _ I2) | exact N].
Qed.

(** X15.  When the publish timestamps are strings, or numbers other than
    NaN, no post of the list that [collect_posts] returns is older than any
    post after it, however far apart the two stand: the newest post is the
    first one. *)
Theorem collect_posts_newest_first
  (people posts before between after : list value) (p1 p2 : value) :
  collect_posts people = Ok posts ->
  ordered_posts posts ->
  posts = (before ++ p1 :: between ++ p2 :: after)%list ->
  ge_published p1 p2.
Proof.
  intros H O ->. destruct (collect_posts_entries _ _ H) as (entries & _ & L & P).
  apply (list_sort_reverse_all published_at entries before between after); [| exact L].
  apply (Permutation_Forall (Permutation_sym P)). exact O.
Qed.

Lemma collect_posts_newest_first_witness :
  collect_posts Examples.tie_people = Ok Examples.tie_posts /\
  ordered_posts Examples.tie_posts /\
  ge_published (nth 0 Examples.tie_posts VNone) (nth 2 Examples.tie_posts VNone).
Proof.
  assert (O : ordered_posts Examples.tie_posts).
  { repeat constructor; eexists; (split; [reflexivity |]); left; eexists; reflexivity. }
  split; [reflexivity |]. split; [exact O |].
  exact (collect_posts_newest_first Examples.tie_people Examples.tie_posts
           [] [nth 1 Examples.tie_posts VNone] [] _ _ eq_refl O eq_refl).
Defined.

Lemma collect_post_ready (person post : value) :
  post_ready post ->
  exists entry, collect_post person post = Ok entry /\ published_str entry.
Proof.
  intros (d & details & -> & D & [(dd & ts & -> & N & P) | (url & title & ts & T & U & Ti & P)]);
    unfold collect_post; cbn [getitem]; rewrite D; cbn [Py.bind].
  - assert (T : truthy (VDict dd) = true) by (destruct dd; [congruence | reflexivity]).
    rewrite T. cbn [setitem].
    eexists. split; [reflexivity |]. exists ts. unfold published_at. cbn [getitem].
    rewrite dict_get_set_other by discriminate. now rewrite P.
  - rewrite T, U, Ti, P. simpl.
    eexists. split; [reflexivity |]. exists ts. reflexivity.
Qed.

Lemma collect_person_posts_ready (person : value) (posts : list value) :
  Forall post_ready posts ->
  exists entries,
    collect_person_posts person posts = Ok entries /\ Forall published_str entries.
Proof.
  induction 1 as [| post posts R _ IH]; simpl.
  - exists []. split; [reflexivity | constructor].
  - destruct (collect_post_ready person post R) as (entry & -> & P).
    destruct IH as (entries & -> & F). simpl.
    exists (entry :: entries). split; [reflexivity | now constructor].
Qed.

Lemma collect_person_ready (person : value) :
  person_ready person ->
  exists entries, collect_person person = Ok entries /\ Forall published_str entries.
Proof.
  intros (d & -> & R). unfold collect_person. simpl. unfold dict_has.
  destruct (dict_get "posts" d) as [posts |] eqn:E; simpl.
  - destruct R as (pages & -> & F). simpl.
    now apply collect_person_posts_ready.
  - exists []. split; [reflexivity | constructor].
Qed.

Lemma collected_ready (people : list value) :
  Forall person_ready people ->
  exists entries, collected people = Ok entries /\ Forall published_str entries.
Proof.
  induction 1 as [| person people R _ IH]; simpl.
  - exists []. split; [reflexivity | constructor].
  - destruct (collect_person_ready person R) as (entries & -> & F).
    destruct IH as (more & -> & F'). simpl.
    exists (entries ++ more)%list. split; [reflexivity |].
    apply Forall_app. now split.
Qed.

Lemma keyed_ready (l : list value) :
  Forall published_str l ->
  exists kl, keyed published_at l = Ok kl /\ Forall str_key kl.
Proof.
  induction 1 as [| x l [ts P] _ IH]; simpl.
  - exists []. split; [reflexivity | constructor].
  - rewrite P. destruct IH as (kl & -> & F). simpl.
    eexists. split; [reflexivity |]. constructor; [now exists ts | exact F].
Qed.

(** The sort compares strings with strings without an error. *)
Lemma insert_total (x : value * value) (l : list (value * value)) :
  str_key x -> Forall str_key l -> exists l', insert x l = Ok l'.
Proof.
  intros [ts X]. induction 1 as [| y l [ts' Y] _ IH]; simpl.
  - eauto.
  - rewrite X, Y, py_lt_str. simpl. destruct (String.ltb ts' ts); [| eauto].
    destruct IH as [r ->]. simpl. eauto.
Qed.

Lemma stable_sort_total (l : list (value * value)) :
  Forall str_key l -> exists s, stable_sort l = Ok s.
Proof.
  induction 1 as [| x l X F IH]; simpl; [eauto |].
  destruct IH as [s S]. rewrite S. simpl.
  apply insert_total; [exact X |].
  now apply (stable_sort_Forall str_key l s S).
Qed.

(** X16.  [collect_posts] returns a list when every record is a dict whose
    [posts], if it has any, is a list of posts of the two shapes that the
    loop reads: with [details] that hold a [published_at] string, or with
    falsy [details] beside a [url], a [title] and a [published_at] string of
    the post's own. *)
Theorem collect_posts_returns (people : list value) :
  Forall person_ready people ->
  exists posts, collect_posts people = Ok posts.
Proof.
  intro R. unfold collect_posts.
  destruct (collected_ready people R) as (entries & -> & F). simpl.
  unfold list_sort.
  destruct (keyed_ready entries F) as (kl & -> & K). simpl.
  destruct (stable_sort_total (rev kl)) as [s ->]; [now apply Forall_rev |].
  simpl. eauto.
Qed.

Lemma collect_posts_returns_witness :
  Forall person_ready Examples.tie_people /\
  exists posts, collect_posts Examples.tie_people = Ok posts.
Proof.
  assert (R : Forall person_ready Examples.tie_people).
  { repeat constructor.
    - eexists. split; [reflexivity |]. simpl. eexists. split; [reflexivity |].
      repeat constructor.
      + eexists. eexists. split; [reflexivity |]. split; [reflexivity |].
        right. exists (VStr "https://dev.to/a1"), (VStr "First"), "2023-01-01".
        repeat split.
      + eexists. eexists. split; [reflexivity |]. split; [reflexivity |].
        left. eexists. exists "2023-01-02". split; [reflexivity |].
        split; [discriminate | reflexivity].
    - eexists. split; [reflexivity |]. simpl. eexists. split; [reflexivity |].
      repeat constructor.
      eexists. eexists. split; [reflexivity |]. split; [reflexivity |].
      right. exists (VStr "https://dev.to/b1"), (VStr "Third"), "2023-01-01".
      repeat split. }
  split; [exact R |]. exact (collect_posts_returns Examples.tie_people R).
Defined.

Lemma collect_person_posts_length (person : value) (posts entries : list value) :
  collect_person_posts person posts = Ok entries -> length entries = length posts.
Proof.
  revert entries. induction posts as [| post posts IH]; intros entries H; simpl in H.
  - now injection H as <-.
  - bind_inv H. bind_inv H. injection H as <-. simpl. f_equal. now apply IH.
Qed.

Lemma collect_person_length (person : value) (entries : list value) :
  collect_person person = Ok entries -> length entries = posts_count person.
Proof.
  unfold collect_person, posts_count. intro H. bind_inv H. destruct a.
  - bind_inv H. bind_inv H. rewrite E0, E1. now apply collect_person_posts_length with person.
  - injection H as <-.
    destruct person as [| | | | | | d]; try reflexivity.
    simpl in *. unfold dict_has in E. destruct (dict_get "posts" d); [discriminate | reflexivity].
Qed.

Lemma collected_length (people entries : list value) :
  collected people = Ok entries ->
  length entries = list_sum (map posts_count people).
Proof.
  revert entries. induction people as [| person people IH]; intros entries H; simpl in H.
  - now injection H as <-.
  - bind_inv H. bind_inv H. injection H as <-.
    rewrite length_app. simpl. f_equal; [now apply collect_person_length | now apply IH].
Qed.

(** X17.  [collect_posts] returns one entry for each post of each record:
    an article that two people have posted comes twice. *)
Theorem collect_posts_count (people posts : list value) :
  collect_posts people = Ok posts ->
  length posts = list_sum (map posts_count people).
Proof.
  intro H. pose proof H as H'. unfold collect_posts in H'. bind_inv H'.
  apply list_sort_reverse in H'. destruct H' as (kl & r & K & S & ->).
  destruct (keyed_snd _ _ _ K) as [M _].
  rewrite length_map, length_rev.
  rewrite <- (Permutation_length (stable_sort_Permutation _ _ S)).
  rewrite length_rev, <- (length_map snd kl), M.
  now apply collected_length.
Qed.

Lemma collect_posts_count_witness :
  length Examples.tie_posts = list_sum (map posts_count Examples.tie_people).
Proof.
  exact (collect_posts_count Examples.tie_people Examples.tie_posts eq_refl).
Defined.

(** ** main *)

(** *** No article is fetched twice *)

Lemma once_bind {A B : Type} (c : cache) (after : A -> cache) (after' : B -> cache)
  (m : W A) (f : A -> W B) :
  once_from c after m ->
  (forall a, snd m = Ok a -> once_from (after a) after' (f a)) ->
  once_from c after' (bindW m f).
Proof.
  destruct m as [t1 [a | e]]; unfold once_from, only_new; simpl; intros [[N1 M1] K1] Hf;
    [| auto].
  specialize (Hf a eq_refl). destruct (f a) as [t2 r]. simpl in *.
  destruct Hf as [[N2 M2] K2].
  rewrite fetched_urls_app. repeat split.
  - apply NoDup_app; [exact N1 | exact N2 |].
    intros u H1 H2. pose proof (K1 u (or_intror H1)) as Hin.
    pose proof (M2 u H2) as Hout. congruence.
  - intros u Hu. apply in_app_or in Hu. destruct Hu as [Hu | Hu]; [now apply M1 |].
    destruct (cache_has u c) eqn:E; [| reflexivity].
    pose proof (K1 u (or_introl E)) as Hin. pose proof (M2 u Hu) as Hout. congruence.
  - destruct r as [b | e]; [| exact I].
    intros u [Hu | Hu]; apply K2.
    + left. apply K1. now left.
    + apply in_app_or in Hu. destruct Hu as [Hu | Hu]; [| now right].
      left. apply K1. now right.
Qed.

(** A step that fetches nothing and leaves the article cache alone. *)
Lemma once_quiet {A : Type} (c : cache) (after : A -> cache) (m : W A) :
  no_fetch (fst m) ->
  (forall a, snd m = Ok a -> after a = c) ->
  once_from c after m.
Proof.
  unfold once_from, only_new, no_fetch. intros -> K. repeat split.
  - constructor.
  - contradiction.
  - destruct (snd m) as [a | e]; [| exact I].
    rewrite (K a eq_refl). now intros u [Hu | []].
Qed.

(** What comes back from the file that [save_cache] has written, when the
    keys of the cache are strings. *)
Lemma saved_loaded (X : externals) (fs : files) (name : string) (c : cache) :
  str_keys c ->
  loaded (cached (save_cache X fs name c) name) = c /\
  NoDup (map fst (cached (save_cache X fs name c) name)).
Proof.
  intros (d & -> & N).
  assert (Hc : cached (save_cache X fs name (loaded d)) name = d).
  { unfold cached at 1, save_cache. rewrite String.eqb_refl. apply (dumped_loaded X _ N). }
  rewrite Hc. now split.
Qed.

Lemma update_devto_posts_once (X : externals) (fs : files) (people : list value) :
  NoDup (map fst (cached fs "forem")) ->
  Forall str_urls people ->
  once_from (loaded (cached fs "forem")) (fun a => loaded (cached (fst a) "forem"))
    (update_devto_posts X fs people) /\
  forall a, snd (update_devto_posts X fs people) = Ok a ->
            NoDup (map fst (cached (fst a) "forem")).
Proof.
  intros N Hs. unfold update_devto_posts, load_cache. simpl.
  destruct (devto_people X (loaded (cached fs "forem")) people) as [t1 r1] eqn:L.
  pose proof (for_each_fetches_once _ (devto_person_fetches_once X) _ _ _ _ L)
    as (Nd & M & K).
  destruct r1 as [[c1 p1] | e]; unfold once_from, only_new; simpl; rewrite ?app_nil_r.
  - assert (Sk : str_keys c1).
    { refine (devto_people_keeps X str_keys (str_field "url") _ _ _ _ _ _ Hs
                (str_keys_loaded _ N) L).
      intros s a t s' b. apply devto_page_str_keys. }
    destruct (saved_loaded X fs "forem" c1 Sk) as [El Nl].
    split; [split; [now split |] |].
    + rewrite El. destruct K as [E K].
      intros u [Hu | Hu]; [exact (extends_has _ _ _ E Hu) | now apply K].
    + intros a H. injection H as <-. exact Nl.
  - split; [split; [now split | exact I] | discriminate].
Qed.

Lemma fetch_log_no_fetch (c0 : cache) (tr : list event) :
  fetch_log GetUserInfo c0 tr -> no_fetch tr.
Proof. induction 1; assumption || reflexivity. Qed.

Lemma update_github_data_quiet (X : externals) (fs : files) (people : list value) :
  once_from (loaded (cached fs "forem")) (fun a => loaded (cached (fst a) "forem"))
    (update_github_data X fs people) /\
  forall a, snd (update_github_data X fs people) = Ok a ->
            cached (fst a) "forem" = cached fs "forem".
Proof.
  assert (K : forall a, snd (update_github_data X fs people) = Ok a ->
                        cached (fst a) "forem" = cached fs "forem").
  { intros [fs' people']. unfold update_github_data, load_cache. simpl.
    destruct (github_people X (loaded (cached fs "github_people")) people)
      as [t1 [[c1 p1] | e]]; simpl; [| discriminate].
    intro H. injection H as <- _. reflexivity. }
  split; [| exact K]. apply once_quiet.
  - destruct (update_github_data X fs people) as [tr r] eqn:H.
    destruct (update_github_data_spec X _ _ _ _ H) as (msg & tr' & -> & L & _).
    exact (fetch_log_no_fetch _ _ L).
  - intros a H. now rewrite (K a H).
Qed.

Lemma check_url_no_fetch (X : externals) (person url_v : value) :
  no_fetch (fst (check_url X person url_v)).
Proof.
  unfold check_url. destruct (as_str url_v) as [url | e]; simpl; [| reflexivity].
  destruct (check_project url) as [url_type name].
  destruct (negb (truthy url_type)); [| reflexivity].
  destruct (invalid_project X url person) as [msg | e]; reflexivity.
Qed.

Lemma bindW_no_fetch {A B : Type} (m : W A) (f : A -> W B) :
  no_fetch (fst m) -> (forall a, no_fetch (fst (f a))) -> no_fetch (fst (bindW m f)).
Proof.
  destruct m as [t1 [a | e]]; simpl; intros H1 H2; [| exact H1].
  specialize (H2 a). destruct (f a) as [t2 r]. unfold no_fetch in *. simpl in *.
  now rewrite fetched_urls_app, H1, H2.
Qed.

Lemma check_urls_no_fetch (X : externals) (person : value) (urls : list value) :
  no_fetch (fst (check_urls X person urls)).
Proof.
  induction urls as [| url urls IH]; [reflexivity |].
  cbn [check_urls]. apply bindW_no_fetch; [apply check_url_no_fetch |].
  intro entry. apply bindW_no_fetch; [exact IH | reflexivity].
Qed.

Lemma lift_no_fetch {A : Type} (r : result A) : no_fetch (fst (lift r)).
Proof. reflexivity. Qed.

Lemma check_person_no_fetch (X : externals) (person : value) :
  no_fetch (fst (check_person X person)).
Proof.
  unfold check_person. apply bindW_no_fetch; [apply lift_no_fetch |].
  intros [|]; [| reflexivity]. cbn [negb].
  apply bindW_no_fetch; [apply lift_no_fetch |]. intro declared.
  apply bindW_no_fetch; [apply lift_no_fetch |]. intro urls.
  apply bindW_no_fetch; [apply check_urls_no_fetch |]. intro projects.
  apply bindW_no_fetch; [apply lift_no_fetch |]. reflexivity.
Qed.

Lemma check_projects_no_fetch (X : externals) (people : list value) :
  no_fetch (fst (check_projects X people)).
Proof.
  induction people as [| person people IH]; [reflexivity |].
  cbn [check_projects]. apply bindW_no_fetch; [apply check_person_no_fetch |].
  intros [person' projects]. apply bindW_no_fetch; [exact IH |].
  intros [rest' all_projects]. reflexivity.
Qed.

Lemma main_people_once (X : externals) (fs : files)
  (mentors_dir participants_dir : list (string * result value)) :
  NoDup (map fst (cached fs "forem")) ->
  (forall people, read_json_files mentors_dir = Ok people -> Forall str_urls people) ->
  (forall people, read_json_files participants_dir = Ok people -> Forall str_urls people) ->
  once_from (loaded (cached fs "forem")) (fun a => loaded (cached (fst a) "forem"))
    (main_people X fs mentors_dir participants_dir).
Proof.
  intros N Sm Sp. unfold main_people.
  apply once_bind with (after := fun _ => loaded (cached fs "forem"));
    [apply once_quiet; [reflexivity | reflexivity] |]. intros _ _.
  apply once_bind with (after := fun _ => loaded (cached fs "forem"));
    [apply once_quiet; [reflexivity | reflexivity] |]. intros mentors Hm.
  apply once_bind with (after := fun _ => loaded (cached fs "forem"));
    [apply once_quiet; [reflexivity | reflexivity] |]. intros participants Hp.
  simpl in Hm, Hp.
  destruct (update_devto_posts_once X fs mentors N (Sm _ Hm)) as [O1 K1].
  eapply once_bind; [exact O1 |]. intros [fs1 mentors1] H1.
  specialize (K1 _ H1). cbn [fst] in *.
  destruct (update_devto_posts_once X fs1 participants K1 (Sp _ Hp)) as [O2 K2].
  eapply once_bind; [exact O2 |]. intros [fs2 participants1] H2. cbn [fst] in *.
  destruct (update_github_data_quiet X fs2 mentors1) as [O3 K3].
  eapply once_bind; [exact O3 |]. intros [fs3 mentors2] H3. cbn [fst] in *.
  destruct (update_github_data_quiet X fs3 participants1) as [O4 K4].
  eapply once_bind; [exact O4 |]. intros [fs4 participants2] H4. cbn [fst] in *.
  apply once_bind with (after := fun _ => loaded (cached fs4 "forem"));
    [apply once_quiet; [apply check_projects_no_fetch | reflexivity] |].
  intros [mentors3 projects] _.
  apply once_bind with (after := fun _ => loaded (cached fs4 "forem"));
    [apply once_quiet; [apply check_projects_no_fetch | reflexivity] |].
  intros [participants3 more] _.
  apply once_quiet; [reflexivity |]. intros a H. injection H as <-. reflexivity.
Qed.

(** X18.  In a whole run of [main] on records whose URLs are strings, no
    article is fetched twice, and none that the cache file held at the
    start: the second call of [update_devto_posts] loads what the first one
    has saved. *)
Theorem main_fetches_once (X : externals) (fs : files)
  (mentors_dir participants_dir : list (string * result value)) :
  NoDup (map fst (cached fs "forem")) ->
  (forall people, read_json_files mentors_dir = Ok people -> Forall str_urls people) ->
  (forall people, read_json_files participants_dir = Ok people -> Forall str_urls people) ->
  only_new (loaded (cached fs "forem")) (fst (main_data X fs mentors_dir participants_dir)).
Proof.
  intros N Sm Sp.
  refine (proj1 (_ : once_from (loaded (cached fs "forem"))
                       (fun a => loaded (cached (fst a) "forem"))
                       (main_data X fs mentors_dir participants_dir))).
  unfold main_data.
  eapply once_bind; [now apply main_people_once |].
  intros [fs' [[mentors participants] projects]] _.
  cbn [fst]. apply once_quiet.
  - apply bindW_no_fetch; [apply lift_no_fetch |]. intro posts.
    apply bindW_no_fetch; [apply lift_no_fetch |]. reflexivity.
  - intro a. destruct (collect_posts (mentors ++ participants)) as [posts | e];
      simpl; [| discriminate].
    destruct (sorted_keys person_name participants) as [names | e];
      simpl; [| discriminate].
    intro H. injection H as <-. reflexivity.
Qed.

Lemma run_str_urls (dir : list (string * result value)) (people : list value) :
  dir = Run.mentors_dir \/ dir = Run.participants_dir ->
  read_json_files dir = Ok people -> Forall str_urls people.
Proof.
  intros [-> | ->] H; vm_compute in H; injection H as <-; repeat constructor;
    (eapply posts_all_list; [reflexivity |]); repeat constructor; eexists; reflexivity.
Qed.

Lemma main_fetches_once_witness :
  only_new (loaded (cached Examples.warm_files "forem")) (fst Run.run).
Proof.
  exact (main_fetches_once Examples.ext Examples.warm_files
           Run.mentors_dir Run.participants_dir (warm_files_keys "forem")
           (fun people => run_str_urls _ people (or_introl eq_refl))
           (fun people => run_str_urls _ people (or_intror eq_refl))).
Defined.

(** *** The records are read before anything else is done *)

(** X19.  [main] reads and checks both directories before it does anything
    else: when a file of either one is refused, the run ends with that
    exception, having logged its first message only; nothing is fetched or
    looked up, and no cache file is loaded or written. *)
Theorem main_validates_first (X : externals) (fs : files)
  (mentors_dir participants_dir : list (string * result value)) (e : exn) :
  read_json_files mentors_dir = Raise e \/
  ((exists mentors, read_json_files mentors_dir = Ok mentors) /\
   read_json_files participants_dir = Raise e) ->
  main_data X fs mentors_dir participants_dir
  = ([LogInfo "Starting to generate site"], Raise e).
Proof.
  unfold main_data, main_people. intros [H | [[mentors Hm] H]].
  - rewrite H. reflexivity.
  - rewrite Hm, H. reflexivity.
Qed.

Lemma main_validates_first_witness :
  main_data Examples.ext Examples.warm_files Run.mentors_dir Examples.folder_with_notes
  = ([LogInfo "Starting to generate site"],
     Raise (JsonError "file does not end with .json")).
Proof.
  apply main_validates_first. right. split; [eexists |]; reflexivity.
Defined.

(** *** The posts that reach collect_posts *)

Lemma bindW_Ok {A B : Type} (m : W A) (f : A -> W B) (tr : list event) (b : B) :
  bindW m f = (tr, Ok b) ->
  exists t1 a t2, m = (t1, Ok a) /\ f a = (t2, Ok b) /\ tr = (t1 ++ t2)%list.
Proof.
  destruct m as [t1 [a | e]]; simpl; [| discriminate].
  destruct (f a) as [t2 r] eqn:F. intro H. injection H as <- ->. now exists t1, a, t2.
Qed.

Ltac w_inv H a E :=
  let t1 := fresh "t" in
  let t2 := fresh "t" in
  apply bindW_Ok in H; destruct H as (t1 & a & t2 & E & H & ->); cbv beta iota in H.

Lemma update_github_data_fields (X : externals) (fs fs' : files)
  (people people' : list value) (tr : list event) :
  update_github_data X fs people = (tr, Ok (fs', people')) ->
  Forall2 (same_but "gh") people people'.
Proof.
  intro H.
  destruct (update_github_data_spec X _ _ _ _ H) as (msg & tr' & _ & _ & c' & _ & _ & F).
  eapply Forall2_impl; [| exact F]. intros person person'. apply gh_of_cache_same_but.
Qed.

Lemma posts_all_same (P : value -> Prop) (person person' : value) :
  getitem person' "posts" = getitem person "posts" ->
  posts_all P person -> posts_all P person'.
Proof.
  unfold posts_all. intros E H posts pages G. rewrite E in G. eauto.
Qed.

Lemma Forall2_transfer {A : Type} (P : A -> Prop) (R : A -> A -> Prop) (l l' : list A) :
  Forall2 R l l' -> (forall a b, R a b -> P a -> P b) -> Forall P l -> Forall P l'.
Proof.
  intros F HR. induction F as [| a b l l' Rab F IH]; intro H; [constructor |].
  inversion H; subst. constructor; eauto.
Qed.

(** What the three calls leave of the records that the loader has
    returned: every post carries [details]. *)
Lemma enriched_checked (X : externals) (fs fs1 fs2 fs3 : files)
  (people people1 people2 people3 projects : list value) (t1 t2 t3 : list event) :
  update_devto_posts X fs people = (t1, Ok (fs1, people1)) ->
  update_github_data X fs2 people1 = (t2, Ok (fs3, people2)) ->
  check_projects X people2 = (t3, Ok (people3, projects)) ->
  Forall (posts_all (carries "details")) people3.
Proof.
  intros D G C.
  pose proof (proj2 (update_devto_posts_details X _ _ _ _ _ D)) as F1.
  assert (F2 : Forall (posts_all (carries "details")) people2).
  { refine (Forall2_transfer _ _ _ _ (update_github_data_fields _ _ _ _ _ _ G) _ F1).
    intros a b S. apply posts_all_same. now apply S. }
  destruct (check_projects_ok X _ _ _ _ C) as (_ & K & _).
  refine (Forall2_transfer _ _ _ _ K _ F2).
  intros a b S. apply posts_all_same. now apply checked_other_field.
Qed.

Lemma main_people_details (X : externals) (fs fs' : files)
  (mentors_dir participants_dir : list (string * result value))
  (mentors participants projects : list value) (tr : list event) :
  main_people X fs mentors_dir participants_dir
  = (tr, Ok (fs', (mentors, participants, projects))) ->
  Forall (posts_all (carries "details")) (mentors ++ participants).
Proof.
  unfold main_people. intro H.
  w_inv H u E0. w_inv H loaded_m E1. w_inv H loaded_p E2.
  w_inv H a1 D1. destruct a1 as [fs1 mentors1].
  w_inv H a2 D2. destruct a2 as [fs2 participants1].
  w_inv H a3 G1. destruct a3 as [fs3 mentors2].
  w_inv H a4 G2. destruct a4 as [fs4 participants2].
  w_inv H a5 C1. destruct a5 as [mentors3 projects3].
  w_inv H a6 C2. destruct a6 as [participants3 more].
  cbv beta iota in H.
  injection H as <- <- <- <- <-.
  apply Forall_app. split.
  - exact (enriched_checked _ _ _ _ _ _ _ _ _ _ _ _ _ D1 G1 C1).
  - exact (enriched_checked _ _ _ _ _ _ _ _ _ _ _ _ _ D2 G2 C2).
Qed.

Lemma collect_post_details (person post : value) (e : exn) :
  carries "details" post -> collect_post person post = Raise e -> e <> KeyError (VStr "details").
Proof.
  unfold carries, collect_post. destruct post as [| | | | s | l | d]; simpl; try discriminate.
  - intros _ H. injection H as <-. discriminate.
  - intros _ H. injection H as <-. discriminate.
  - unfold dict_has. destruct (dict_get "details" d) as [details |]; [| discriminate].
    intros _. simpl. destruct (truthy details).
    + destruct details; simpl; try discriminate; intro H; injection H as <-; discriminate.
    + destruct (dict_get "url" d); simpl; [| intro H; injection H as <-; discriminate].
      destruct (dict_get "title" d); simpl; [| intro H; injection H as <-; discriminate].
      destruct (dict_get "published_at" d); simpl; [discriminate |].
      intro H; injection H as <-; discriminate.
Qed.

Lemma collect_person_posts_details (person : value) (posts : list value) (e : exn) :
  Forall (carries "details") posts ->
  collect_person_posts person posts = Raise e -> e <> KeyError (VStr "details").
Proof.
  induction 1 as [| post posts C _ IH]; simpl; [discriminate |].
  destruct (collect_post person post) as [entry | e'] eqn:P; simpl.
  - destruct (collect_person_posts person posts) as [entries | e'']; simpl; [discriminate |].
    intro H. injection H as <-. now apply IH.
  - intro H. injection H as <-. exact (collect_post_details _ _ _ C P).
Qed.

Lemma collect_person_details (person : value) (e : exn) :
  posts_all (carries "details") person ->
  collect_person person = Raise e -> e <> KeyError (VStr "details").
Proof.
  unfold collect_person. intro A.
  destruct (py_in "posts" person) as [[|] | e'] eqn:Hin; simpl; try discriminate.
  - destruct (getitem person "posts") as [posts | e'] eqn:G; simpl.
    + destruct (py_iter posts) as [pages | e''] eqn:Hi; simpl.
      * apply collect_person_posts_details. exact (A posts pages G Hi).
      * destruct posts; simpl in Hi; try discriminate;
          injection Hi as <-; intro H; injection H as <-; discriminate.
    + destruct person as [| | | | | | d]; simpl in G; try discriminate;
        try (injection G as <-; intro H; injection H as <-; discriminate).
      destruct (dict_get "posts" d); [discriminate |].
      injection G as <-. intro H. injection H as <-. discriminate.
  - destruct person; simpl in Hin; try discriminate;
      injection Hin as <-; intro H; injection H as <-; discriminate.
Qed.

Lemma collected_details (people : list value) (e : exn) :
  Forall (posts_all (carries "details")) people ->
  collected people = Raise e -> e <> KeyError (VStr "details").
Proof.
  induction 1 as [| person people A _ IH]; simpl; [discriminate |].
  destruct (collect_person person) as [entries | e'] eqn:P; simpl.
  - destruct (collected people) as [more | e'']; simpl; [discriminate |].
    intro H. injection H as <-. now apply IH.
  - intro H. injection H as <-. exact (collect_person_details _ _ A P).
Qed.

Lemma keyed_published_at_details (l : list value) (e : exn) :
  keyed published_at l = Raise e -> e <> KeyError (VStr "details").
Proof.
  induction l as [| x l IH]; simpl; [discriminate |].
  destruct (published_at x) as [k | e'] eqn:P; simpl.
  - destruct (keyed published_at l) as [kl | e'']; simpl; [discriminate |].
    intro H. injection H as <-. now apply IH.
  - intro H. injection H as <-. unfold published_at in P.
    destruct x as [| | | | | | d]; simpl in P; try (injection P as <-; discriminate).
    destruct (dict_get "published_at" d); [discriminate |]. injection P as <-. discriminate.
Qed.

(** The sort itself raises nothing but [TypeError]. *)
Lemma py_lt_raises : forall (a b : value) (e : exn), py_lt a b = Raise e -> e = TypeError.
Proof.
  fix IH 1. intros a b e.
  destruct a as [| ? | ? | ? | ? | la | ?]; destruct b as [| ? | ? | ? | ? | lb | ?];
    simpl; try discriminate; try (intro H; now injection H).
  revert lb. induction la as [| x la IHl]; intros [| y lb]; try discriminate.
  destruct (py_same x y); [apply IHl | apply IH].
Qed.

Lemma insert_raises (x : value * value) (l : list (value * value)) (e : exn) :
  insert x l = Raise e -> e = TypeError.
Proof.
  induction l as [| y l IH]; simpl; [discriminate |].
  destruct (py_lt (fst y) (fst x)) as [[|] | e'] eqn:P; simpl.
  - destruct (insert x l) as [r | e'']; simpl; [discriminate |].
    intro H. injection H as <-. now apply IH.
  - discriminate.
  - intro H. injection H as <-. exact (py_lt_raises _ _ _ P).
Qed.

Lemma stable_sort_raises (l : list (value * value)) (e : exn) :
  stable_sort l = Raise e -> e = TypeError.
Proof.
  induction l as [| x l IH]; simpl; [discriminate |].
  destruct (stable_sort l) as [s | e']; simpl.
  - apply insert_raises.
  - intro H. injection H as <-. now apply IH.
Qed.

Lemma collect_posts_details (people : list value) :
  Forall (posts_all (carries "details")) people ->
  collect_posts people <> Raise (KeyError (VStr "details")).
Proof.
  intros A H. unfold collect_posts in H.
  destruct (collected people) as [entries | e] eqn:C; simpl in H.
  - unfold list_sort in H.
    destruct (keyed published_at entries) as [kl | e] eqn:K; simpl in H.
    + destruct (stable_sort (rev kl)) as [s | e] eqn:S; simpl in H; [discriminate |].
      injection H as ->. pose proof (stable_sort_raises _ _ S). discriminate.
    + injection H as ->. now apply (keyed_published_at_details _ _ K).
  - injection H as ->. now apply (collected_details _ _ A C).
Qed.

(** X20.  In [main] every post that reaches [collect_posts] carries
    [details]: what [update_devto_posts] has set is still there after
    [update_github_data] and [check_projects], for the mentors and for the
    participants, and [collect_posts] does not end with
    [KeyError('details')]. *)
Theorem main_details (X : externals) (fs fs' : files)
  (mentors_dir participants_dir : list (string * result value))
  (mentors participants projects : list value) (tr : list event) :
  main_people X fs mentors_dir participants_dir
  = (tr, Ok (fs', (mentors, participants, projects))) ->
  Forall (posts_all (carries "details")) (mentors ++ participants) /\
  collect_posts (mentors ++ participants) <> Raise (KeyError (VStr "details")).
Proof.
  intro H. pose proof (main_people_details _ _ _ _ _ _ _ _ _ H) as A.
  split; [exact A | now apply collect_posts_details].
Qed.

Lemma main_details_witness :
  Forall (posts_all (carries "details")) (Run.mentors ++ Run.participants) /\
  collect_posts (Run.mentors ++ Run.participants) <> Raise (KeyError (VStr "details")).
Proof.
  exact (main_details Examples.ext Examples.warm_files Run.out_files
           Run.mentors_dir Run.participants_dir
           Run.mentors Run.participants Run.projects (fst Run.people_run) eq_refl).
Defined.

(** *** The participants are sorted by name *)

Lemma sorted_fst (r : list (value * value)) :
  Forall ordered_pair r -> StronglySorted not_below r ->
  StronglySorted le_keys (map fst r).
Proof.
  intros O S. induction S as [| a r S IH N]; simpl; [constructor |].
  inversion O as [| ? ? Oa Or]; subst. constructor; [now apply IH |].
  apply Forall_map. rewrite Forall_forall in *. intros b Hb.
  unfold le_keys. apply py_lt_ge; [exact (Or b Hb) | exact Oa | exact (N b Hb)].
Qed.

(** [list.sort(key=...)] keeps the elements it was given, and puts each
    one before all those whose key is not below its own, when [<] orders
    the keys. *)
Lemma sorted_keys_forward (key : value -> result value) (l names : list value) :
  sorted_keys key l = Ok names ->
  (exists s, Permutation l s /\ Forall2 (fun p n => key p = Ok n) s names) /\
  (Forall ordered_key names -> StronglySorted le_keys names).
Proof.
  unfold sorted_keys. intro H. bind_inv H. bind_inv H. injection H as <-.
  destruct (keyed_snd _ _ _ E) as [M F].
  pose proof (stable_sort_Permutation _ _ E0) as P.
  pose proof (stable_sort_Forall _ _ _ E0 F) as F0. split.
  - exists (map snd a0). split.
    + rewrite <- M. now apply Permutation_map.
    + clear E0 P. induction F0 as [| kp r K _ IH]; simpl; constructor; assumption.
  - intro O.
    assert (O0 : Forall ordered_pair a0).
    { clear - O. induction a0; inversion O; subst; constructor; auto. }
    assert (Oa : Forall ordered_pair a).
    { exact (Permutation_Forall (Permutation_sym P) O0). }
    apply sorted_fst; [exact O0 |].
    apply (Sorted_StronglySorted_on ordered_pair); [exact not_below_trans | exact O0 |].
    exact (stable_sort_sorted _ _ Oa E0).
Qed.

(** X21.  What [main] hands to [generate_html]: the posts, collected from
    the mentors and then the participants as the checks have left them,
    and the participants in the order of their names: the names of the
    sorted list are those of the participants, and when they are strings,
    or numbers other than NaN, each one stands before all those that are
    not below it.  Collecting and sorting log nothing and leave the cache
    files and the projects alone. *)
Theorem main_sorts_participants (X : externals) (fs fs' : files)
  (mentors_dir participants_dir : list (string * result value))
  (posts projects names : list value) (tr : list event) :
  main_data X fs mentors_dir participants_dir
  = (tr, Ok (fs', (posts, projects, names))) ->
  exists mentors participants,
    main_people X fs mentors_dir participants_dir
    = (tr, Ok (fs', (mentors, participants, projects))) /\
    collect_posts (mentors ++ participants) = Ok posts /\
    (exists sorted,
       Permutation participants sorted /\
       Forall2 (fun person name => person_name person = Ok name) sorted names) /\
    (Forall ordered_key names -> StronglySorted le_keys names).
Proof.
  unfold main_data. intro H.
  w_inv H a E. destruct a as [fs1 [[mentors participants] projects1]].
  w_inv H posts1 Hc. w_inv H names1 Hs. injection H as <- <- <- <- <-.
  unfold lift in Hc, Hs. injection Hc as <- Hc. injection Hs as <- Hs.
  rewrite !app_nil_r. exists mentors, participants.
  destruct (sorted_keys_forward _ _ _ Hs) as [P Q]. auto.
Qed.

Lemma main_sorts_participants_witness :
  Run.names = [VStr "Bob"; VStr "Zed"] /\
  StronglySorted le_keys Run.names.
Proof.
  split; [reflexivity |].
  destruct (main_sorts_participants Examples.ext Examples.warm_files Run.out_files
              Run.mentors_dir Run.participants_dir
              Run.posts Run.projects Run.names (fst Run.run) eq_refl)
    as (mentors & participants & _ & _ & _ & S).
  apply S. change (Forall ordered_key [VStr "Bob"; VStr "Zed"]).
  constructor; [left; eexists; reflexivity |].
  constructor; [left; eexists; reflexivity | constructor].
Defined.
